(** * willform-demo-a2a: the A2A protocol client and the agent loop

    A shallow embedding of [src/lib/a2a-client.ts], of the operation parser
    of [src/lib/agent-card.ts] and of the core of [src/agent.ts] (its own
    operation parser, [executeCall] and [runTurn]), with the part of the
    JavaScript runtime these functions call: JSON values, [JSON.parse],
    [JSON.stringify], [String(...)], truthiness, property access, the
    [in] operator and the regular expressions of the table parsers.
    Around this core: [fetchAgentCard], the text width [vw], [wrapText] and
    [runScenarios] of [src/agent.ts], the script [src/cli.ts],
    [resolvePath] of [src/lib/util.ts], and the text layout and the
    unwrapping functions of [src/lib/animation.ts].

    Conventions of the embedding.
    - A JavaScript string is a [string] holding the UTF-8 bytes of a
      well-formed text.  A class of a regular expression that is ASCII or
      the complement of an ASCII character is matched byte by byte, the
      white space of [trim] and of the class \s character by character.
    - A JSON number is an integer [Z]: JavaScript doubles agree with [Z] on
      the integers below 2^53 in magnitude.  A number literal with a
      fraction or an exponent is outside the modelled fragment: the model
      of [JSON.parse] gives [None] on a text that holds one.
      [is_json_text] recognises the whole JSON grammar, and [exact_text]
      and [exact_json] name the texts and the values on which the embedding
      and JavaScript agree.
    - [undefined] is [None] in an [option json].
    - A computation that can throw returns a [completion]; an [async]
      function that rejects is a computation that throws.
    - The interfaces of the sources ([A2ATask], [JsonRpcResponse], the
      input of a tool call) are records: a value is taken to have the type
      the source casts it to.
    - Terminal output, the spinner, [sleep] and [waitForEnter] are left
      out.  The rendering of a response is kept as far as it can throw,
      because it runs inside the [try] of [executeCall].  What [cli.ts]
      prints is its result, and is kept.
    - In [Module Animation] a string is the list of its code points. *)

From Stdlib Require Import String Ascii List ZArith NArith Lia Bool.
From Stdlib Require Import DecimalString DecimalZ DecimalN DecimalFacts DecimalPos.
Import ListNotations.

Local Open Scope Z_scope.
Local Open Scope list_scope.
Local Open Scope string_scope.

(* ================================================================== *)
(** ** JavaScript values *)

Unset Elimination Schemes.
Inductive json : Type :=
| JNull
| JBool (b : bool)
| JNum (n : Z)
| JStr (s : string)
| JArr (items : list json)
| JObj (members : list (string * json)).
Set Elimination Schemes.

(** Induction over a JSON value reaches the elements of an array and the
    values of an object. *)
Definition json_ind (P : json -> Prop)
    (HNull : P JNull)
    (HBool : forall b, P (JBool b))
    (HNum : forall n, P (JNum n))
    (HStr : forall s, P (JStr s))
    (HArr : forall items, Forall P items -> P (JArr items))
    (HObj : forall members, Forall (fun kv => P (snd kv)) members -> P (JObj members))
  : forall v, P v :=
  fix go (v : json) : P v :=
    match v with
    | JNull => HNull
    | JBool b => HBool b
    | JNum n => HNum n
    | JStr s => HStr s
    | JArr items =>
        HArr items
          ((fix all (l : list json) : Forall P l :=
              match l with
              | [] => Forall_nil P
              | x :: l' => Forall_cons x (go x) (all l')
              end) items)
    | JObj members =>
        HObj members
          ((fix all (l : list (string * json)) : Forall (fun kv => P (snd kv)) l :=
              match l with
              | [] => Forall_nil _
              | kv :: l' => Forall_cons kv (go (snd kv)) (all l')
              end) members)
    end.

(** A thrown value: an [Error] object (of any subclass, [name] records
    which) with its message, or any other value, known by the text
    [String(e)] gives for it. *)
Inductive exn : Type :=
| ErrorObj (name message : string)
| Thrown (text : string).

Inductive completion (A : Type) : Type :=
| Normal (a : A)
| Throw (e : exn).
Arguments Normal {A} a.
Arguments Throw {A} e.

Definition bind {A B} (c : completion A) (k : A -> completion B) : completion B :=
  match c with
  | Normal a => k a
  | Throw e => Throw e
  end.

Notation "x <- c ;; k" := (bind c (fun x => k))
  (at level 61, c at next level, right associativity).

(** [try { c } catch (e) { h e }] *)
Definition try_catch {A} (c : completion A) (h : exn -> completion A) : completion A :=
  match c with
  | Normal a => Normal a
  | Throw e => h e
  end.

Definition TypeError (message : string) : exn := ErrorObj "TypeError" message.
Definition SyntaxError (message : string) : exn := ErrorObj "SyntaxError" message.
Definition Error (message : string) : exn := ErrorObj "Error" message.

(* ------------------------------------------------------------------ *)
(** *** Characters and strings *)

Definition code (c : ascii) : N := N_of_ascii c.

Definition is_digit (c : ascii) : bool := ((48 <=? code c) && (code c <=? 57))%N.
Definition is_lower (c : ascii) : bool := ((97 <=? code c) && (code c <=? 122))%N.

(** The four characters JSON allows as insignificant white space. *)
Definition is_json_ws (c : ascii) : bool :=
  ((code c =? 32) || (code c =? 9) || (code c =? 10) || (code c =? 13))%N.

(** The white space of the regular-expression class \s and of [trim]
    (WhiteSpace and LineTerminator), by the UTF-8 bytes of its characters.
    In one byte: tab, line feed, vertical tab, form feed, carriage return,
    space. *)
Definition is_space (c : ascii) : bool :=
  (((9 <=? code c) && (code c <=? 13)) || (code c =? 32))%N.

(** In two bytes: U+00A0. *)
Definition is_space2 (a b : ascii) : bool := ((code a =? 194) && (code b =? 160))%N.

(** In three bytes: U+1680, U+2000 to U+200A, U+2028, U+2029, U+202F,
    U+205F, U+3000 and U+FEFF. *)
Definition is_space3 (a b c : ascii) : bool :=
  (((code a =? 225) && (code b =? 154) && (code c =? 128))              (* U+1680 *)
   || ((code a =? 226) && (code b =? 128)
       && (((128 <=? code c) && (code c <=? 138))                       (* U+2000 to U+200A *)
           || (code c =? 168) || (code c =? 169) || (code c =? 175)))   (* U+2028, U+2029, U+202F *)
   || ((code a =? 226) && (code b =? 129) && (code c =? 159))           (* U+205F *)
   || ((code a =? 227) && (code b =? 128) && (code c =? 128))           (* U+3000 *)
   || ((code a =? 239) && (code b =? 187) && (code c =? 191)))%N.       (* U+FEFF *)

(** What follows the white-space character at the head of [s], when there
    is one. *)
Definition space_prefix (s : string) : option string :=
  match s with
  | String a r =>
      if is_space a then Some r
      else
        match r with
        | String b r1 =>
            if is_space2 a b then Some r1
            else
              match r1 with
              | String c r2 => if is_space3 a b c then Some r2 else None
              | "" => None
              end
        | "" => None
        end
  | "" => None
  end.

(** A walk over the white-space characters at the head of [s]: [stop] on
    what follows them, [step] at each of them on its way back. *)
Fixpoint space_fold {A} (step : string -> A -> A) (stop : string -> A) (s : string) : A :=
  match s with
  | String a r =>
      if is_space a then step s (space_fold step stop r)
      else
        match r with
        | String b r1 =>
            if is_space2 a b then step s (space_fold step stop r1)
            else
              match r1 with
              | String c r2 =>
                  if is_space3 a b c then step s (space_fold step stop r2) else stop s
              | "" => stop s
              end
        | "" => stop s
        end
  | "" => stop s
  end.

(** [s] is white space only. *)
Definition all_space (s : string) : bool :=
  space_fold (fun _ rest => rest) (fun s' => match s' with "" => true | _ => false end) s.

Definition LF : string := String (ascii_of_N 10) "".
(** The one-character string holding a double quote. *)
Definition DQ : string := String (ascii_of_N 34) "".

Fixpoint join (sep : string) (l : list string) : string :=
  match l with
  | [] => ""
  | [x] => x
  | x :: rest => x ++ sep ++ join sep rest
  end.

Fixpoint starts_with (p s : string) : option string :=
  match p, s with
  | "", _ => Some s
  | String a p', String b s' => if Ascii.eqb a b then starts_with p' s' else None
  | String _ _, "" => None
  end.

(* ------------------------------------------------------------------ *)
(** *** Truthiness, property access, String(...) *)

(** [Boolean(v)]: [undefined], [null], [false], [0] and the empty string
    are falsy, everything else (empty arrays and objects too) is truthy. *)
Definition truthy (v : option json) : bool :=
  match v with
  | None => false
  | Some JNull => false
  | Some (JBool b) => b
  | Some (JNum n) => negb (n =? 0)%Z
  | Some (JStr s) => negb (s =? "")
  | Some (JArr _) => true
  | Some (JObj _) => true
  end.

Fixpoint lookup (k : string) (o : list (string * json)) : option json :=
  match o with
  | [] => None
  | (k', v) :: o' => if k =? k' then Some v else lookup k o'
  end.

(** [v.k] as a total function, for a value that is not [null]: the member
    of an object, [undefined] for anything else. *)
Definition field (v : json) (k : string) : option json :=
  match v with
  | JObj o => lookup k o
  | _ => None
  end.

(** [v.k] for a key [k] that no prototype defines (the sources read only
    [message], [data] and [reply]).  Reading a property of [null] or
    [undefined] throws; a primitive, an array or an object without the key
    gives [undefined]. *)
Definition get_prop (v : option json) (k : string) : completion (option json) :=
  match v with
  | None =>
      Throw (TypeError ("Cannot read properties of undefined (reading '" ++ k ++ "')"))
  | Some JNull =>
      Throw (TypeError ("Cannot read properties of null (reading '" ++ k ++ "')"))
  | Some (JObj o) => Normal (lookup k o)
  | Some _ => Normal None
  end.

(** [v?.k] *)
Definition get_prop_opt (v : option json) (k : string) : completion (option json) :=
  match v with
  | None | Some JNull => Normal None
  | _ => get_prop v k
  end.

(** [x ?? y] *)
Definition nullish {A} (f : option json -> A) (v : option json) (dflt : A) : A :=
  match v with
  | None | Some JNull => dflt
  | _ => f v
  end.

(** [String(n)] and the number [JSON.stringify] writes, for an integer:
    its decimal digits.  JavaScript prints these digits for the integers
    up to [Number.MAX_SAFE_INTEGER] in magnitude, which are the numbers of
    [exact_json] below. *)
Definition number_to_string (n : Z) : string := NilZero.string_of_int (Z.to_int n).

(** [String(v)] on a JSON value.  An array prints its elements separated by
    commas, with [null] printed as nothing.  An object prints
    [[object Object]] through [Object.prototype.toString], unless it has a
    [toString] member of its own: a member read from JSON is no function,
    [valueOf] gives no primitive, and the conversion throws. *)
Fixpoint js_String (v : json) : completion string :=
  match v with
  | JNull => Normal "null"
  | JBool true => Normal "true"
  | JBool false => Normal "false"
  | JNum n => Normal (number_to_string n)
  | JStr s => Normal s
  | JArr items =>
      texts <- (fix each (l : list json) : completion (list string) :=
                  match l with
                  | [] => Normal []
                  | x :: l' =>
                      t <- match x with JNull => Normal "" | _ => js_String x end ;;
                      ts <- each l' ;;
                      Normal (t :: ts)
                  end) items ;;
      Normal (join "," texts)
  | JObj members =>
      match lookup "toString" members with
      | Some _ => Throw (TypeError "Cannot convert object to primitive value")
      | None => Normal "[object Object]"
      end
  end.

(** The text of a primitive, as error messages show it. *)
Definition primitive_text (v : option json) : string :=
  match v with
  | None => "undefined"
  | Some JNull => "null"
  | Some (JBool true) => "true"
  | Some (JBool false) => "false"
  | Some (JNum n) => number_to_string n
  | Some (JStr s) => s
  | Some _ => ""
  end.

(* ------------------------------------------------------------------ *)
(** *** JSON.stringify *)

Definition hex_digit (n : N) : ascii :=
  if (n <? 10)%N then ascii_of_N (48 + n) else ascii_of_N (87 + n).

(** QuoteJSONString, one character. *)
Definition quote_char (c : ascii) : string :=
  let n := code c in
  if (n =? 8)%N then "\b"
  else if (n =? 9)%N then "\t"
  else if (n =? 10)%N then "\n"
  else if (n =? 12)%N then "\f"
  else if (n =? 13)%N then "\r"
  else if (n =? 34)%N then "\" ++ DQ
  else if (n =? 92)%N then "\\"
  else if (n <? 32)%N then
    "\u00" ++ String (hex_digit (n / 16)) (String (hex_digit (n mod 16)) "")
  else String c "".

Fixpoint quote_body (s : string) : string :=
  match s with
  | "" => ""
  | String c s' => quote_char c ++ quote_body s'
  end.

Definition quote (s : string) : string := DQ ++ quote_body s ++ DQ.

(** SerializeJSONProperty on a JSON value, with the [gap] and the current
    [indent] of the specification of [JSON.stringify]. *)
Fixpoint serialize (gap indent : string) (v : json) : string :=
  match v with
  | JNull => "null"
  | JBool true => "true"
  | JBool false => "false"
  | JNum n => number_to_string n
  | JStr s => quote s
  | JArr items =>
      let stepback := indent in
      let indent := indent ++ gap in
      match items with
      | [] => "[]"
      | _ =>
          let partial := map (serialize gap indent) items in
          if gap =? "" then "[" ++ join "," partial ++ "]"
          else "[" ++ LF ++ indent ++ join ("," ++ LF ++ indent) partial
                   ++ LF ++ stepback ++ "]"
      end
  | JObj members =>
      let stepback := indent in
      let indent := indent ++ gap in
      match members with
      | [] => "{}"
      | _ =>
          let partial :=
            map (fun kv => quote (fst kv) ++ ":" ++ (if gap =? "" then "" else " ")
                             ++ serialize gap indent (snd kv)) members in
          if gap =? "" then "{" ++ join "," partial ++ "}"
          else "{" ++ LF ++ indent ++ join ("," ++ LF ++ indent) partial
                   ++ LF ++ stepback ++ "}"
      end
  end.

(** [JSON.stringify(v)] *)
Definition JSON_stringify (v : json) : string := serialize "" "" v.

(** [JSON.stringify(v, null, 2)] *)
Definition JSON_stringify_pretty (v : json) : string := serialize "  " "" v.

(* ------------------------------------------------------------------ *)
(** *** JSON.parse *)

Fixpoint skip_ws (s : string) : string :=
  match s with
  | String c s' => if is_json_ws c then skip_ws s' else s
  | "" => ""
  end.

Definition hex_value (c : ascii) : option N :=
  let n := code c in
  if is_digit c then Some (n - 48)%N
  else if ((97 <=? n) && (n <=? 102))%N then Some (n - 87)%N
  else if ((65 <=? n) && (n <=? 70))%N then Some (n - 55)%N
  else None.

Definition hex4 (a b c d : ascii) : option N :=
  match hex_value a, hex_value b, hex_value c, hex_value d with
  | Some x, Some y, Some z, Some w => Some (((x * 16 + y) * 16 + z) * 16 + w)%N
  | _, _, _, _ => None
  end.

(** The UTF-8 bytes of a code point (a lone surrogate is encoded like any
    other three-byte code point). *)
Definition utf8 (cp : N) : string :=
  let byte n := ascii_of_N n in
  (if cp <? 128 then String (byte cp) ""
   else if cp <? 2048 then
     String (byte (192 + cp / 64)) (String (byte (128 + cp mod 64)) "")
   else if cp <? 65536 then
     String (byte (224 + cp / 4096))
       (String (byte (128 + (cp / 64) mod 64)) (String (byte (128 + cp mod 64)) ""))
   else
     String (byte (240 + cp / 262144))
       (String (byte (128 + (cp / 4096) mod 64))
          (String (byte (128 + (cp / 64) mod 64)) (String (byte (128 + cp mod 64)) ""))))%N.

Definition is_high_surrogate (u : N) : bool := ((55296 <=? u) && (u <=? 56319))%N.
Definition is_low_surrogate (u : N) : bool := ((56320 <=? u) && (u <=? 57343))%N.

(** The character a one-letter escape stands for. *)
Definition unescape (e : ascii) : option ascii :=
  let n := code e in
  (if n =? 34 then Some (ascii_of_N 34)         (* quote *)
   else if n =? 92 then Some (ascii_of_N 92)    (* backslash *)
   else if n =? 47 then Some (ascii_of_N 47)    (* slash *)
   else if n =? 98 then Some (ascii_of_N 8)     (* b *)
   else if n =? 102 then Some (ascii_of_N 12)   (* f *)
   else if n =? 110 then Some (ascii_of_N 10)   (* n *)
   else if n =? 114 then Some (ascii_of_N 13)   (* r *)
   else if n =? 116 then Some (ascii_of_N 9)    (* t *)
   else None)%N.

Definition prepend (p : string) (r : option (string * string)) : option (string * string) :=
  match r with
  | Some (s, rest) => Some (p ++ s, rest)
  | None => None
  end.

(** The characters of a string literal after its opening quote, up to and
    including the closing quote: the decoded string and the rest of the
    input. *)
Fixpoint parse_string_body (s : string) : option (string * string) :=
  match s with
  | "" => None
  | String c r =>
      if (code c =? 34)%N then Some ("", r)
      else if (code c =? 92)%N then
        match r with
        | "" => None
        | String e r1 =>
            if (code e =? 117)%N then
              match r1 with
              | String h1 (String h2 (String h3 (String h4 r2))) =>
                  match hex4 h1 h2 h3 h4 with
                  | None => None
                  | Some u =>
                      if is_high_surrogate u then
                        match r2 with
                        | String bs (String u2 (String x1 (String x2 (String x3 (String x4 r3))))) =>
                            match hex4 x1 x2 x3 x4 with
                            | Some lo =>
                                if (code bs =? 92)%N && (code u2 =? 117)%N && is_low_surrogate lo
                                then prepend (utf8 (65536 + (u - 55296) * 1024 + (lo - 56320))%N)
                                             (parse_string_body r3)
                                else prepend (utf8 u) (parse_string_body r2)
                            | None => prepend (utf8 u) (parse_string_body r2)
                            end
                        | _ => prepend (utf8 u) (parse_string_body r2)
                        end
                      else prepend (utf8 u) (parse_string_body r2)
                  end
              | _ => None
              end
            else
              match unescape e with
              | Some ch => prepend (String ch "") (parse_string_body r1)
              | None => None
              end
        end
      else if (code c <? 32)%N then None
      else prepend (String c "") (parse_string_body r)
  end.

Fixpoint take_digits (s : string) : string * string :=
  match s with
  | String c r =>
      if is_digit c then let (d, r') := take_digits r in (String c d, r') else ("", s)
  | "" => ("", "")
  end.

(** An integer literal: an optional minus sign, then [0] or a run of digits
    that does not start with [0].  A literal with a fraction or an
    exponent is not read: [JSON_parse] gives [None] on a text that holds
    one, and [is_json_text] below tells such a text from one that is no
    JSON text.  The value read is the one of JavaScript for the integers
    up to [Number.MAX_SAFE_INTEGER] in magnitude ([exact_json] below). *)
Definition parse_number (s : string) : option (json * string) :=
  let (neg, s1) :=
    match s with
    | String c r => if (code c =? 45)%N then (true, r) else (false, s)
    | "" => (false, s)
    end in
  let (ds, rest) := take_digits s1 in
  match ds with
  | "" => None
  | String d ds' =>
      if (code d =? 48)%N && negb (ds' =? "") then None
      else
        match NilEmpty.uint_of_string ds with
        | Some u => Some (JNum (Z.of_int (if neg then Decimal.Neg u else Decimal.Pos u)), rest)
        | None => None
        end
  end.

(** The property order of a JavaScript object: array indices (canonical
    decimal numerals below 2^32 - 1) in ascending order first, then the other
    keys in the order of their creation. *)
Definition array_index (k : string) : option N :=
  match k with
  | "" => None
  | String d ds =>
      if forallb is_digit (list_ascii_of_string k)
         && negb ((code d =? 48)%N && negb (ds =? ""))
      then
        match NilEmpty.uint_of_string k with
        | Some u => let n := N.of_uint u in if (n <? 4294967295)%N then Some n else None
        | None => None
        end
      else None
  end.

(** [o[k] = v] on the ordered property list of an object: an existing key
    keeps its place and takes the new value; a new array index goes to its
    place among the indices; any other new key goes last. *)
Fixpoint obj_set (k : string) (v : json) (o : list (string * json)) : list (string * json) :=
  match o with
  | [] => [(k, v)]
  | (k', v') :: o' =>
      if k =? k' then (k, v) :: o'
      else
        match array_index k, array_index k' with
        | Some n, Some n' =>
            if (n <? n')%N then (k, v) :: (k', v') :: o' else (k', v') :: obj_set k v o'
        | Some _, None => (k, v) :: (k', v') :: o'
        | None, _ => (k', v') :: obj_set k v o'
        end
  end.

(** The object built from the members of an object literal, in the order of
    the text. *)
Definition build_object (members : list (string * json)) : list (string * json) :=
  fold_left (fun o kv => obj_set (fst kv) (snd kv) o) members [].

(** Recursive descent over the text; [fuel] bounds the nesting of the calls
    and [JSON_parse] gives it more than any text can use. *)
Fixpoint parse_value (fuel : nat) (s : string) : option (json * string) :=
  match fuel with
  | O => None
  | S fuel' =>
      match skip_ws s with
      | "" => None
      | String c r =>
          if (code c =? 110)%N then                       (* n *)
            option_map (fun r' => (JNull, r')) (starts_with "ull" r)
          else if (code c =? 116)%N then                  (* t *)
            option_map (fun r' => (JBool true, r')) (starts_with "rue" r)
          else if (code c =? 102)%N then                  (* f *)
            option_map (fun r' => (JBool false, r')) (starts_with "alse" r)
          else if (code c =? 34)%N then                   (* quote *)
            match parse_string_body r with
            | Some (str, r') => Some (JStr str, r')
            | None => None
            end
          else if (code c =? 91)%N then                   (* [ *)
            match skip_ws r with
            | String c1 r1 =>
                if (code c1 =? 93)%N then Some (JArr [], r1)
                else
                  match parse_elements fuel' r with
                  | Some (items, r') => Some (JArr items, r')
                  | None => None
                  end
            | "" => None
            end
          else if (code c =? 123)%N then                  (* { *)
            match skip_ws r with
            | String c1 r1 =>
                if (code c1 =? 125)%N then Some (JObj [], r1)
                else
                  match parse_members fuel' r with
                  | Some (members, r') => Some (JObj (build_object members), r')
                  | None => None
                  end
            | "" => None
            end
          else parse_number (String c r)
      end
  end

with parse_elements (fuel : nat) (s : string) : option (list json * string) :=
  match fuel with
  | O => None
  | S fuel' =>
      match parse_value fuel' s with
      | None => None
      | Some (v, r) =>
          match skip_ws r with
          | String c r' =>
              if (code c =? 44)%N then                    (* , *)
                match parse_elements fuel' r' with
                | Some (vs, r'') => Some (v :: vs, r'')
                | None => None
                end
              else if (code c =? 93)%N then Some ([v], r')   (* ] *)
              else None
          | "" => None
          end
      end
  end

with parse_members (fuel : nat) (s : string) : option (list (string * json) * string) :=
  match fuel with
  | O => None
  | S fuel' =>
      match skip_ws s with
      | String q r0 =>
          if (code q =? 34)%N then
            match parse_string_body r0 with
            | None => None
            | Some (k, r1) =>
                match skip_ws r1 with
                | String colon r2 =>
                    if (code colon =? 58)%N then
                      match parse_value fuel' r2 with
                      | None => None
                      | Some (v, r) =>
                          match skip_ws r with
                          | String c r' =>
                              if (code c =? 44)%N then
                                match parse_members fuel' r' with
                                | Some (ms, r'') => Some ((k, v) :: ms, r'')
                                | None => None
                                end
                              else if (code c =? 125)%N then Some ([(k, v)], r')
                              else None
                          | "" => None
                          end
                      end
                    else None
                | "" => None
                end
            end
          else None
      | "" => None
      end
  end.

(** [JSON.parse(text)]: [None] stands for the SyntaxError it throws (and is
    what the model gives for a number outside its fragment). *)
Definition JSON_parse (text : string) : option json :=
  match parse_value (S (String.length text)) text with
  | Some (v, rest) => if skip_ws rest =? "" then Some v else None
  | None => None
  end.

(** The value [JSON.parse] gives back for the text of [v]: the same value
    with the members of every object in the property order of JavaScript. *)
Fixpoint normalize (v : json) : json :=
  match v with
  | JArr items => JArr (map normalize items)
  | JObj members =>
      JObj (build_object (map (fun kv => (fst kv, normalize (snd kv))) members))
  | _ => v
  end.

(** [v] is a value a JavaScript program can hold: the keys of every object
    are distinct and in property order. *)
Definition js_value (v : json) : Prop := normalize v = v.

(* ------------------------------------------------------------------ *)
(** *** The texts on which the embedding is exact *)

(** One digit or more: what follows them. *)
Definition skip_digits (s : string) : option string :=
  let (ds, rest) := take_digits s in
  match ds with
  | "" => None
  | _ => Some rest
  end.

(** A number literal of the JSON grammar, fraction and exponent included:
    an optional minus sign, [0] or digits that do not start with [0], an
    optional fraction of a point and digits, an optional exponent of [e]
    or [E], an optional sign and digits.  What follows it in [s]. *)
Definition skip_number (s : string) : option string :=
  let s1 :=
    match s with
    | String c r => if (code c =? 45)%N then r else s
    | "" => s
    end in
  let (ds, r1) := take_digits s1 in
  match ds with
  | "" => None
  | String d ds' =>
      if (code d =? 48)%N && negb (ds' =? "") then None
      else
        let after_fraction :=
          match r1 with
          | String c r => if (code c =? 46)%N then skip_digits r else Some r1
          | "" => Some r1
          end in
        match after_fraction with
        | None => None
        | Some r2 =>
            match r2 with
            | String c r =>
                if (code c =? 101)%N || (code c =? 69)%N then
                  match r with
                  | String sign r' =>
                      if (code sign =? 43)%N || (code sign =? 45)%N then skip_digits r'
                      else skip_digits r
                  | "" => None
                  end
                else Some r2
            | "" => Some r2
            end
        end
  end.

(** The recursive descent of [parse_value] over the whole JSON grammar,
    with every number literal the grammar has: what follows the value. *)
Fixpoint skip_value (fuel : nat) (s : string) : option string :=
  match fuel with
  | O => None
  | S fuel' =>
      match skip_ws s with
      | "" => None
      | String c r =>
          if (code c =? 110)%N then starts_with "ull" r
          else if (code c =? 116)%N then starts_with "rue" r
          else if (code c =? 102)%N then starts_with "alse" r
          else if (code c =? 34)%N then option_map snd (parse_string_body r)
          else if (code c =? 91)%N then
            match skip_ws r with
            | String c1 r1 => if (code c1 =? 93)%N then Some r1 else skip_elements fuel' r
            | "" => None
            end
          else if (code c =? 123)%N then
            match skip_ws r with
            | String c1 r1 => if (code c1 =? 125)%N then Some r1 else skip_members fuel' r
            | "" => None
            end
          else skip_number (String c r)
      end
  end

with skip_elements (fuel : nat) (s : string) : option string :=
  match fuel with
  | O => None
  | S fuel' =>
      match skip_value fuel' s with
      | None => None
      | Some r =>
          match skip_ws r with
          | String c r' =>
              if (code c =? 44)%N then skip_elements fuel' r'
              else if (code c =? 93)%N then Some r'
              else None
          | "" => None
          end
      end
  end

with skip_members (fuel : nat) (s : string) : option string :=
  match fuel with
  | O => None
  | S fuel' =>
      match skip_ws s with
      | String q r0 =>
          if (code q =? 34)%N then
            match parse_string_body r0 with
            | None => None
            | Some (_, r1) =>
                match skip_ws r1 with
                | String colon r2 =>
                    if (code colon =? 58)%N then
                      match skip_value fuel' r2 with
                      | None => None
                      | Some r =>
                          match skip_ws r with
                          | String c r' =>
                              if (code c =? 44)%N then skip_members fuel' r'
                              else if (code c =? 125)%N then Some r'
                              else None
                          | "" => None
                          end
                      end
                    else None
                | "" => None
                end
            end
          else None
      | "" => None
      end
  end.

(** [text] is a JSON text: [JSON.parse(text)] throws no SyntaxError. *)
Definition is_json_text (text : string) : bool :=
  match skip_value (S (String.length text)) text with
  | Some rest => skip_ws rest =? ""
  | None => false
  end.

(** [Number.MAX_SAFE_INTEGER]: up to it in magnitude an integer is a
    double, and [String] and [JSON.stringify] print its decimal digits. *)
Definition MAX_SAFE_INTEGER : Z := 9007199254740991.

Definition safe_integer (n : Z) : bool := (Z.abs n <=? MAX_SAFE_INTEGER)%Z.

(** No surrogate on its own: UTF-8 has no such character, and its three
    bytes would start with 237 followed by a byte from 160. *)
Fixpoint no_surrogate (s : string) : bool :=
  match s with
  | String a (String b _ as r) =>
      negb ((code a =? 237)%N && (160 <=? code b)%N) && no_surrogate r
  | _ => true
  end.

(** The values the embedding holds exactly as JavaScript does: every
    number a safe integer, every string and key a well-formed text. *)
Fixpoint exact_json (v : json) : bool :=
  match v with
  | JNum n => safe_integer n
  | JStr s => no_surrogate s
  | JArr items => forallb exact_json items
  | JObj members => forallb (fun kv => no_surrogate (fst kv) && exact_json (snd kv)) members
  | _ => true
  end.

(** The texts [JSON.parse] treats in the embedding as it does in
    JavaScript: a text that is no JSON text, which makes it throw, and a
    JSON text of an exact value.  A JSON text with another number (a
    fraction, an exponent, an integer out of the safe range) is left out.
    [None] is for no text at all. *)
Definition exact_text (text : option string) : bool :=
  match text with
  | None => true
  | Some t =>
      match JSON_parse t with
      | Some v => exact_json v
      | None => negb (is_json_text t)
      end
  end.

(* ================================================================== *)
(** ** src/lib/a2a-client.ts *)

(** [parts: Array<{ kind: string; text: string }>] *)
Record Part : Type := { kind : string; text : string }.

Record Artifact : Type :=
  { artifactId : string; name : string; parts : list Part }.

Record TaskStatus : Type := { state : string; timestamp : string }.

Record HistoryEntry : Type :=
  { history_state : string; history_timestamp : string; history_message : option string }.

Record LowBalanceWarning : Type := { balance : string; warning_message : string }.

Record Metadata : Type := { lowBalanceWarning : option LowBalanceWarning }.

(** [interface A2ATask].  [artifacts] is optional here because the client
    reads it as [task.artifacts?.length]. *)
Record A2ATask : Type :=
  { task_id : string;
    contextId : string;
    status : TaskStatus;
    artifacts : option (list Artifact);
    history : list HistoryEntry;
    metadata : option Metadata }.

Record RpcError : Type := { error_code : Z; error_message : string }.

(** [interface JsonRpcResponse] *)
Record JsonRpcResponse : Type :=
  { jsonrpc : string;
    result : option A2ATask;
    error : option RpcError;
    response_id : json }.

(** What the client reads of a fetch [Response]: [ok], [status], and the
    outcomes of [text()] and [json()]. *)
Record Response : Type :=
  { ok : bool;
    http_status : Z;
    body_text : completion string;
    body_json : completion JsonRpcResponse }.

(** The request the client makes: the URL and the body of the POST.  The
    call rejects on a network failure or when the 60 s abort signal fires. *)
Definition Fetch : Type := string -> string -> completion Response.

(** [class A2AClient]: its three private fields. *)
Record A2AClient : Type :=
  { baseUrl : string;
    fetch : Fetch;
    rpcId : Z }.

Fixpoint strip_trailing_slash (s : string) : string :=
  match s with
  | "" => ""
  | String c "" => if (code c =? 47)%N then "" else s
  | String c s' => String c (strip_trailing_slash s')
  end.

(** [constructor(config)] *)
Definition new_A2AClient (config_baseUrl : string) (config_fetch : Fetch) : A2AClient :=
  {| baseUrl := strip_trailing_slash config_baseUrl;
     fetch := config_fetch;
     rpcId := 0 |}.

(** The body of request number [id]. *)
Definition rpc_body (method : string) (params : json) (id : Z) : string :=
  JSON_stringify
    (JObj [("jsonrpc", JStr "2.0"); ("method", JStr method);
           ("params", params); ("id", JNum id)]).

(** [private async rpc(method, params)]: the outcome and the client after
    the call ([++this.rpcId] happens before the request is sent). *)
Definition rpc (c : A2AClient) (method : string) (params : json)
  : completion JsonRpcResponse * A2AClient :=
  let id := rpcId c + 1 in
  let c' := {| baseUrl := baseUrl c; fetch := fetch c; rpcId := id |} in
  (res <- fetch c (baseUrl c ++ "/a2a") (rpc_body method params id) ;;
   if negb (ok res) then
     let text := match body_text res with Normal t => t | Throw _ => "" end in
     Throw (Error ("HTTP " ++ number_to_string (http_status res) ++ ": " ++ text))
   else body_json res,
   c').

(** [if (contextId) rpcParams.contextId = contextId] *)
Definition with_contextId (contextId : option string) (rpcParams : list (string * json))
  : list (string * json) :=
  match contextId with
  | Some ctx => if negb (ctx =? "") then rpcParams ++ [("contextId", JStr ctx)]%list else rpcParams
  | None => rpcParams
  end.

Definition message_params (text : string) (contextId : option string) : json :=
  JObj (with_contextId contextId
          [("message",
            JObj [("role", JStr "user");
                  ("parts", JArr [JObj [("kind", JStr "text"); ("text", JStr text)]])])]).

Definition protocol_error (e : RpcError) : exn :=
  Error ("A2A error [" ++ number_to_string (error_code e) ++ "]: " ++ error_message e).

Definition empty_result_error : exn := Error "Empty response from A2A endpoint".

(** [async sendText(text, contextId?)] *)
Definition sendText (c : A2AClient) (text : string) (contextId : option string)
  : completion A2ATask * A2AClient :=
  let rpcParams := message_params text contextId in
  let (r, c') := rpc c "message/send" rpcParams in
  (response <- r ;;
   match error response with
   | Some e => Throw (protocol_error e)
   | None =>
       match result response with
       | None => Throw empty_result_error
       | Some task => Normal task
       end
   end, c').

(** The text [send] submits: [JSON.stringify({ operation, params })]. *)
Definition operation_envelope (operation : string) (params : json) : string :=
  JSON_stringify (JObj [("operation", JStr operation); ("params", params)]).

(** [async send(operation, params = {}, contextId?)] *)
Definition send (c : A2AClient) (operation : string) (params : option json)
    (contextId : option string) : completion A2ATask * A2AClient :=
  let params := match params with Some p => p | None => JObj [] end in
  let rpcParams := message_params (operation_envelope operation params) contextId in
  let (r, c') := rpc c "message/send" rpcParams in
  (response <- r ;;
   match error response with
   | Some e => Throw (protocol_error e)
   | None =>
       match result response with
       | None => Throw empty_result_error
       | Some task => Normal task
       end
   end, c').

(** [async getTask(taskId)].  [return response.result!] hands the field
    over unchecked, so the promise resolves with [undefined] ([None]) when
    the response has no result. *)
Definition getTask (c : A2AClient) (taskId : string)
  : completion (option A2ATask) * A2AClient :=
  let (r, c') := rpc c "tasks/get" (JObj [("id", JStr taskId)]) in
  (response <- r ;;
   match error response with
   | Some e => Throw (protocol_error e)
   | None => Normal (result response)
   end, c').

(** [async cancelTask(taskId)] *)
Definition cancelTask (c : A2AClient) (taskId : string)
  : completion (option A2ATask) * A2AClient :=
  let (r, c') := rpc c "tasks/cancel" (JObj [("id", JStr taskId)]) in
  (response <- r ;;
   match error response with
   | Some e => Throw (protocol_error e)
   | None => Normal (result response)
   end, c').

(** [parts.find((p) => p.kind === "text")] *)
Definition find_text_part (ps : list Part) : option Part :=
  find (fun p => kind p =? "text") ps.

(** The sentinel of [extractText]: the Korean for [(no response)]. *)
Definition NO_RESPONSE : string := "(응답 없음)".

(** [JSON.parse(text)] as a computation that throws. *)
Definition JSON_parse_c (text : string) : completion json :=
  match JSON_parse text with
  | Some v => Normal v
  | None => Throw (SyntaxError "Unexpected token in JSON")
  end.

(** [String(v)] on a value that may be [undefined]. *)
Definition String_of (v : option json) : completion string :=
  match v with
  | Some x => js_String x
  | None => Normal "undefined"
  end.

(** The [try] block of [extractText], on the text of the text part. *)
Definition extractText_try (text : string) : completion string :=
  parsed <- JSON_parse_c text ;;
  match parsed with
  | JStr s => Normal s                                   (* typeof parsed === "string" *)
  | _ =>
      message <- get_prop (Some parsed) "message" ;;
      if truthy message then String_of message
      else
        data <- get_prop (Some parsed) "data" ;;
        reply <- get_prop_opt data "reply" ;;
        if truthy reply then String_of reply
        else
          dmessage <- get_prop_opt data "message" ;;
          if truthy dmessage then String_of dmessage
          else
            match data with
            | Some (JStr s) =>                           (* typeof parsed.data === "string" *)
                if truthy data then Normal s else Normal (JSON_stringify_pretty parsed)
            | _ => Normal (JSON_stringify_pretty parsed)
            end
  end.

(** [extractText(task)] *)
Definition extractText (task : A2ATask) : completion string :=
  match artifacts task with
  | None | Some [] => Normal NO_RESPONSE
  | Some (first :: _) =>
      match find_text_part (parts first) with
      | None => Normal NO_RESPONSE
      | Some textPart =>
          if text textPart =? "" then Normal NO_RESPONSE
          else try_catch (extractText_try (text textPart)) (fun _ => Normal (text textPart))
      end
  end.

(** [extractData(task)]: [JNull] is the [null] it returns. *)
Definition extractData (task : A2ATask) : json :=
  match artifacts task with
  | None | Some [] => JNull
  | Some (first :: _) =>
      match find_text_part (parts first) with
      | None => JNull
      | Some textPart =>
          if text textPart =? "" then JNull
          else
            match JSON_parse (text textPart) with
            | Some parsed => parsed
            | None => JStr (text textPart)
            end
      end
  end.

(* ================================================================== *)
(** ** String methods and regular expressions of the table parsers *)

(** [s.split(sep)] for a one-character separator. *)
Fixpoint split_on (sep : ascii) (s : string) : list string :=
  match s with
  | "" => [""]
  | String c s' =>
      if Ascii.eqb c sep then "" :: split_on sep s'
      else
        match split_on sep s' with
        | x :: xs => String c x :: xs
        | [] => [String c ""]
        end
  end.

(** [hay.includes(needle)] *)
Fixpoint includes (needle hay : string) : bool :=
  match starts_with needle hay with
  | Some _ => true
  | None =>
      match hay with
      | String _ hay' => includes needle hay'
      | "" => false
      end
  end.

(** [s] without the white space at its head. *)
Definition trim_left (s : string) : string := space_fold (fun _ rest => rest) (fun s' => s') s.

(** [s] without the white space at its end: [s] up to the first place
    after which it holds white space only. *)
Fixpoint trim_right (s : string) : string :=
  match s with
  | "" => ""
  | String c s' => if all_space s then "" else String c (trim_right s')
  end.

(** [s.trim()] *)
Definition trim (s : string) : string := trim_right (trim_left s).

(** [s.replace(/`/g, "")] *)
Fixpoint remove_backticks (s : string) : string :=
  match s with
  | "" => ""
  | String c s' => if (code c =? 96)%N then remove_backticks s' else String c (remove_backticks s')
  end.

Fixpoint take (n : nat) (s : string) : string :=
  match n, s with
  | S n', String c s' => String c (take n' s')
  | _, _ => ""
  end.

(** The regular expressions of the sources: literals, classes of ASCII
    characters and their complements, greedy repetition of such a class,
    greedy repetition of the white-space class \s ([Spaces]),
    sequence, ordered alternative, capture groups and the two anchors. *)
Inductive regex : Type :=
| Chr (c : N)
| Cls (p : ascii -> bool)
| Star (p : ascii -> bool)
| Plus (p : ascii -> bool)
| Spaces
| Seq (r1 r2 : regex)
| Alt (r1 r2 : regex)
| Eps
| Group (n : nat) (r : regex)
| Bol
| Eol.

Definition captures : Type := list (nat * string).

Definition capture (n : nat) (caps : captures) : string :=
  match find (fun c => Nat.eqb (fst c) n) caps with
  | Some c => snd c
  | None => ""
  end.

(** Greedy repetition with backtracking: the longest run first, then
    shorter ones until the continuation accepts. *)
Fixpoint star_run {A} (p : ascii -> bool) (s : string) (k : string -> option A) : option A :=
  match s with
  | String c s' =>
      if p c then
        match star_run p s' k with
        | Some r => Some r
        | None => k s
        end
      else k s
  | "" => k s
  end.

(** The same for white space: one character of it is one, two or three
    bytes. *)
Definition space_run {A} (s : string) (k : string -> option A) : option A :=
  space_fold
    (fun s' longer => match longer with Some r => Some r | None => k s' end) k s.

(** Backtracking match of [r] at the head of [s], in an input of [len]
    characters; [k] is what remains to be matched. *)
Fixpoint rmatch (len : nat) (r : regex) (s : string) (caps : captures)
    (k : string -> captures -> option captures) : option captures :=
  match r with
  | Chr n =>
      match s with
      | String c s' => if (code c =? n)%N then k s' caps else None
      | "" => None
      end
  | Cls p =>
      match s with
      | String c s' => if p c then k s' caps else None
      | "" => None
      end
  | Star p => star_run p s (fun s' => k s' caps)
  | Spaces => space_run s (fun s' => k s' caps)
  | Plus p =>
      match s with
      | String c s' => if p c then star_run p s' (fun s'' => k s'' caps) else None
      | "" => None
      end
  | Seq r1 r2 => rmatch len r1 s caps (fun s' caps' => rmatch len r2 s' caps' k)
  | Alt r1 r2 =>
      match rmatch len r1 s caps k with
      | Some c => Some c
      | None => rmatch len r2 s caps k
      end
  | Eps => k s caps
  | Group n r1 =>
      rmatch len r1 s caps
        (fun s' caps' => k s' ((n, take (String.length s - String.length s') s) :: caps'))
  | Bol => if Nat.eqb (String.length s) len then k s caps else None
  | Eol => match s with "" => k s caps | _ => None end
  end.

Fixpoint search_from (len : nat) (r : regex) (s : string) : option captures :=
  match rmatch len r s [] (fun _ caps => Some caps) with
  | Some caps => Some caps
  | None =>
      match s with
      | String _ s' => search_from len r s'
      | "" => None
      end
  end.

(** [s.match(r)] without the [g] flag: the captures of the leftmost match. *)
Definition regex_match (r : regex) (s : string) : option captures :=
  search_from (String.length s) r s.

(** [r.test(s)] *)
Definition regex_test (r : regex) (s : string) : bool :=
  match regex_match r s with Some _ => true | None => false end.

Fixpoint re_seq (rs : list regex) : regex :=
  match rs with
  | [] => Eps
  | [r] => r
  | r :: rs' => Seq r (re_seq rs')
  end.

Definition is_not (n : N) (c : ascii) : bool := negb (code c =? n)%N.
Definition is_lower_or_underscore (c : ascii) : bool := is_lower c || (code c =? 95)%N.

Definition PIPE : N := 124.
Definition BACKTICK : N := 96.
Definition ASTERISK : N := 42.

(** [/^[a-z][a-z_]*$/] *)
Definition re_operation_name : regex :=
  re_seq [Bol; Cls is_lower; Star is_lower_or_underscore; Eol].

(* ================================================================== *)
(** ** src/lib/agent-card.ts *)

Record OperationInfo : Type :=
  { operation : string; params : string; description : string }.

(** [/\|\s*`([^`]+)`\s*\|\s*([^|]+)\s*\|\s*([^|]+)\s*\|/] *)
Definition re_format1 : regex :=
  re_seq [Chr PIPE; Spaces; Chr BACKTICK; Group 1 (Plus (is_not BACKTICK)); Chr BACKTICK;
       Spaces; Chr PIPE; Spaces; Group 2 (Plus (is_not PIPE)); Spaces;
       Chr PIPE; Spaces; Group 3 (Plus (is_not PIPE)); Spaces; Chr PIPE].

(** [/\|\s*(?:\*\*[^*]+\*\*|)\s*\|\s*([a-z_]+)\s*\|\s*([^|]+)\s*\|/] *)
Definition re_format2 : regex :=
  re_seq [Chr PIPE; Spaces;
       Alt (re_seq [Chr ASTERISK; Chr ASTERISK; Plus (is_not ASTERISK); Chr ASTERISK; Chr ASTERISK]) Eps;
       Spaces; Chr PIPE; Spaces; Group 1 (Plus is_lower_or_underscore);
       Spaces; Chr PIPE; Spaces; Group 2 (Plus (is_not PIPE)); Spaces;
       Chr PIPE].

(** The body of the [for (const line of lines)] loop of [fetchOperations]:
    the descriptors the line adds. *)
Definition parse_table_line (line : string) : list OperationInfo :=
  if includes "---" line || includes "**Operation**" line || includes "**Category**" line
  then []
  else
    match regex_match re_format1 line with
    | Some m =>
        [{| operation := trim (capture 1 m);
            params := trim (capture 2 m);
            description := trim (capture 3 m) |}]
    | None =>
        match regex_match re_format2 line with
        | Some m =>
            if negb (capture 1 m =? "")
            then [{| operation := trim (capture 1 m);
                     params := trim (capture 2 m);
                     description := "" |}]
            else []
        | None => []
        end
    end.

(** The table parser of [fetchOperations], on the reply text. *)
Definition parse_operations (reply : string) : list OperationInfo :=
  flat_map parse_table_line (split_on (ascii_of_N 10) reply).

Definition OPERATIONS_QUERY : string :=
  "What operations are available? List all available operations with their names and parameters in table format.".

(** [data?.data?.reply ?? data?.reply ?? ""] *)
Definition reply_of_data (data : json) : completion (option json) :=
  d <- get_prop_opt (Some data) "data" ;;
  r1 <- get_prop_opt d "reply" ;;
  match r1 with
  | None | Some JNull =>
      r2 <- get_prop_opt (Some data) "reply" ;;
      match r2 with
      | None | Some JNull => Normal (Some (JStr ""))
      | _ => Normal r2
      end
  | _ => Normal r1
  end.

(** [fetchOperations(client)]: the whole body is inside [try], and the
    [catch] returns the empty list. *)
Definition fetchOperations (c : A2AClient) : list OperationInfo * A2AClient :=
  let (r, c') := sendText c OPERATIONS_QUERY None in
  (match (task <- r ;; reply_of_data (extractData task)) with
   | Normal (Some (JStr reply)) => if reply =? "" then [] else parse_operations reply
   | Normal _ => []
   | Throw _ => []
   end, c').

(** [interface AgentSkill] and [interface AgentCard] *)
Record AgentSkill : Type :=
  { skill_id : string; skill_name : string; skill_description : option string }.

Record AgentCard : Type := { card_name : string; skills : list AgentSkill }.

(** What [fetchAgentCard] reads of the response to its GET: [ok],
    [status], and the outcome of [json()]. *)
Record CardResponse : Type :=
  { card_ok : bool; card_status : Z; card_json : completion AgentCard }.

(** The global [fetch], on the URL of the card; it rejects on a network
    failure or when the 10 s abort signal fires. *)
Definition CardFetch : Type := string -> completion CardResponse.

Definition UNKNOWN_CARD : AgentCard := {| card_name := "unknown"; skills := [] |}.

(** [fetchAgentCard(baseUrl)]: the whole exchange is inside [try], and the
    [catch] returns the card without skills (the warning it prints is left
    out). *)
Definition fetchAgentCard (fetch : CardFetch) (baseUrl : string) : completion AgentCard :=
  let url := strip_trailing_slash baseUrl ++ "/.well-known/agent.json" in
  try_catch
    (res <- fetch url ;;
     if negb (card_ok res)
     then Throw (Error ("HTTP " ++ number_to_string (card_status res)))
     else card_json res)
    (fun _ => Normal UNKNOWN_CARD).

(* ================================================================== *)
(** ** src/agent.ts *)

(* ------------------------------------------------------------------ *)
(** *** The width of a text on the terminal *)

(** The characters of a text, as [for (const ch of s)] yields them: one
    string per code point, that is a lead byte with the continuation bytes
    that follow it (at most three).  [held] is the character in progress
    and [need] the number of continuation bytes it still takes. *)
Definition is_continuation (c : ascii) : bool := ((128 <=? code c) && (code c <? 192))%N.

Definition sequence_length (c : ascii) : nat :=
  if (code c <? 192)%N then 0 else if (code c <? 224)%N then 1
  else if (code c <? 240)%N then 2 else 3.

Fixpoint chars_from (held : string) (need : nat) (s : string) : list string :=
  match s with
  | "" => match need with O => [] | _ => [held] end
  | String c s' =>
      match need with
      | S need' =>
          if is_continuation c then
            match need' with
            | O => (held ++ String c "") :: chars_from "" 0 s'
            | _ => chars_from (held ++ String c "") need' s'
            end
          else
            held ::
              match sequence_length c with
              | O => String c "" :: chars_from "" 0 s'
              | n => chars_from (String c "") n s'
              end
      | O =>
          match sequence_length c with
          | O => String c "" :: chars_from "" 0 s'
          | n => chars_from (String c "") n s'
          end
      end
  end.

Definition chars (s : string) : list string := chars_from "" 0 s.

(** [ch.codePointAt(0) ?? 0] on one character. *)
Definition codePointAt0 (ch : string) : N :=
  match ch with
  | "" => 0
  | String c rest =>
      let lead :=
        if (code c <? 192)%N then code c
        else if (code c <? 224)%N then code c - 192
        else if (code c <? 240)%N then code c - 224
        else code c - 240 in
      (fix go (acc : N) (r : string) : N :=
         match r with
         | "" => acc
         | String d r' => go (acc * 64 + (code d - 128)) r'
         end) lead rest
  end%N.

(** [s.replace(/\x1b\[[0-9;]*m/g, "")]: the text without its colour
    sequences.  The scan holds the text of a match in progress and gives
    it back when the match fails. *)
Inductive ansi_state : Type :=
| Plain
| Escape                       (* after ESC *)
| Parameters (held : string).  (* after ESC [ and the parameter bytes [held] *)

Definition ESC : string := String (ascii_of_N 27) "".

Definition held_text (st : ansi_state) : string :=
  match st with
  | Plain => ""
  | Escape => ESC
  | Parameters held => ESC ++ "[" ++ held
  end.

Fixpoint strip_ansi_from (st : ansi_state) (s : string) : string :=
  match s with
  | "" => held_text st
  | String c s' =>
      let restart :=
        if (code c =? 27)%N then strip_ansi_from Escape s'
        else String c (strip_ansi_from Plain s') in
      match st with
      | Plain => restart
      | Escape =>
          if (code c =? 91)%N then strip_ansi_from (Parameters "") s'
          else held_text st ++ restart
      | Parameters held =>
          if is_digit c || (code c =? 59)%N then
            strip_ansi_from (Parameters (held ++ String c "")) s'
          else if (code c =? 109)%N then strip_ansi_from Plain s'
          else held_text st ++ restart
      end
  end.

Definition strip_ansi (s : string) : string := strip_ansi_from Plain s.

(** The double-width ranges of [vw]. *)
Definition vw_wide (cp : N) : bool :=
  (((4352 <=? cp) && (cp <=? 4607)) || ((11904 <=? cp) && (cp <=? 40959))
   || ((44032 <=? cp) && (cp <=? 55203)) || ((65281 <=? cp) && (cp <=? 65376)))%N.

(** One step of the loop of [vw]. *)
Definition width_step (w : Z) (ch : string) : Z :=
  if vw_wide (codePointAt0 ch) then w + 2 else w + 1.

(** [vw(s)]: the width of [s] on the terminal. *)
Definition vw (s : string) : Z := fold_left width_step (chars (strip_ansi s)) 0.

(** The loop of [wrapText]: the lines pushed so far, and [buf] with its
    width [bufVW]. *)
Fixpoint wrap_words (maxVW : Z) (words : list string) (lines : list string)
    (buf : string) (bufVW : Z) : list string * string :=
  match words with
  | [] => (lines, buf)
  | word :: rest =>
      let ww := vw word in
      if negb (buf =? "") && (maxVW <? bufVW + 1 + ww)%Z
      then wrap_words maxVW rest (lines ++ [buf])%list word ww
      else
        let (buf1, bufVW1) := if negb (buf =? "") then (buf ++ " ", bufVW + 1) else (buf, bufVW) in
        wrap_words maxVW rest lines (buf1 ++ word) (bufVW1 + ww)
  end.

(** [wrapText(text, maxVW)] *)
Definition wrapText (text : string) (maxVW : Z) : list string :=
  let (lines, buf) := wrap_words maxVW (split_on (ascii_of_N 32) text) [] "" 0 in
  let lines := if negb (buf =? "") then (lines ++ [buf])%list else lines in
  match lines with
  | [] => [""]
  | _ => lines
  end.

(* ------------------------------------------------------------------ *)
(** *** The operation parser, [executeCall] and [runTurn] *)

(** [task.artifacts?.[0]?.parts?.find((p) => p.kind === "text")?.text] *)
Definition rawText_of (task : A2ATask) : option string :=
  match artifacts task with
  | Some (first :: _) => option_map text (find_text_part (parts first))
  | _ => None
  end.

(** [a || b] *)
Definition js_or (a b : option json) : option json := if truthy a then a else b.

(** The reply [fetchOperationsWithDisplay] extracts from the task. *)
Definition display_reply (task : A2ATask) : completion (option json) :=
  let data := extractData task in
  match rawText_of task with
  | Some rawText =>
      if rawText =? "" then Normal (Some (JStr ""))
      else
        try_catch
          (parsed <- JSON_parse_c rawText ;;
           d <- get_prop_opt (Some parsed) "data" ;;
           r1 <- get_prop_opt d "reply" ;;
           r2 <- get_prop_opt (Some parsed) "reply" ;;
           Normal (js_or (js_or r1 r2) (Some (JStr ""))))
          (fun _ =>
             d <- get_prop_opt (Some data) "data" ;;
             r <- get_prop_opt d "reply" ;;
             Normal (match r with None | Some JNull => Some (JStr "") | _ => r end))
  | None => Normal (Some (JStr ""))
  end.

(** The body of the [for (const line of lines)] loop of
    [fetchOperationsWithDisplay]: the descriptors the line adds. *)
Definition display_table_line (line : string) : list OperationInfo :=
  if includes "---" line || includes "Operation" line || includes "**" line then []
  else if negb (includes "|" line) then []
  else
    let cells :=
      filter (fun c => negb (String.length c =? 0)%nat)
             (map trim (split_on (ascii_of_N 124) line)) in
    match cells with
    | c0 :: c1 :: rest =>
        let operation := remove_backticks c0 in
        let params := remove_backticks c1 in
        let description := match rest with c2 :: _ => c2 | [] => "" end in
        if regex_test re_operation_name operation
        then [{| operation := operation;
                 params := if (params =? "{}") || (params =? "-") then "" else params;
                 description := description |}]
        else []
    | _ => []
    end.

(** [fetchOperationsWithDisplay(client)].  [sendText] is not inside a
    [try]; [reply.split] throws when the reply is not a string. *)
Definition fetchOperationsWithDisplay (c : A2AClient)
  : completion (list OperationInfo) * A2AClient :=
  let (r, c') := sendText c OPERATIONS_QUERY None in
  (task <- r ;;
   reply <- display_reply task ;;
   match reply with
   | Some (JStr s) => Normal (flat_map display_table_line (split_on (ascii_of_N 10) s))
   | _ => Throw (TypeError "reply.split is not a function")
   end, c').

(** [key in v]: a TypeError unless [v] is an object (arrays included).  The
    message is V8's. *)
Definition js_in (key : string) (v : option json) : completion bool :=
  match v with
  | Some (JObj o) => Normal (match lookup key o with Some _ => true | None => false end)
  | Some (JArr _) => Normal false
  | _ =>
      Throw (TypeError ("Cannot use 'in' operator to search for '" ++ key ++ "' in "
                          ++ primitive_text v))
  end.

(** [a ?? b ?? ...] over the members [keys] of [it]: the first that is
    neither [undefined] nor [null]. *)
Fixpoint first_non_nullish (it : json) (keys : list string) : option json :=
  match keys with
  | [] => None
  | k :: keys' =>
      match field it k with
      | None | Some JNull => first_non_nullish it keys'
      | Some v => Some v
      end
  end.

(** The label and the description of one item of a list, in
    [formatResponse]: [String(it.type ?? it.name ?? ... ?? Object.keys(it)[0] ?? "")]
    and [String(it.description ?? it.status ?? ... ?? "")].  A primitive
    item is printed as it is. *)
Definition format_item (item : json) : completion unit :=
  match item with
  | JArr _ | JObj _ =>
      _ <- match first_non_nullish item ["type"; "name"; "chart"; "id"; "namespace"] with
           | Some v => js_String v
           | None => Normal ""                 (* the first key, or the empty string *)
           end ;;
      _ <- match first_non_nullish item ["description"; "status"; "workloadType"; "phase"] with
           | Some v => js_String v
           | None => Normal ""
           end ;;
      Normal tt
  | _ => Normal tt
  end.

Fixpoint format_items (items : list json) : completion unit :=
  match items with
  | [] => Normal tt
  | item :: items' => _ <- format_item item ;; format_items items'
  end.

(** [formatResponse(raw)], as far as its control flow can throw: the lines
    it returns are display text.  The test of ["data" in obj] throws on a
    primitive; a list converts the labels of its first nine items with
    [String]; every other branch only formats primitives. *)
Definition formatResponse (raw : option json) : completion unit :=
  match raw with
  | None | Some JNull => Normal tt
  | Some obj =>
      _ <- get_prop raw "message" ;;
      has_data <- js_in "data" raw ;;
      let inner :=
        match field obj "data" with
        | Some d => if has_data then d else obj
        | None => obj
        end in
      match inner with
      | JArr items => format_items (firstn 9 items)
      | _ => Normal tt
      end
  end.

(** [printCallBottom(raw, ms, status, willyMsg, fullTask)], as far as its
    control flow can throw: the rendering of [fullTask] and of [willyMsg]
    only formats strings; the structured data goes through
    [formatResponse] after the [message] key is stripped from an object. *)
Definition printCallBottom (raw : option json) : completion unit :=
  let dataRaw :=
    match raw with
    | Some (JObj o) => Some (JObj (filter (fun kv => negb (fst kv =? "message")) o))
    | _ => raw
    end in
  formatResponse dataRaw.

(** [e instanceof Error ? e.message : String(e)] *)
Definition error_message_of (e : exn) : string :=
  match e with
  | ErrorObj _ message => message
  | Thrown text => text
  end.

(** The input of an [a2a_call] tool call, as [runTurn] casts it. *)
Record A2ACallInput : Type :=
  { reflection : option string;
    narration : string;
    reason : string;
    call_operation : string;
    call_params : option json }.

(** [params ?? {}] *)
Definition params_or_empty (input : A2ACallInput) : json :=
  match call_params input with
  | None | Some JNull => JObj []
  | Some p => p
  end.

(** The payload of a successful call. *)
Definition success_payload (task : A2ATask) (data : json) : json :=
  JObj ([("status", JStr (state (status task))); ("data", data)]
        ++ match metadata task with
           | Some {| lowBalanceWarning := Some w |} => [("warning", JStr (warning_message w))]
           | _ => []
           end)%list.

Definition error_payload (errMsg : string) : json := JObj [("error", JStr errMsg)].

(** [executeCall(reflection, narration, reason, operation, params)]: the
    text of the tool result and the client after the call. *)
Definition executeCall (operation : string) (params : json) (c : A2AClient)
  : completion string * A2AClient :=
  let (r, c') := send c operation (Some params) None in
  (try_catch
     (task <- r ;;
      let data := extractData task in
      _ <- printCallBottom (Some data) ;;
      Normal (JSON_stringify_pretty (success_payload task data)))
     (fun e =>
        let errMsg := error_message_of e in
        _ <- printCallBottom (Some (error_payload errMsg)) ;;
        Normal (JSON_stringify (error_payload errMsg))),
   c').

(** A tool call of the model, by the name of its tool. *)
Inductive ToolCall : Type :=
| DeclarePlan (title : string) (steps : list string)       (* name "declare_plan" *)
| A2ACall (input : A2ACallInput)                           (* name "a2a_call" *)
| OtherTool (name : string) (input : json).                (* any other name *)

Inductive ContentBlock : Type :=
| TextBlock (block_text : string)
| ToolUseBlock (id : string) (call : ToolCall)
| OtherBlock (type : string).

Record ToolResultBlockParam : Type :=
  { tool_use_id : string; content : string }.

Inductive MessageParam : Type :=
| UserText (user_content : string)
| AssistantBlocks (assistant_content : list ContentBlock)
| UserToolResults (results : list ToolResultBlockParam).

(** The response of [anthropic.messages.create]. *)
Record Message : Type :=
  { message_content : list ContentBlock; stop_reason : string }.

(** The Inference Provider: the response to a conversation, or a failure. *)
Definition Provider : Type := list MessageParam -> completion Message.

Definition PLAN_ACK : string := "Plan acknowledged. Proceed with execution.".

(** The [for (const block of response.content)] loop of [runTurn];
    [results] is the array the loop pushes to. *)
Fixpoint dispatch (blocks : list ContentBlock) (results : list ToolResultBlockParam)
    (c : A2AClient) : completion (list ToolResultBlockParam) * A2AClient :=
  match blocks with
  | [] => (Normal results, c)
  | block :: rest =>
      match block with
      | ToolUseBlock id (DeclarePlan _ _) =>
          dispatch rest (results ++ [{| tool_use_id := id; content := PLAN_ACK |}])%list c
      | ToolUseBlock id (A2ACall input) =>
          match executeCall (call_operation input) (params_or_empty input) c with
          | (Normal result, c') =>
              dispatch rest (results ++ [{| tool_use_id := id; content := result |}])%list c'
          | (Throw e, c') => (Throw e, c')
          end
      | _ => dispatch rest results c
      end
  end.

(** The state [runTurn] works on: the client, the [messages] array it
    pushes to, and (for the statements below) the log of the conversations
    sent to the provider, one entry per inference call. *)
Record World : Type :=
  { a2aClient : A2AClient;
    messages : list MessageParam;
    inferences : list (list MessageParam) }.

Inductive Outcome : Type :=
| Returned
| Threw (e : exn)
| OutOfFuel.

Section Loop.

Variable anthropic_messages_create : Provider.

(** [runTurn(messages, tools, systemPrompt)]; [fuel] bounds the number of
    iterations of its [while (true)]. *)
Fixpoint runTurn (fuel : nat) (w : World) : Outcome * World :=
  match fuel with
  | O => (OutOfFuel, w)
  | S fuel' =>
      let log := (inferences w ++ [messages w])%list in
      match anthropic_messages_create (messages w) with
      | Throw e =>
          (Threw e, {| a2aClient := a2aClient w; messages := messages w; inferences := log |})
      | Normal response =>
          let msgs := (messages w ++ [AssistantBlocks (message_content response)])%list in
          if stop_reason response =? "end_turn" then
            (Returned, {| a2aClient := a2aClient w; messages := msgs; inferences := log |})
          else if stop_reason response =? "tool_use" then
            match dispatch (message_content response) [] (a2aClient w) with
            | (Normal results, c') =>
                runTurn fuel'
                  {| a2aClient := c';
                     messages := (msgs ++ [UserToolResults results])%list;
                     inferences := log |}
            | (Throw e, c') =>
                (Threw e, {| a2aClient := c'; messages := msgs; inferences := log |})
            end
          else
            runTurn fuel' {| a2aClient := a2aClient w; messages := msgs; inferences := log |}
      end
  end.

End Loop.

(** [const SCENARIOS] *)
Record Scenario : Type := { title : string; prompt : string }.

Definition SCENARIOS : list Scenario :=
  [{| title := "자연스러운 배포 플로우";
      prompt := "nginx 간단하게 하나 띄워줘" |};
   {| title := "이벤트 대비 스케일 아웃";
      prompt := "다음 주에 대규모 프로모션 이벤트가 있어서 트래픽이 많이 몰릴 것 같아. 현재 배포된 앱을 스케일 아웃해줘. 완료 후 배포 상태와 리소스 현황도 같이 확인해줘." |}].

Section Scenarios.

Variable anthropic_messages_create : Provider.

(** [runScenarios(messages, tools, systemPrompt)], over any list of
    scenarios: each prompt is pushed as a user message and [runTurn] runs
    on the conversation so far; a run that throws ends the function.
    [fuel] bounds the iterations of each run. *)
Fixpoint runScenarios (fuel : nat) (scenarios : list Scenario) (w : World) : Outcome * World :=
  match scenarios with
  | [] => (Returned, w)
  | s :: rest =>
      let w1 := {| a2aClient := a2aClient w;
                   messages := (messages w ++ [UserText (prompt s)])%list;
                   inferences := inferences w |} in
      match runTurn anthropic_messages_create fuel w1 with
      | (Returned, w2) => runScenarios fuel rest w2
      | (outcome, w2) => (outcome, w2)
      end
  end.

End Scenarios.

(* ================================================================== *)
(** ** src/cli.ts *)

(** How a run of the script ends: [process.exit(code)], the end of the
    module, or an exception nothing catches. *)
Inductive CliEnd : Type :=
| Exit (exit_code : Z)
| Done
| Uncaught (e : exn).

(** What a run prints with [console.log] and with [console.error], and how
    it ends. *)
Record CliRun : Type :=
  { stdout : list string; stderr : list string; cli_end : CliEnd }.

(** [s.length]: the UTF-16 code units of the text, one per character
    below U+10000 and two above. *)
Fixpoint js_length (s : string) : Z :=
  match s with
  | "" => 0
  | String c s' =>
      (if (code c <? 128)%N then 1          (* ASCII *)
       else if (code c <? 192)%N then 0     (* a continuation byte *)
       else if (code c <? 240)%N then 1     (* the lead byte of 2 or 3 bytes *)
       else 2)                              (* the lead byte of 4 bytes *)
      + js_length s'
  end.

Fixpoint spaces (n : nat) : string :=
  match n with
  | O => ""
  | S n' => String (ascii_of_N 32) (spaces n')
  end.

(** [s.padEnd(n)] *)
Definition padEnd (s : string) (n : Z) : string := s ++ spaces (Z.to_nat (n - js_length s)).

(** The help text: the usage lines, then one line per operation. *)
Definition cli_help (operations : list OperationInfo) : list string :=
  let maxOpLen := fold_right Z.max 0 (map (fun op => js_length (operation op)) operations) in
  List.app
    ["Usage: npx tsx src/cli.ts <operation> [JSON params]";
     LF ++ "Fetching available operations from server..." ++ LF;
     "Operations:"]
    (map (fun op =>
            let opPadded := padEnd (operation op) (maxOpLen + 2) in
            let paramsStr := if negb (params op =? "") then "[" ++ params op ++ "]" else "" in
            "  " ++ opPadded ++ description op ++ " " ++ paramsStr) operations).

(** The run of the script on the arguments after the script name:
    [const [operation, paramsJson] = process.argv.slice(2)].
    [JSON.parse(paramsJson)] stands outside the [try]. *)
Definition cli (args : list string) (client : A2AClient) : CliRun * A2AClient :=
  let help :=
    let (operations, client') := fetchOperations client in
    ({| stdout := cli_help operations; stderr := []; cli_end := Exit 0 |}, client') in
  match nth_error args 0 with
  | None => help
  | Some operation =>
      if (operation =? "") || (operation =? "--help") then help
      else
        let parsed :=
          match nth_error args 1 with
          | None => Normal (JObj [])
          | Some paramsJson =>
              if paramsJson =? "" then Normal (JObj []) else JSON_parse_c paramsJson
          end in
        match parsed with
        | Throw e => ({| stdout := []; stderr := []; cli_end := Uncaught e |}, client)
        | Normal params =>
            match send client operation (Some params) None with
            | (Normal task, client') =>
                ({| stdout :=
                      [JSON_stringify_pretty
                         (JObj [("status", JStr (state (status task)));
                                ("data", extractData task)])];
                    stderr :=
                      match metadata task with
                      | Some {| lowBalanceWarning := Some w |} =>
                          [LF ++ "⚠ " ++ warning_message w]
                      | _ => []
                      end;
                    cli_end := Done |}, client')
            | (Throw err, client') =>
                ({| stdout := []; stderr := ["Error: " ++ error_message_of err];
                    cli_end := Exit 1 |}, client')
            end
        end
  end.

(* ================================================================== *)
(** ** src/lib/util.ts *)

Section ResolvePath.

(** [resolvePath] takes any value and reads properties of whatever it
    meets, prototypes included: the values are left abstract.  [is_object v]
    is the test the loop makes, [!(v == null || typeof v !== "object")], and
    [get v key] is [v[key]] on a value that passed it. *)
Variable value : Type.
Variable undefined : value.
Variable is_object : value -> bool.
Variable get : value -> string -> value.

(** The [for (const key of path.split("."))] loop. *)
Fixpoint resolve_keys (current : value) (keys : list string) : value :=
  match keys with
  | [] => current
  | key :: rest =>
      if negb (is_object current) then undefined
      else resolve_keys (get current key) rest
  end.

(** [resolvePath(obj, path)] *)
Definition resolvePath (obj : value) (path : string) : value :=
  resolve_keys obj (split_on (ascii_of_N 46) path).

End ResolvePath.

(* ================================================================== *)
(** ** src/lib/animation.ts *)

Module Animation.

Local Open Scope Z_scope.
Local Open Scope list_scope.

(** In this module a string is the list of its code points: the width
    functions read a string through [for (const c of s)], [split] and
    concatenation only. *)
Definition text : Type := list N.

Definition SPACE : N := 32.
Definition ELLIPSIS : N := 8230.

(** [LAYOUT.contentWidth] *)
Definition CW : Z := 48.

Definition between (lo hi cp : N) : bool := ((lo <=? cp) && (cp <=? hi))%N.

(** [charWidth(ch)], on the code point [ch.codePointAt(0)]. *)
Definition charWidth (cp : N) : Z :=
  if between 4352 4447 cp || between 11904 12350 cp || between 12352 12447 cp
     || between 12448 12543 cp || between 12592 12687 cp || between 12800 40959 cp
     || between 44032 55215 cp || between 63744 64255 cp || between 65072 65135 cp
     || between 65281 65376 cp || between 65504 65510 cp || between 131072 196605 cp
  then 2 else 1.

(** [strWidth(s)] *)
Definition strWidth (s : text) : Z := fold_left (fun w c => w + charWidth c) s 0.

(** The truncation loop of [padW]: the characters kept and their width. *)
Fixpoint truncate (width : Z) (s : text) (result : text) (w : Z) : text * Z :=
  match s with
  | [] => (result, w)
  | c :: s' =>
      let cw := charWidth c in
      if width - 1 <? w + cw then (result, w)
      else truncate width s' (result ++ [c]) (w + cw)
  end.

(** [padW(s, width)] *)
Definition padW (s : text) (width : Z) : text :=
  let sw := strWidth s in
  if sw <=? width then s ++ repeat SPACE (Z.to_nat (width - sw))
  else
    let (result, w) := truncate width s [] 0 in
    result ++ [ELLIPSIS] ++ repeat SPACE (Z.to_nat (Z.max (width - w - 1) 0)).

(** The class \s of regular expressions. *)
Definition is_white_space (cp : N) : bool :=
  (between 9 13 cp || (cp =? 32) || (cp =? 160) || (cp =? 5760) || between 8192 8202 cp
   || (cp =? 8232) || (cp =? 8233) || (cp =? 8239) || (cp =? 8287) || (cp =? 12288)
   || (cp =? 65279))%N.

(** [raw.split(/(\s+)/)]: the runs of [raw], white space included, a
    word first and last (an empty one where [raw] starts or ends with
    white space). *)
Fixpoint tokens (s : text) (current : text) (in_space : bool) : list text :=
  match s with
  | [] => if in_space then [current; []] else [current]
  | c :: s' =>
      if Bool.eqb (is_white_space c) in_space then tokens s' (current ++ [c]) in_space
      else current :: tokens s' [c] (negb in_space)
  end.

(** [text.split("\n")] *)
Fixpoint split_lines (s : text) : list text :=
  match s with
  | [] => [[]]
  | c :: s' =>
      if (c =? 10)%N then [] :: split_lines s'
      else
        match split_lines s' with
        | line :: lines => (c :: line) :: lines
        | [] => [[c]]
        end
  end.

Definition nonempty (s : text) : bool := match s with [] => false | _ => true end.

(** The inner loop of [wrapText]. *)
Fixpoint wrap_tokens (maxWidth : Z) (words : list text) (lines : list text)
    (current : text) (currentWidth : Z) : list text * text :=
  match words with
  | [] => (lines, current)
  | word :: rest =>
      let ww := strWidth word in
      if (maxWidth <? currentWidth + ww) && nonempty current
      then wrap_tokens maxWidth rest (lines ++ [current]) word ww
      else wrap_tokens maxWidth rest lines (current ++ word) (currentWidth + ww)
  end.

(** The lines one line of the text gives. *)
Definition wrap_line (maxWidth : Z) (raw : text) : list text :=
  if strWidth raw <=? maxWidth then [raw]
  else
    let (lines, current) := wrap_tokens maxWidth (tokens raw [] false) [] [] 0 in
    if nonempty current then lines ++ [current] else lines.

(** [wrapText(text, maxWidth)] *)
Definition wrapText (s : text) (maxWidth : Z) : list text :=
  flat_map (wrap_line maxWidth) (split_lines s).

(** The rows [deployBox(lines)] prints between its borders: a line wider
    than the box is wrapped, and every row is [padW(wl, CW)]. *)
Definition deployBox_rows (lines : list text) : list text :=
  flat_map
    (fun line =>
       map (fun wl => padW wl CW) (if CW <? strWidth line then wrapText line CW else [line]))
    lines.

(** [unwrap(d)] *)
Definition unwrap (d : option json) : json :=
  let inner := match d with Some (JObj o) => lookup "data" o | _ => None end in
  match inner with
  | Some (JObj _ as v) | Some (JArr _ as v) => v
  | _ => match d with None | Some JNull => JObj [] | Some outer => outer end
  end.

(** [unwrapArray(d)] *)
Definition unwrapArray (d : option json) : json :=
  let inner := match d with Some (JObj o) => lookup "data" o | _ => None end in
  match inner with
  | Some (JArr items) => JArr items
  | _ => match d with Some (JArr items) => JArr items | _ => JArr [] end
  end.

(** A run: white space only, or no white space at all. *)
Definition is_run (s : text) : bool :=
  forallb is_white_space s || forallb (fun c => negb (is_white_space c)) s.

End Animation.

(* ================================================================== *)
(** ** Definitions of the statements *)

Definition subfield (v : json) (k1 k2 : string) : option json :=
  match field v k1 with
  | Some d => field d k2
  | None => None
  end.







(** A completed task whose first artifact has [text] as its only part. *)
Definition task_with_text (text : string) : A2ATask :=
  {| task_id := "task-1";
     contextId := "ctx-1";
     status := {| state := "completed"; timestamp := "2026-01-01T00:00:00Z" |};
     artifacts :=
       Some [{| artifactId := "artifact-1"; name := "result";
                parts := [{| kind := "text"; text := text |}] |}];
     history := [];
     metadata := None |}.

(** A transport whose every exchange is the HTTP 200 response carrying
    [response]. *)
Definition fetch_always (response : JsonRpcResponse) : Fetch :=
  fun _ _ =>
    Normal {| ok := true; http_status := 200; body_text := Normal "";
              body_json := Normal response |}.

Definition response_with (task : A2ATask) : JsonRpcResponse :=
  {| jsonrpc := "2.0"; result := Some task; error := None; response_id := JNum 1 |}.



(** White space only. *)
Fixpoint all_ws (s : string) : bool :=
  match s with
  | "" => true
  | String c s' => is_json_ws c && all_ws s'
  end.

(** What may follow a number in a text: anything but a digit. *)
Definition number_stop (rest : string) : Prop :=
  match rest with
  | String c _ => is_digit c = false
  | "" => True
  end.

(** The first character of a serialized number: a digit or a minus sign. *)
Definition number_head (c : ascii) : bool := is_digit c || (code c =? 45)%N.

(** The first character of a serialized value: not white space, and none
    of the closing brackets. *)
Definition value_head (c : ascii) : bool :=
  negb (is_json_ws c) && negb (code c =? 93)%N && negb (code c =? 125)%N.

(** The text of one member of an object, [sp] being what follows the colon. *)
Definition member_text (gap ind sp : string) (kv : string * json) : string :=
  quote (fst kv) ++ ":" ++ sp ++ serialize gap ind (snd kv).

(** [v], serialized with any white-space gap and indent and followed by
    any text a number may stop at, parses back to [normalize v] with enough
    fuel, and the length of its text is enough. *)
Definition parses (v : json) : Prop :=
  forall gap ind fuel rest,
    all_ws gap = true -> all_ws ind = true ->
    (String.length (serialize gap ind v) <= fuel)%nat -> number_stop rest ->
    parse_value fuel (serialize gap ind v ++ rest) = Some (normalize v, rest).

(** A JSON text built without quoting the quotes by hand. *)
Definition q (s : string) : string := DQ ++ s ++ DQ.


(** A 2xx response with neither [result] nor [error]. *)
Definition empty_response : JsonRpcResponse :=
  {| jsonrpc := "2.0"; result := None; error := None; response_id := JNum 1 |}.

(** The scenario of the specification: the provider first declares a plan
    and asks for [namespace_create], then gives its final answer. *)
Definition demo_input : A2ACallInput :=
  {| reflection := None;
     narration := "create the namespace";
     reason := "the user asked for it";
     call_operation := "namespace_create";
     call_params := Some (JObj [("name", JStr "demo"); ("allocatedCores", JNum 2)]) |}.

Definition demo_tool_turn : Message :=
  {| message_content :=
       [ToolUseBlock "toolu_1" (DeclarePlan "plan" ["create the namespace"]);
        ToolUseBlock "toolu_2" (A2ACall demo_input)];
     stop_reason := "tool_use" |}.

Definition demo_final_turn : Message :=
  {| message_content := [TextBlock "done"]; stop_reason := "end_turn" |}.

Definition demo_provider : Provider :=
  fun history =>
    match history with
    | [_] => Normal demo_tool_turn
    | _ => Normal demo_final_turn
    end.

(** A transport that answers every request with HTTP 500. *)
Definition fetch_500 : Fetch :=
  fun _ _ =>
    Normal {| ok := false; http_status := 500; body_text := Normal "Internal Server Error";
              body_json := Throw (SyntaxError "Unexpected token in JSON") |}.

Definition demo_world (transport : Fetch) : World :=
  {| a2aClient := new_A2AClient "http://localhost:3000" transport;
     messages := [UserText "create a namespace named demo with 2 cores"];
     inferences := [] |}.

Definition after_one_call (transport : Fetch) : A2AClient :=
  {| baseUrl := "http://localhost:3000"; fetch := transport; rpcId := 1 |}.

Definition final_only_provider : Provider := fun _ => Normal demo_final_turn.

(* ================================================================== *)
(** ** The operation parsers *)

Fixpoint all_chars (p : ascii -> bool) (s : string) : bool :=
  match s with
  | "" => true
  | String c s' => p c && all_chars p s'
  end.

(** The name pattern as a predicate on the characters: a lower-case letter,
    then lower-case letters and underscores. *)
Definition valid_operation_name (s : string) : bool :=
  match s with
  | "" => false
  | String c s' => is_lower c && all_chars is_lower_or_underscore s'
  end.

(** [k] may stand before [k'] in the property order of an object. *)
Definition precedes (k k' : string) : Prop :=
  k <> k' /\
  match array_index k, array_index k' with
  | Some n, Some n' => (n < n')%N
  | Some _, None => True
  | None, Some _ => False
  | None, None => True
  end.

(** The members of an object are in property order. *)
Fixpoint ordered (o : list (string * json)) : Prop :=
  match o with
  | [] => True
  | kv :: o' => Forall (fun kv' => precedes (fst kv) (fst kv')) o' /\ ordered o'
  end.

(* ================================================================== *)
(** ** Definitions of the further statements *)

(** The ids of the tool calls the loop of [runTurn] answers: those of
    [declare_plan] and of [a2a_call]. *)
Fixpoint answered_ids (blocks : list ContentBlock) : list string :=
  match blocks with
  | [] => []
  | ToolUseBlock id (DeclarePlan _ _) :: rest => id :: answered_ids rest
  | ToolUseBlock id (A2ACall _) :: rest => id :: answered_ids rest
  | _ :: rest => answered_ids rest
  end.

(** The number of [a2a_call] blocks. *)
Fixpoint count_calls (blocks : list ContentBlock) : Z :=
  match blocks with
  | [] => 0
  | ToolUseBlock _ (A2ACall _) :: rest => 1 + count_calls rest
  | _ :: rest => count_calls rest
  end.

Definition is_user_text (m : MessageParam) : bool :=
  match m with UserText _ => true | _ => false end.

(** A provider whose every response was cut at the token limit. *)
Definition truncated_turn : Message :=
  {| message_content := [TextBlock "The namespace"]; stop_reason := "max_tokens" |}.

Definition truncating_provider : Provider := fun _ => Normal truncated_turn.

(** A task with a data part before its text parts, and a second artifact. *)
Definition two_artifact_task : A2ATask :=
  {| task_id := "task-2";
     contextId := "ctx-1";
     status := {| state := "failed"; timestamp := "2026-01-01T00:00:00Z" |};
     artifacts :=
       Some [{| artifactId := "artifact-1"; name := "result";
                parts := [{| kind := "data"; text := "ignored" |};
                          {| kind := "text"; text := "first" |};
                          {| kind := "text"; text := "second" |}] |};
             {| artifactId := "artifact-2"; name := "more";
                parts := [{| kind := "text"; text := "third" |}] |}];
     history := [{| history_state := "working"; history_timestamp := "2026-01-01T00:00:00Z";
                    history_message := None |}];
     metadata := None |}.

(** [p] does not hold of the first character of [r], if there is one: a
    greedy run of [p] stops at [r]. *)
Definition stops (p : ascii -> bool) (r : string) : Prop :=
  match r with String c _ => p c = false | "" => True end.

(** A cell of a table row: a text that is not empty, has no pipe, and has
    no white space at either end. *)
Definition is_cell (s : string) : bool :=
  negb (s =? "") && (trim s =? s) && all_chars (is_not PIPE) s.

(** A row of the first format, [| `operation` | params | description |],
    and a table of such rows under a header and a rule. *)
Definition format1_row (op : OperationInfo) : string :=
  "| `" ++ operation op ++ "` | " ++ params op ++ " | " ++ description op ++ " |".

Definition TABLE_HEADER : string := "| **Operation** | **Parameters** | **Description** |".
Definition TABLE_RULE : string := "|---|---|---|".

Definition format1_table (ops : list OperationInfo) : string :=
  join LF (TABLE_HEADER :: TABLE_RULE :: map format1_row ops).

(** The descriptors a row of the first format can carry: a name without a
    backtick and without white space at either end, two cells, and a row
    that is one line and holds none of the texts that mark a line to skip. *)
Definition format1_ok (op : OperationInfo) : bool :=
  let row := format1_row op in
  negb (operation op =? "") && (trim (operation op) =? operation op)
  && all_chars (is_not BACKTICK) (operation op)
  && is_cell (params op) && is_cell (description op)
  && all_chars (is_not 10) row
  && negb (includes "---" row)
  && negb (includes "**Operation**" row)
  && negb (includes "**Category**" row).

Definition demo_operations : list OperationInfo :=
  [{| operation := "namespace_create"; params := "name, allocatedCores";
      description := "Create a namespace" |};
   {| operation := "deploy_status"; params := "deploymentId";
      description := "Show the state of a deployment" |}].

(** The words of a text that are not empty. *)
Definition nonempty_words (s : string) : list string :=
  filter (fun w => negb (w =? "")) (split_on (ascii_of_N 32) s).

Definition no_space (s : string) : bool :=
  all_chars (fun c => negb (Ascii.eqb c (ascii_of_N 32))) s.

(** The own members of JSON objects and the elements of JSON arrays: an
    instance of the values [resolvePath] walks. *)
Definition json_is_object (v : option json) : bool :=
  match v with
  | Some (JObj _) | Some (JArr _) => true
  | _ => false
  end.

Definition json_member (v : option json) (key : string) : option json :=
  match v with
  | Some (JObj o) => lookup key o
  | Some (JArr items) =>
      match array_index key with
      | Some n => nth_error items (N.to_nat n)
      | None => None
      end
  | _ => None
  end.

(* ================================================================== *)
(** ** Number literals, white space and [params] objects in the statements *)

(** What may follow a number literal that has neither fraction nor
    exponent: anything but a point and the letter of an exponent. *)
Definition literal_end (rest : string) : Prop :=
  match rest with
  | String c _ => code c <> 46%N /\ code c <> 101%N /\ code c <> 69%N
  | "" => True
  end.

(** A text that is empty or starts with an ASCII character. *)
Definition plain_head (t : string) : Prop :=
  match t with
  | String c _ => (code c < 128)%N
  | "" => True
  end.





(* ================================================================== *)
(** * Proofs *)



(* ================================================================== *)
(** ** Facts about strings *)

Lemma append_assoc (a b c : string) : (a ++ b) ++ c = a ++ (b ++ c).
Proof. induction a as [|x a IH]; simpl; [reflexivity | now rewrite IH]. Qed.

Lemma append_nil_r (a : string) : a ++ "" = a.
Proof. induction a as [|x a IH]; simpl; [reflexivity | now rewrite IH]. Qed.

Lemma length_append (a b : string) :
  String.length (a ++ b) = (String.length a + String.length b)%nat.
Proof. induction a as [|x a IH]; simpl; [reflexivity | now rewrite IH]. Qed.

(** ** JSON.parse after JSON.stringify *)

Lemma all_ws_append a b : all_ws a = true -> all_ws b = true -> all_ws (a ++ b) = true.
Proof.
  induction a as [|x a IH]; simpl; intros Ha Hb; [exact Hb|].
  apply andb_true_iff in Ha as [Hx Ha]. rewrite Hx. simpl. now apply IH.
Qed.

Lemma skip_ws_append w s : all_ws w = true -> skip_ws (w ++ s) = skip_ws s.
Proof.
  induction w as [|x w IH]; simpl; intros H; [reflexivity|].
  apply andb_true_iff in H as [Hx Hw]. rewrite Hx. now apply IH.
Qed.

Lemma quote_char_parse (c : ascii) (r : string) :
  parse_string_body (quote_char c ++ r) = prepend (String c "") (parse_string_body r).
Proof.
  destruct c as [[|] [|] [|] [|] [|] [|] [|] [|]]; reflexivity.
Qed.

Lemma parse_string_body_quote (s r : string) :
  parse_string_body (quote_body s ++ DQ ++ r) = Some (s, r).
Proof.
  induction s as [|c s IH].
  - reflexivity.
  - change (quote_body (String c s)) with (quote_char c ++ quote_body s).
    rewrite append_assoc, quote_char_parse, IH. reflexivity.
Qed.

(** *** Numbers *)

Lemma take_digits_uint (d : Decimal.uint) (rest : string) :
  number_stop rest ->
  take_digits (NilEmpty.string_of_uint d ++ rest) = (NilEmpty.string_of_uint d, rest).
Proof.
  intros Hstop.
  induction d; simpl; try (rewrite IHd; reflexivity).
  destruct rest as [|c rest]; simpl; [reflexivity|].
  simpl in Hstop. now rewrite Hstop.
Qed.

Lemma to_uint_normal (p : positive) : Decimal.unorm (Pos.to_uint p) = Pos.to_uint p.
Proof.
  rewrite <- (DecimalPos.Unsigned.to_of (Pos.to_uint p)).
  rewrite DecimalPos.Unsigned.of_to. reflexivity.
Qed.

Lemma to_uint_no_leading_zero (p : positive) (d : Decimal.uint) :
  Pos.to_uint p <> Decimal.D0 d.
Proof.
  intros H. pose proof (to_uint_normal p) as Hn. rewrite H in Hn.
  rewrite unorm_D0 in Hn.
  unfold Decimal.unorm in Hn.
  destruct (Decimal.nzhead d) eqn:Hd; try (rewrite <- Hd in Hn; now apply nzhead_nonzero in Hn).
  injection Hn as <-. apply (DecimalPos.Unsigned.to_uint_nonzero p). exact H.
Qed.

Lemma parse_number_pos (p : positive) (rest : string) :
  number_stop rest ->
  parse_number (NilEmpty.string_of_uint (Pos.to_uint p) ++ rest) = Some (JNum (Z.pos p), rest).
Proof.
  intros Hstop. unfold parse_number.
  pose proof (to_uint_no_leading_zero p) as Hz.
  pose proof (DecimalPos.Unsigned.to_uint_nonnil p) as Hnil.
  pose proof (DecimalPos.Unsigned.of_to p) as Hof.
  pose proof (take_digits_uint (Pos.to_uint p) rest Hstop) as Htd.
  pose proof (NilEmpty.usu (Pos.to_uint p)) as Husu.
  destruct (Pos.to_uint p) as [|d|d|d|d|d|d|d|d|d|d] eqn:E;
    try congruence; try (exfalso; now apply (Hz d));
    cbn [NilEmpty.string_of_uint append] in *;
    (match goal with
     | |- context [(code ?c =? 45)%N] =>
         let b := eval vm_compute in (code c =? 45)%N in
         change (code c =? 45)%N with b
     end);
    cbv iota beta; rewrite Htd;
    (match goal with
     | |- context [(code ?c =? 48)%N] =>
         let b := eval vm_compute in (code c =? 48)%N in
         change (code c =? 48)%N with b
     end);
    cbn [andb]; rewrite Husu; unfold Z.of_int, Z.of_uint; rewrite Hof; reflexivity.
Qed.

Lemma parse_number_neg (p : positive) (rest : string) :
  number_stop rest ->
  parse_number (String "-" (NilEmpty.string_of_uint (Pos.to_uint p)) ++ rest)
  = Some (JNum (Z.neg p), rest).
Proof.
  intros Hstop. unfold parse_number.
  pose proof (to_uint_no_leading_zero p) as Hz.
  pose proof (DecimalPos.Unsigned.to_uint_nonnil p) as Hnil.
  pose proof (DecimalPos.Unsigned.of_to p) as Hof.
  pose proof (take_digits_uint (Pos.to_uint p) rest Hstop) as Htd.
  pose proof (NilEmpty.usu (Pos.to_uint p)) as Husu.
  cbn [append].
  change (code "-" =? 45)%N with true. cbv iota beta.
  destruct (Pos.to_uint p) as [|d|d|d|d|d|d|d|d|d|d] eqn:E;
    try congruence; try (exfalso; now apply (Hz d));
    cbn [NilEmpty.string_of_uint append] in *;
    rewrite Htd;
    (match goal with
     | |- context [(code ?c =? 48)%N] =>
         let b := eval vm_compute in (code c =? 48)%N in
         change (code c =? 48)%N with b
     end);
    cbn [andb]; rewrite Husu; unfold Z.of_int, Z.of_uint; rewrite Hof; reflexivity.
Qed.

Lemma number_to_string_pos p :
  number_to_string (Z.pos p) = NilEmpty.string_of_uint (Pos.to_uint p).
Proof.
  unfold number_to_string. cbn [Z.to_int NilZero.string_of_int].
  unfold NilZero.string_of_uint.
  pose proof (DecimalPos.Unsigned.to_uint_nonnil p).
  destruct (Pos.to_uint p); congruence.
Qed.

Lemma number_to_string_neg p :
  number_to_string (Z.neg p) = String "-" (NilEmpty.string_of_uint (Pos.to_uint p)).
Proof.
  unfold number_to_string. cbn [Z.to_int NilZero.string_of_int].
  unfold NilZero.string_of_uint.
  pose proof (DecimalPos.Unsigned.to_uint_nonnil p).
  destruct (Pos.to_uint p); congruence.
Qed.

Lemma parse_number_to_string (n : Z) (rest : string) :
  number_stop rest ->
  parse_number (number_to_string n ++ rest) = Some (JNum n, rest).
Proof.
  intros Hstop. destruct n as [|p|p].
  - change (number_to_string 0) with "0". unfold parse_number. cbn [append].
    change (code "0" =? 45)%N with false. cbv iota beta.
    change (String "0" rest) with (NilEmpty.string_of_uint (Decimal.D0 Decimal.Nil) ++ rest).
    rewrite (take_digits_uint _ _ Hstop). reflexivity.
  - rewrite number_to_string_pos. now apply parse_number_pos.
  - rewrite number_to_string_neg. now apply parse_number_neg.
Qed.

Lemma string_of_uint_head d :
  d <> Decimal.Nil ->
  exists c s, NilEmpty.string_of_uint d = String c s /\ is_digit c = true.
Proof.
  destruct d; intros H; try congruence; eexists _, _; split; reflexivity.
Qed.

Lemma number_to_string_head n :
  exists c s, number_to_string n = String c s /\ number_head c = true.
Proof.
  destruct n as [|p|p].
  - exists "0"%char, "". split; reflexivity.
  - rewrite number_to_string_pos.
    destruct (string_of_uint_head (Pos.to_uint p)) as (c & s & E & Hc).
    + apply DecimalPos.Unsigned.to_uint_nonnil.
    + exists c, s. split; [exact E|]. unfold number_head. now rewrite Hc.
  - rewrite number_to_string_neg. exists "-"%char. eexists. split; reflexivity.
Qed.

(** *** Values *)

Lemma parse_value_eq fuel s :
  parse_value (S fuel) s =
  match skip_ws s with
  | "" => None
  | String c r =>
      if (code c =? 110)%N then option_map (fun r' => (JNull, r')) (starts_with "ull" r)
      else if (code c =? 116)%N then option_map (fun r' => (JBool true, r')) (starts_with "rue" r)
      else if (code c =? 102)%N then option_map (fun r' => (JBool false, r')) (starts_with "alse" r)
      else if (code c =? 34)%N then
        match parse_string_body r with
        | Some (str, r') => Some (JStr str, r')
        | None => None
        end
      else if (code c =? 91)%N then
        match skip_ws r with
        | String c1 r1 =>
            if (code c1 =? 93)%N then Some (JArr [], r1)
            else
              match parse_elements fuel r with
              | Some (items, r') => Some (JArr items, r')
              | None => None
              end
        | "" => None
        end
      else if (code c =? 123)%N then
        match skip_ws r with
        | String c1 r1 =>
            if (code c1 =? 125)%N then Some (JObj [], r1)
            else
              match parse_members fuel r with
              | Some (members, r') => Some (JObj (build_object members), r')
              | None => None
              end
        | "" => None
        end
      else parse_number (String c r)
  end.
Proof. reflexivity. Qed.

Lemma parse_elements_eq fuel s :
  parse_elements (S fuel) s =
  match parse_value fuel s with
  | None => None
  | Some (v, r) =>
      match skip_ws r with
      | String c r' =>
          if (code c =? 44)%N then
            match parse_elements fuel r' with
            | Some (vs, r'') => Some (v :: vs, r'')
            | None => None
            end
          else if (code c =? 93)%N then Some ([v], r')
          else None
      | "" => None
      end
  end.
Proof. reflexivity. Qed.

Lemma parse_members_eq fuel s :
  parse_members (S fuel) s =
  match skip_ws s with
  | String q r0 =>
      if (code q =? 34)%N then
        match parse_string_body r0 with
        | None => None
        | Some (k, r1) =>
            match skip_ws r1 with
            | String colon r2 =>
                if (code colon =? 58)%N then
                  match parse_value fuel r2 with
                  | None => None
                  | Some (v, r) =>
                      match skip_ws r with
                      | String c r' =>
                          if (code c =? 44)%N then
                            match parse_members fuel r' with
                            | Some (ms, r'') => Some ((k, v) :: ms, r'')
                            | None => None
                            end
                          else if (code c =? 125)%N then Some ([(k, v)], r')
                          else None
                      | "" => None
                      end
                  end
                else None
            | "" => None
            end
        end
      else None
  | "" => None
  end.
Proof. reflexivity. Qed.

Lemma parse_value_skip fuel w s :
  all_ws w = true -> parse_value fuel (w ++ s) = parse_value fuel s.
Proof.
  intros Hw. destruct fuel as [|f]; [reflexivity|].
  rewrite !parse_value_eq, skip_ws_append by exact Hw. reflexivity.
Qed.

Lemma number_head_value_head c : number_head c = true -> value_head c = true.
Proof.
  destruct c as [[|] [|] [|] [|] [|] [|] [|] [|]]; intros H; try discriminate H; reflexivity.
Qed.

Lemma serialize_head gap ind v :
  exists c s, serialize gap ind v = String c s /\ value_head c = true.
Proof.
  destruct v as [|[|]|n|s|items|members]; cbn [serialize].
  - eexists _, _; split; reflexivity.
  - eexists _, _; split; reflexivity.
  - eexists _, _; split; reflexivity.
  - destruct (number_to_string_head n) as (c & s & E & H).
    exists c, s. split; [exact E | now apply number_head_value_head].
  - eexists _, _; split; reflexivity.
  - destruct items; [eexists _, _; split; reflexivity|].
    destruct (gap =? ""); eexists _, _; split; reflexivity.
  - destruct members; [eexists _, _; split; reflexivity|].
    destruct (gap =? ""); eexists _, _; split; reflexivity.
Qed.

Lemma skip_ws_head c s : value_head c = true -> skip_ws (String c s) = String c s.
Proof.
  unfold value_head. intros H. cbn [skip_ws].
  destruct (is_json_ws c); [discriminate H | reflexivity].
Qed.

Lemma ws_not_digit c : is_json_ws c = true -> is_digit c = false.
Proof.
  destruct c as [[|] [|] [|] [|] [|] [|] [|] [|]]; intros H; try discriminate H; reflexivity.
Qed.

Lemma number_stop_ws w c rest :
  all_ws w = true -> is_digit c = false -> number_stop (w ++ String c rest).
Proof.
  destruct w as [|x w]; cbn; intros Hw Hc; [exact Hc|].
  apply andb_true_iff in Hw as [Hx _]. now apply ws_not_digit.
Qed.

Lemma parse_value_number fuel c r :
  number_head c = true -> parse_value (S fuel) (String c r) = parse_number (String c r).
Proof.
  intros H. rewrite parse_value_eq.
  rewrite skip_ws_head by now apply number_head_value_head.
  destruct c as [[|] [|] [|] [|] [|] [|] [|] [|]]; try discriminate H; reflexivity.
Qed.


Lemma join_cons sep a l : l <> [] -> join sep (a :: l) = a ++ sep ++ join sep l.
Proof. destruct l; [congruence | reflexivity]. Qed.

Lemma parse_elements_join (l : list json) :
  Forall parses l -> l <> [] ->
  forall gap ind w0 w1 w2 fuel rest,
    all_ws gap = true -> all_ws ind = true ->
    all_ws w0 = true -> all_ws w1 = true -> all_ws w2 = true ->
    (String.length (join ("," ++ w1) (map (serialize gap ind) l)) < fuel)%nat ->
    parse_elements fuel
      (w0 ++ join ("," ++ w1) (map (serialize gap ind) l) ++ w2 ++ "]" ++ rest)
    = Some (map normalize l, rest).
Proof.
  induction 1 as [|x l Hx Hl IH]; [congruence|].
  intros _ gap ind w0 w1 w2 fuel rest Hg Hi H0 H1 H2 Hlen.
  destruct fuel as [|f]; [lia|]. rewrite parse_elements_eq.
  destruct l as [|y l'].
  - cbn [map join] in *.
    rewrite parse_value_skip by assumption.
    rewrite Hx; [| assumption | assumption | lia | now apply number_stop_ws].
    rewrite skip_ws_append by assumption. reflexivity.
  - rewrite map_cons, join_cons in * by discriminate.
    rewrite parse_value_skip by assumption.
    rewrite !append_assoc. rewrite length_append in Hlen.
    rewrite Hx; [| assumption | assumption | lia | reflexivity].
    cbn [append skip_ws]. change (is_json_ws ",") with false. cbv iota.
    change (code "," =? 44)%N with true. cbv iota.
    rewrite length_append in Hlen. cbn [append String.length] in Hlen.
    assert (Hne : y :: l' <> []) by discriminate.
    assert (Hf : (String.length (join ("," ++ w1) (map (serialize gap ind) (y :: l'))) < f)%nat)
      by (cbn [append]; lia).
    pose proof (IH Hne gap ind w1 w1 w2 f rest Hg Hi H1 H1 H2 Hf) as E.
    cbn [append] in E. rewrite E. reflexivity.
Qed.

Lemma member_text_eq gap ind sp kv rest :
  member_text gap ind sp kv ++ rest
  = String (ascii_of_N 34)
      (quote_body (fst kv) ++ DQ ++ String ":" (sp ++ serialize gap ind (snd kv) ++ rest)).
Proof.
  unfold member_text, quote. rewrite !append_assoc. reflexivity.
Qed.

Lemma parse_members_join (ms : list (string * json)) :
  Forall (fun kv => parses (snd kv)) ms -> ms <> [] ->
  forall gap ind sp w0 w1 w2 fuel rest,
    all_ws gap = true -> all_ws ind = true -> all_ws sp = true ->
    all_ws w0 = true -> all_ws w1 = true -> all_ws w2 = true ->
    (String.length (join ("," ++ w1) (map (member_text gap ind sp) ms)) < fuel)%nat ->
    parse_members fuel
      (w0 ++ join ("," ++ w1) (map (member_text gap ind sp) ms) ++ w2 ++ "}" ++ rest)
    = Some (map (fun kv => (fst kv, normalize (snd kv))) ms, rest).
Proof.
  induction 1 as [|x l Hx Hl IH]; [congruence|].
  intros _ gap ind sp w0 w1 w2 fuel rest Hg Hi Hsp H0 H1 H2 Hlen.
  destruct fuel as [|f]; [lia|]. rewrite parse_members_eq.
  rewrite skip_ws_append by assumption.
  destruct l as [|y l'].
  - cbn [map join] in *.
    rewrite member_text_eq. cbn [skip_ws]. change (is_json_ws (ascii_of_N 34)) with false.
    cbv iota. change (code (ascii_of_N 34) =? 34)%N with true. cbv iota.
    rewrite parse_string_body_quote. cbn [skip_ws].
    change (is_json_ws ":") with false. cbv iota.
    change (code ":" =? 58)%N with true. cbv iota.
    rewrite parse_value_skip by assumption.
    unfold member_text in Hlen. rewrite !length_append in Hlen.
    rewrite Hx; [| assumption | assumption | lia | now apply number_stop_ws].
    rewrite skip_ws_append by assumption. reflexivity.
  - rewrite map_cons, join_cons in * by discriminate.
    rewrite append_assoc, member_text_eq. cbn [skip_ws].
    change (is_json_ws (ascii_of_N 34)) with false.
    cbv iota. change (code (ascii_of_N 34) =? 34)%N with true. cbv iota.
    rewrite parse_string_body_quote. cbn [skip_ws].
    change (is_json_ws ":") with false. cbv iota.
    change (code ":" =? 58)%N with true. cbv iota.
    rewrite parse_value_skip by assumption.
    rewrite length_append in Hlen. unfold member_text in Hlen at 1.
    rewrite !length_append in Hlen. cbn [append String.length] in Hlen.
    rewrite !append_assoc.
    rewrite Hx; [| assumption | assumption | lia | reflexivity].
    cbn [append skip_ws]. change (is_json_ws ",") with false. cbv iota.
    change (code "," =? 44)%N with true. cbv iota.
    assert (Hne : y :: l' <> []) by discriminate.
    assert (Hf : (String.length (join ("," ++ w1) (map (member_text gap ind sp) (y :: l'))) < f)%nat)
      by (cbn [append]; lia).
    pose proof (IH Hne gap ind sp w1 w1 w2 f rest Hg Hi Hsp H1 H1 H2 Hf) as E.
    cbn [append] in E. rewrite E. reflexivity.
Qed.

Lemma serialize_array_form gap ind x items :
  all_ws gap = true -> all_ws ind = true ->
  exists w0 w1 w2,
    all_ws w0 = true /\ all_ws w1 = true /\ all_ws w2 = true /\
    serialize gap ind (JArr (x :: items))
    = "[" ++ w0 ++ join ("," ++ w1) (map (serialize gap (ind ++ gap)) (x :: items))
          ++ w2 ++ "]".
Proof.
  intros Hg Hi. cbn [serialize]. destruct (gap =? "") eqn:E.
  - exists "", "", "". repeat split; reflexivity.
  - exists (LF ++ (ind ++ gap)), (LF ++ (ind ++ gap)), (LF ++ ind).
    repeat split; try (apply all_ws_append; [reflexivity|]; try apply all_ws_append; assumption).
Qed.

Lemma serialize_object_form gap ind x members :
  all_ws gap = true -> all_ws ind = true ->
  exists sp w0 w1 w2,
    all_ws sp = true /\ all_ws w0 = true /\ all_ws w1 = true /\ all_ws w2 = true /\
    serialize gap ind (JObj (x :: members))
    = "{" ++ w0 ++ join ("," ++ w1) (map (member_text gap (ind ++ gap) sp) (x :: members))
          ++ w2 ++ "}".
Proof.
  intros Hg Hi. cbn [serialize]. destruct (gap =? "") eqn:E.
  - exists "", "", "", "". repeat split; reflexivity.
  - exists " ", (LF ++ (ind ++ gap)), (LF ++ (ind ++ gap)), (LF ++ ind).
    repeat split; try (apply all_ws_append; [reflexivity|]; try apply all_ws_append; assumption).
Qed.

Lemma join_head sep gap ind x items :
  exists c s,
    join sep (map (serialize gap ind) (x :: items)) = String c s /\ value_head c = true.
Proof.
  destruct (serialize_head gap ind x) as (c & s & E & H).
  destruct items as [|y l]; cbn [map join]; rewrite E.
  - now exists c, s.
  - eexists c, _. split; [reflexivity | exact H].
Qed.

Lemma join_members_head sep gap ind sp x members :
  exists s,
    join sep (map (member_text gap ind sp) (x :: members)) = String (ascii_of_N 34) s.
Proof.
  destruct members as [|y l]; cbn [map join]; unfold member_text at 1, quote;
    rewrite !append_assoc; cbn [DQ append]; eexists; reflexivity.
Qed.

Lemma value_head_not_close c : value_head c = true -> (code c =? 93)%N = false.
Proof.
  unfold value_head. destruct (code c =? 93)%N; [|reflexivity].
  rewrite andb_false_r. discriminate.
Qed.

Theorem parse_value_serialize (v : json) : parses v.
Proof.
  induction v as [|b|n|s|items IH|members IH] using json_ind;
    intros gap ind fuel rest Hg Hi Hlen Hstop.
  - destruct fuel; [cbn in Hlen; lia | reflexivity].
  - destruct b; (destruct fuel; [cbn in Hlen; lia | reflexivity]).
  - cbn [serialize normalize] in *.
    destruct (number_to_string_head n) as (c & s & E & H).
    destruct fuel; [rewrite E in Hlen; cbn in Hlen; lia|].
    rewrite <- (parse_number_to_string n rest Hstop).
    rewrite E. now apply parse_value_number.
  - cbn [serialize normalize] in *. destruct fuel; [cbn in Hlen; lia|].
    unfold quote. rewrite !append_assoc. rewrite parse_value_eq.
    cbn [DQ append skip_ws]. change (is_json_ws (ascii_of_N 34)) with false. cbv iota.
    change (code (ascii_of_N 34)) with 34%N. cbn [N.eqb Pos.eqb].
    change (String (ascii_of_N 34) rest) with (DQ ++ rest).
    rewrite parse_string_body_quote. reflexivity.
  - destruct items as [|x items].
    + destruct fuel; [cbn in Hlen; lia | reflexivity].
    + destruct (serialize_array_form gap ind x items Hg Hi)
        as (w0 & w1 & w2 & H0 & H1 & H2 & E).
      rewrite E in *. clear E.
      destruct fuel as [|f]; [cbn in Hlen; lia|].
      rewrite parse_value_eq. rewrite !append_assoc. cbn [append skip_ws].
      change (is_json_ws "[") with false. cbv iota.
      change (code "[") with 91%N. cbn [N.eqb Pos.eqb].
      rewrite skip_ws_append by assumption.
      destruct (join_head ("," ++ w1) gap (ind ++ gap) x items) as (c & s & Ej & Hc).
      cbn [append] in Ej. rewrite Ej. cbn [append].
      rewrite skip_ws_head by assumption.
      rewrite value_head_not_close by assumption.
      change (String c (s ++ w2 ++ String "]" rest)) with (String c s ++ w2 ++ String "]" rest).
      rewrite <- Ej.
      assert (Hne : x :: items <> []) by discriminate.
      assert (Hgi : all_ws (ind ++ gap) = true) by now apply all_ws_append.
      pose proof (parse_elements_join (x :: items) IH Hne gap (ind ++ gap) w0 w1 w2 f rest
                    Hg Hgi H0 H1 H2) as P.
      cbn [append] in P. change (String "[" "") with "[" in Hlen.
      rewrite !length_append in Hlen. cbn [append String.length] in Hlen.
      rewrite P by lia. reflexivity.
  - destruct members as [|x members].
    + destruct fuel; [cbn in Hlen; lia | reflexivity].
    + destruct (serialize_object_form gap ind x members Hg Hi)
        as (sp & w0 & w1 & w2 & Hsp & H0 & H1 & H2 & E).
      rewrite E in *. clear E.
      destruct fuel as [|f]; [cbn in Hlen; lia|].
      rewrite parse_value_eq. rewrite !append_assoc. cbn [append skip_ws].
      change (is_json_ws "{") with false. cbv iota.
      change (code "{") with 123%N. cbn [N.eqb Pos.eqb].
      rewrite skip_ws_append by assumption.
      assert (Hne : x :: members <> []) by discriminate.
      assert (Hgi : all_ws (ind ++ gap) = true) by now apply all_ws_append.
      pose proof (parse_members_join (x :: members) IH Hne gap (ind ++ gap) sp w0 w1 w2 f rest
                    Hg Hgi Hsp H0 H1 H2) as P.
      cbn [append] in P.
      rewrite !length_append in Hlen. cbn [append String.length] in Hlen.
      destruct (join_members_head ("," ++ w1) gap (ind ++ gap) sp x members) as (s & Ej).
      cbn [append] in Ej. rewrite Ej. cbn [append skip_ws].
      change (is_json_ws (ascii_of_N 34)) with false. cbv iota.
      change (code (ascii_of_N 34)) with 34%N. cbn [N.eqb Pos.eqb].
      change (String (ascii_of_N 34) (s ++ w2 ++ String "}" rest))
        with (String (ascii_of_N 34) s ++ w2 ++ String "}" rest).
      rewrite <- Ej.
      rewrite P by lia. reflexivity.
Qed.

(** *** The round trip *)

Lemma JSON_parse_serialize (gap : string) (v : json) :
  all_ws gap = true -> JSON_parse (serialize gap "" v) = Some (normalize v).
Proof.
  intros Hg. unfold JSON_parse.
  rewrite <- (append_nil_r (serialize gap "" v)) at 2.
  rewrite (parse_value_serialize v gap "" _ "" Hg eq_refl); [reflexivity | lia | exact I].
Qed.

Lemma JSON_parse_stringify (v : json) :
  JSON_parse (JSON_stringify v) = Some (normalize v).
Proof. apply JSON_parse_serialize. reflexivity. Qed.

Lemma JSON_parse_stringify_pretty (v : json) :
  JSON_parse (JSON_stringify_pretty v) = Some (normalize v).
Proof. apply JSON_parse_serialize. reflexivity. Qed.

Lemma JSON_parse_stringify_value (v : json) :
  js_value v -> JSON_parse (JSON_stringify v) = Some v.
Proof. intros H. rewrite JSON_parse_stringify. now rewrite H. Qed.

Lemma serialize_nonempty gap ind v : serialize gap ind v <> "".
Proof.
  destruct (serialize_head gap ind v) as (c & s & E & _). rewrite E. discriminate.
Qed.

(** *** Values a program can hold *)

Lemma js_value_array items : Forall js_value items -> js_value (JArr items).
Proof.
  unfold js_value. intros H. cbn [normalize]. f_equal.
  induction H as [|x l Hx Hl IH]; [reflexivity|]. cbn [map]. now rewrite Hx, IH.
Qed.

(* ================================================================== *)
(** ** The JSON texts *)

Lemma skip_number_of_parse (s : string) (v : json) (r : string) :
  parse_number s = Some (v, r) -> literal_end r -> skip_number s = Some r.
Proof.
  unfold parse_number, skip_number.
  destruct (match s with
            | String c r0 => if (code c =? 45)%N then (true, r0) else (false, s)
            | "" => (false, s)
            end) as [neg s1] eqn:E1.
  assert (E2 : match s with
               | String c r0 => if (code c =? 45)%N then r0 else s
               | "" => s
               end = s1).
  { destruct s as [|c r0]; [now injection E1 as _ <-|].
    destruct (code c =? 45)%N; now injection E1 as _ <-. }
  rewrite E2. destruct (take_digits s1) as [ds r1].
  destruct ds as [|d ds']; [discriminate|].
  destruct ((code d =? 48)%N && negb (ds' =? "")); [discriminate|].
  destruct (NilEmpty.uint_of_string _); [|discriminate].
  intros H. injection H as _ <-. intros Hend.
  destruct r1 as [|c r1]; [reflexivity|]. cbn in Hend. destruct Hend as (H1 & H2 & H3).
  apply N.eqb_neq in H1, H2, H3. now rewrite H1, H2, H3.
Qed.

Lemma skip_ws_literal_end (r : string) (c : ascii) (r' : string) :
  skip_ws r = String c r' ->
  code c = 44%N \/ code c = 93%N \/ code c = 125%N \/ is_json_ws c = true ->
  literal_end r.
Proof.
  destruct r as [|x r0]; [discriminate|]. cbn [skip_ws literal_end].
  destruct (is_json_ws x) eqn:E.
  - intros _ _. unfold is_json_ws in E.
    repeat split; intros H; rewrite H in E; discriminate E.
  - intros H. injection H as -> _. intros [H|[H|[H|H]]]; try congruence;
      rewrite H; repeat split; discriminate.
Qed.

Lemma skip_of_parse (fuel : nat) :
  (forall s v r, parse_value fuel s = Some (v, r) -> literal_end r ->
                 skip_value fuel s = Some r) /\
  (forall s vs r, parse_elements fuel s = Some (vs, r) -> skip_elements fuel s = Some r) /\
  (forall s ms r, parse_members fuel s = Some (ms, r) -> skip_members fuel s = Some r).
Proof.
  induction fuel as [|fuel (IHv & IHe & IHm)]; [repeat split; discriminate|].
  split; [|split].
  - intros s v r. rewrite parse_value_eq. cbn [skip_value].
    destruct (skip_ws s) as [|c t]; [discriminate|].
    destruct (code c =? 110)%N.
    { destruct (starts_with "ull" t); [|discriminate]. cbn. intros H. now injection H as _ <-. }
    destruct (code c =? 116)%N.
    { destruct (starts_with "rue" t); [|discriminate]. cbn. intros H. now injection H as _ <-. }
    destruct (code c =? 102)%N.
    { destruct (starts_with "alse" t); [|discriminate]. cbn. intros H. now injection H as _ <-. }
    destruct (code c =? 34)%N.
    { destruct (parse_string_body t) as [[str t']|]; [|discriminate]. cbn.
      intros H. now injection H as _ <-. }
    destruct (code c =? 91)%N.
    { destruct (skip_ws t) as [|c1 t1]; [discriminate|].
      destruct (code c1 =? 93)%N; [intros H; now injection H as _ <-|].
      destruct (parse_elements fuel t) as [[items t']|] eqn:E; [|discriminate].
      intros H _. injection H as _ <-. now apply (IHe t items). }
    destruct (code c =? 123)%N.
    { destruct (skip_ws t) as [|c1 t1]; [discriminate|].
      destruct (code c1 =? 125)%N; [intros H; now injection H as _ <-|].
      destruct (parse_members fuel t) as [[members t']|] eqn:E; [|discriminate].
      intros H _. injection H as _ <-. now apply (IHm t members). }
    apply skip_number_of_parse.
  - intros s vs r. rewrite parse_elements_eq. cbn [skip_elements].
    destruct (parse_value fuel s) as [[v t]|] eqn:E; [|discriminate].
    destruct (skip_ws t) as [|c t'] eqn:Et; [discriminate|].
    assert (Hend : code c = 44%N \/ code c = 93%N -> literal_end t)
      by (intros [H|H]; apply (skip_ws_literal_end t c t' Et); auto).
    destruct (code c =? 44)%N eqn:E1.
    + apply N.eqb_eq in E1. rewrite (IHv s v t E (Hend (or_introl E1))), Et.
      apply N.eqb_eq in E1. rewrite E1.
      destruct (parse_elements fuel t') as [[vs' t'']|] eqn:E'; [|discriminate].
      intros H. injection H as _ <-. now apply (IHe t' vs').
    + destruct (code c =? 93)%N eqn:E2; [|discriminate].
      apply N.eqb_eq in E2. rewrite (IHv s v t E (Hend (or_intror E2))), Et, E1.
      apply N.eqb_eq in E2. rewrite E2. intros H. now injection H as _ <-.
  - intros s ms r. rewrite parse_members_eq. cbn [skip_members].
    destruct (skip_ws s) as [|q t0]; [discriminate|].
    destruct (code q =? 34)%N; [|discriminate].
    destruct (parse_string_body t0) as [[k t1]|]; [|discriminate].
    destruct (skip_ws t1) as [|colon t2]; [discriminate|].
    destruct (code colon =? 58)%N; [|discriminate].
    destruct (parse_value fuel t2) as [[v t]|] eqn:E; [|discriminate].
    destruct (skip_ws t) as [|c t'] eqn:Et; [discriminate|].
    assert (Hend : code c = 44%N \/ code c = 125%N -> literal_end t)
      by (intros [H|H]; apply (skip_ws_literal_end t c t' Et); auto).
    destruct (code c =? 44)%N eqn:E1.
    + apply N.eqb_eq in E1. rewrite (IHv t2 v t E (Hend (or_introl E1))), Et.
      apply N.eqb_eq in E1. rewrite E1.
      destruct (parse_members fuel t') as [[ms' t'']|] eqn:E'; [|discriminate].
      intros H. injection H as _ <-. now apply (IHm t' ms').
    + destruct (code c =? 125)%N eqn:E2; [|discriminate].
      apply N.eqb_eq in E2. rewrite (IHv t2 v t E (Hend (or_intror E2))), Et, E1.
      apply N.eqb_eq in E2. rewrite E2. intros H. now injection H as _ <-.
Qed.

(** What the embedding parses is a JSON text: a text that is none makes
    [JSON_parse] fail. *)
Lemma JSON_parse_json_text (text : string) (v : json) :
  JSON_parse text = Some v -> is_json_text text = true.
Proof.
  unfold JSON_parse, is_json_text.
  destruct (parse_value (S (String.length text)) text) as [[v' rest]|] eqn:E; [|discriminate].
  destruct (skip_ws rest =? "") eqn:Er; [|discriminate]. intros _.
  destruct (skip_of_parse (S (String.length text))) as (H & _ & _).
  rewrite (H text v' rest E); [exact Er|].
  apply String.eqb_eq in Er. destruct rest as [|c rest]; [exact I|].
  cbn [skip_ws] in Er. destruct (is_json_ws c) eqn:Ec; [|discriminate Er].
  cbn [literal_end]. unfold is_json_ws in Ec.
  repeat split; intros Hc; rewrite Hc in Ec; discriminate Ec.
Qed.

(* ================================================================== *)
(** ** The property order of objects *)

(** An array index is the canonical numeral of its value. *)
Lemma array_index_unorm (k : string) (n : N) :
  array_index k = Some n ->
  exists u, NilEmpty.uint_of_string k = Some u /\ N.of_uint u = n /\ Decimal.unorm u = u.
Proof.
  unfold array_index. destruct k as [|d ds]; [discriminate|].
  destruct (forallb is_digit _ && negb ((code d =? 48)%N && negb (ds =? ""))) eqn:E;
    [|discriminate].
  destruct (NilEmpty.uint_of_string (String d ds)) as [u|] eqn:Hu; [|discriminate].
  destruct (N.of_uint u <? 4294967295)%N; [|discriminate].
  intros [= <-]. exists u. split; [reflexivity|]. split; [reflexivity|].
  apply andb_true_iff in E as [_ E].
  apply NilEmpty.sus in Hu.
  destruct u as [|u|u|u|u|u|u|u|u|u|u]; try reflexivity; try discriminate Hu.
  (* a leading zero: the numeral is the single digit 0 *)
  cbn in Hu. injection Hu as <- <-.
  change (code "0" =? 48)%N with true in E. cbn [andb negb] in E.
  apply negb_true_iff, negb_false_iff, String.eqb_eq in E.
  destruct u; try discriminate E. reflexivity.
Qed.

Lemma array_index_inj (k k' : string) (n : N) :
  array_index k = Some n -> array_index k' = Some n -> k = k'.
Proof.
  intros H H'.
  destruct (array_index_unorm k n H) as (u & Hu & Hn & Hnorm).
  destruct (array_index_unorm k' n H') as (u' & Hu' & Hn' & Hnorm').
  apply NilEmpty.sus in Hu, Hu'. subst k k'.
  assert (E : Decimal.unorm u = Decimal.unorm u')
    by (apply DecimalN.Unsigned.of_iff; congruence).
  rewrite Hnorm, Hnorm' in E. now rewrite E.
Qed.

Lemma obj_set_Forall (P : string * json -> Prop) (k : string) (v : json)
    (o : list (string * json)) :
  P (k, v) -> Forall P o -> Forall P (obj_set k v o).
Proof.
  intros Hk. induction 1 as [|[k' v'] o' Hx Ho IH]; cbn [obj_set].
  - now constructor.
  - destruct (k =? k'); [now constructor|].
    destruct (array_index k) as [n|]; [destruct (array_index k') as [n'|]|].
    + destruct (n <? n')%N; repeat constructor; assumption.
    + repeat constructor; assumption.
    + now constructor.
Qed.

(** Setting a property keeps the order. *)
Lemma obj_set_ordered (k : string) (v : json) (o : list (string * json)) :
  ordered o -> ordered (obj_set k v o).
Proof.
  induction o as [|[k' v'] o' IH]; intros Ho; cbn [obj_set].
  - cbn. auto.
  - destruct Ho as [Hall Ho'].
    destruct (String.eqb_spec k k') as [->|Hne]; [split; assumption|].
    cbn [fst] in Hall.
    destruct (array_index k) as [n|] eqn:Ek; [destruct (array_index k') as [n'|] eqn:Ek'|].
    + destruct (N.ltb_spec n n') as [Hlt|Hge].
      * split; [|split; assumption]. constructor.
        -- cbn [fst]. split; [assumption|]. now rewrite Ek, Ek'.
        -- eapply Forall_impl; [|exact Hall]. intros [kx vx] [Hx1 Hx2]. cbn [fst] in *.
           rewrite Ek' in Hx2. unfold precedes. rewrite Ek.
           destruct (array_index kx) as [nx|] eqn:Ex.
           ++ split; [|lia]. intros ->. rewrite Ek in Ex. injection Ex as ->. lia.
           ++ split; [|exact I]. intros ->. congruence.
      * split; [|now apply IH]. apply obj_set_Forall; [|exact Hall].
        cbn [fst]. split; [congruence|]. rewrite Ek, Ek'.
        assert (n <> n') by (intros ->; apply Hne; eapply array_index_inj; eassumption).
        lia.
    + split; [|split; assumption]. constructor.
      * cbn [fst]. split; [assumption|]. now rewrite Ek, Ek'.
      * eapply Forall_impl; [|exact Hall]. intros [kx vx] [Hx1 Hx2]. cbn [fst] in *.
        rewrite Ek' in Hx2. unfold precedes. rewrite Ek.
        destruct (array_index kx) as [nx|] eqn:Ex; [contradiction|].
        split; [|exact I]. intros ->. congruence.
    + split; [|now apply IH]. apply obj_set_Forall; [|exact Hall].
      cbn [fst]. split; [congruence|]. rewrite Ek.
      destruct (array_index k'); exact I.
Qed.

Lemma build_object_snoc (ms : list (string * json)) (k : string) (v : json) :
  build_object (ms ++ [(k, v)]) = obj_set k v (build_object ms).
Proof. unfold build_object. now rewrite fold_left_app. Qed.

Lemma build_object_ordered (ms : list (string * json)) : ordered (build_object ms).
Proof.
  induction ms as [|[k v] ms IH] using rev_ind; [exact I|].
  rewrite build_object_snoc. now apply obj_set_ordered.
Qed.

(** A key that may stand after all the others goes last. *)
Lemma obj_set_last (k : string) (v : json) (o : list (string * json)) :
  Forall (fun kv' => precedes (fst kv') k) o -> obj_set k v o = (o ++ [(k, v)])%list.
Proof.
  induction 1 as [|[k' v'] o' [Hne Hidx] Ho IH]; [reflexivity|].
  cbn [obj_set app fst] in *.
  destruct (String.eqb_spec k k') as [->|_]; [congruence|].
  destruct (array_index k) as [n|]; [destruct (array_index k') as [n'|]|].
  - destruct (N.ltb_spec n n'); [lia | now rewrite IH].
  - contradiction.
  - now rewrite IH.
Qed.

Lemma ordered_app_inv (o1 o2 : list (string * json)) :
  ordered (o1 ++ o2) ->
  ordered o1 /\ ordered o2 /\
  Forall (fun kv => Forall (fun kv' => precedes (fst kv) (fst kv')) o2) o1.
Proof.
  induction o1 as [|kv o1 IH]; cbn [app ordered]; intros H.
  - repeat split; [exact H | constructor].
  - destruct H as [Hall Ho]. apply Forall_app in Hall as [H1 H2].
    destruct (IH Ho) as (Ho1 & Ho2 & Hcross). repeat split; try assumption.
    now constructor.
Qed.

(** Members already in property order build the same object. *)
Lemma build_object_of_ordered (o : list (string * json)) :
  ordered o -> build_object o = o.
Proof.
  induction o as [|[k v] o IH] using rev_ind; intros Ho; [reflexivity|].
  rewrite build_object_snoc.
  destruct (ordered_app_inv _ _ Ho) as (Ho1 & _ & Hcross).
  rewrite IH by exact Ho1. apply obj_set_last.
  eapply Forall_impl; [|exact Hcross]. intros kv' H. now inversion H.
Qed.

Lemma build_object_idempotent (ms : list (string * json)) :
  build_object (build_object ms) = build_object ms.
Proof. apply build_object_of_ordered, build_object_ordered. Qed.

Lemma build_object_Forall (P : string * json -> Prop) (ms : list (string * json)) :
  Forall P ms -> Forall P (build_object ms).
Proof.
  induction ms as [|[k v] ms IH] using rev_ind; intros H; [constructor|].
  apply Forall_app in H as [H1 H2]. rewrite build_object_snoc.
  apply obj_set_Forall; [now inversion H2 | now apply IH].
Qed.

(** An object in property order whose values can be held can be held. *)
Lemma js_value_object (members : list (string * json)) :
  ordered members -> Forall (fun kv => js_value (snd kv)) members ->
  js_value (JObj members).
Proof.
  unfold js_value. intros Ho Hv. cbn [normalize].
  assert (E : map (fun kv => (fst kv, normalize (snd kv))) members = members).
  { induction Hv as [|[k v] l Hx Hl IH]; [reflexivity|].
    cbn [map fst snd] in *. rewrite Hx, IH; [reflexivity|]. apply Ho. }
  rewrite E. now rewrite build_object_of_ordered.
Qed.

(** What [JSON.parse] returns can be held: parsing it again after
    [JSON.stringify] gives it back. *)
Lemma parse_js_value (fuel : nat) :
  (forall s v r, parse_value fuel s = Some (v, r) -> js_value v) /\
  (forall s vs r, parse_elements fuel s = Some (vs, r) -> Forall js_value vs) /\
  (forall s ms r, parse_members fuel s = Some (ms, r) ->
                  Forall (fun kv => js_value (snd kv)) ms).
Proof.
  induction fuel as [|fuel (IHv & IHe & IHm)]; [repeat split; discriminate|].
  split; [|split].
  - intros s v r. rewrite parse_value_eq.
    destruct (skip_ws s) as [|c s']; [discriminate|].
    destruct (code c =? 110)%N.
    { destruct (starts_with "ull" s'); intros [= <- _]. reflexivity. }
    destruct (code c =? 116)%N.
    { destruct (starts_with "rue" s'); intros [= <- _]. reflexivity. }
    destruct (code c =? 102)%N.
    { destruct (starts_with "alse" s'); intros [= <- _]. reflexivity. }
    destruct (code c =? 34)%N.
    { destruct (parse_string_body s') as [[str r']|]; intros [= <- _]. reflexivity. }
    destruct (code c =? 91)%N.
    { destruct (skip_ws s') as [|c1 r1]; [discriminate|].
      destruct (code c1 =? 93)%N; [intros [= <- _]; reflexivity|].
      destruct (parse_elements fuel s') as [[items r']|] eqn:E; intros [= <- _].
      apply js_value_array. eapply IHe, E. }
    destruct (code c =? 123)%N.
    { destruct (skip_ws s') as [|c1 r1]; [discriminate|].
      destruct (code c1 =? 125)%N; [intros [= <- _]; reflexivity|].
      destruct (parse_members fuel s') as [[members r']|] eqn:E; intros [= <- _].
      apply js_value_object; [apply build_object_ordered|].
      apply build_object_Forall. eapply IHm, E. }
    unfold parse_number.
    destruct (match String c s' with
              | "" => (false, String c s')
              | String c0 r0 => if (code c0 =? 45)%N then (true, r0) else (false, String c s')
              end) as [neg s1].
    destruct (take_digits s1) as [ds rest]. destruct ds as [|d ds']; [discriminate|].
    destruct ((code d =? 48)%N && negb (ds' =? "")); [discriminate|].
    destruct (NilEmpty.uint_of_string (String d ds')); intros [= <- _]. reflexivity.
  - intros s vs r. rewrite parse_elements_eq.
    destruct (parse_value fuel s) as [[v r0]|] eqn:Ev; [|discriminate].
    destruct (skip_ws r0) as [|c r']; [discriminate|].
    destruct (code c =? 44)%N.
    { destruct (parse_elements fuel r') as [[vs' r'']|] eqn:Ee; intros [= <- _].
      constructor; [eapply IHv, Ev | eapply IHe, Ee]. }
    destruct (code c =? 93)%N; intros [= <- _].
    constructor; [eapply IHv, Ev | constructor].
  - intros s ms r. rewrite parse_members_eq.
    destruct (skip_ws s) as [|q0 r0]; [discriminate|].
    destruct (code q0 =? 34)%N; [|discriminate].
    destruct (parse_string_body r0) as [[k r1]|]; [|discriminate].
    destruct (skip_ws r1) as [|colon r2]; [discriminate|].
    destruct (code colon =? 58)%N; [|discriminate].
    destruct (parse_value fuel r2) as [[v r3]|] eqn:Ev; [|discriminate].
    destruct (skip_ws r3) as [|c r']; [discriminate|].
    destruct (code c =? 44)%N.
    { destruct (parse_members fuel r') as [[ms' r'']|] eqn:Em; intros [= <- _].
      constructor; [eapply IHv, Ev | eapply IHm, Em]. }
    destruct (code c =? 125)%N; intros [= <- _].
    constructor; [eapply IHv, Ev | constructor].
Qed.

Lemma JSON_parse_js_value (text : string) (v : json) :
  JSON_parse text = Some v -> js_value v.
Proof.
  unfold JSON_parse.
  destruct (parse_value _ text) as [[v' rest]|] eqn:E; [|discriminate].
  destruct (skip_ws rest =? ""); intros [= <-].
  eapply (proj1 (parse_js_value _)), E.
Qed.

Lemma normalize_idempotent (v : json) : normalize (normalize v) = normalize v.
Proof.
  pose proof (JSON_parse_stringify v) as H. apply JSON_parse_js_value in H. exact H.
Qed.

(* ================================================================== *)
(** ** extractText and extractData *)


Lemma get_prop_opt_field (v : option json) (k : string) :
  get_prop_opt v k = Normal (match v with Some d => field d k | None => None end).
Proof. destruct v as [[| | | | |]|]; reflexivity. Qed.

Lemma truthy_string (s : string) : truthy (Some (JStr s)) = negb (s =? "").
Proof. reflexivity. Qed.


(** On [null] the first property read throws. *)
Lemma extractText_try_null (text : string) :
  JSON_parse text = Some JNull ->
  extractText_try text
  = Throw (TypeError "Cannot read properties of null (reading 'message')").
Proof.
  intros Hp. unfold extractText_try, JSON_parse_c. rewrite Hp. reflexivity.
Qed.

Lemma extractText_try_syntax_error (text : string) :
  JSON_parse text = None -> exists e, extractText_try text = Throw e.
Proof.
  intros Hp. unfold extractText_try, JSON_parse_c. rewrite Hp. eexists. reflexivity.
Qed.

(** [extractText] and [extractData] read the task through [rawText_of]. *)
Lemma extractText_rawText (task : A2ATask) :
  extractText task =
  match rawText_of task with
  | None => Normal NO_RESPONSE
  | Some text =>
      if text =? "" then Normal NO_RESPONSE
      else try_catch (extractText_try text) (fun _ => Normal text)
  end.
Proof.
  unfold extractText, rawText_of.
  destruct (artifacts task) as [[|first rest]|]; try reflexivity.
  destruct (find_text_part (parts first)); reflexivity.
Qed.

Lemma extractData_rawText (task : A2ATask) :
  extractData task =
  match rawText_of task with
  | None => JNull
  | Some text =>
      if text =? "" then JNull
      else match JSON_parse text with Some parsed => parsed | None => JStr text end
  end.
Proof.
  unfold extractData, rawText_of.
  destruct (artifacts task) as [[|first rest]|]; try reflexivity.
  destruct (find_text_part (parts first)); reflexivity.
Qed.




(** The examples of the specification. *)
Example extractText_reply_beats_message :
  extractText
    (task_with_text ("{" ++ q "data" ++ ":{" ++ q "reply" ++ ":" ++ q "A" ++ ","
                         ++ q "message" ++ ":" ++ q "B" ++ "}}"))
  = Normal "A".
Proof. vm_compute. reflexivity. Qed.

Example extractText_message_alone :
  extractText (task_with_text ("{" ++ q "message" ++ ":" ++ q "B" ++ "}")) = Normal "B".
Proof. vm_compute. reflexivity. Qed.

Example extractText_bare_string :
  extractText (task_with_text (q "hello")) = Normal "hello".
Proof. vm_compute. reflexivity. Qed.

Example extractText_unparseable :
  extractText (task_with_text "plain") = Normal "plain".
Proof. vm_compute. reflexivity. Qed.

Example extractText_no_artifacts :
  extractText
    {| task_id := "t"; contextId := "c";
       status := {| state := "completed"; timestamp := "" |};
       artifacts := Some []; history := []; metadata := None |}
  = Normal NO_RESPONSE.
Proof. reflexivity. Qed.

(** A string-valued but empty [data], and a [null] with white space around
    it, also leave the stated priority. *)
Example extractText_empty_data :
  extractText (task_with_text ("{" ++ q "data" ++ ":" ++ q "" ++ "}"))
  = Normal (JSON_stringify_pretty (JObj [("data", JStr "")])).
Proof. vm_compute. reflexivity. Qed.

Example extractText_spaced_null :
  extractText (task_with_text " null ") = Normal " null ".
Proof. vm_compute. reflexivity. Qed.

(** A [message] that cannot be converted to a string: [String] throws
    inside the [try], and the raw text is returned. *)
Example extractText_unconvertible_message :
  let text := "{" ++ q "message" ++ ":{" ++ q "toString" ++ ":1}}" in
  JSON_parse text = Some (JObj [("message", JObj [("toString", JNum 1)])]) /\
  extractText (task_with_text text) = Normal text.
Proof. split; vm_compute; reflexivity. Qed.

(** C9.  [extractText] never throws: every task gives a string.  When the
    text is [null], which parses to the value [null], the [try] block throws
    on its first property read, the [catch] takes it like a parse failure,
    and the raw text [null] is returned. *)
Theorem extractText_total :
  (forall task : A2ATask, exists s : string, extractText task = Normal s) /\
  JSON_parse "null" = Some JNull /\
  (exists e : exn, extractText_try "null" = Throw e) /\
  (forall task : A2ATask,
     rawText_of task = Some "null" -> extractText task = Normal "null").
Proof.
  split; [|split; [|split]].
  - intros task. rewrite extractText_rawText.
    destruct (rawText_of task) as [text|]; [|eauto].
    destruct (text =? ""); [eauto|].
    destruct (extractText_try text); cbn [try_catch]; eauto.
  - reflexivity.
  - eexists. apply extractText_try_null. reflexivity.
  - intros task H. rewrite extractText_rawText, H. reflexivity.
Qed.

(** C10.  An empty text is treated like a missing text part: [extractData]
    returns [null] and [extractText] the sentinel, the results of a task
    with no text part at all. *)
Theorem empty_text_like_missing (task : A2ATask) :
  rawText_of task = Some "" ->
  extractData task = JNull /\
  extractText task = Normal NO_RESPONSE /\
  (forall other : A2ATask,
     rawText_of other = None ->
     extractData other = extractData task /\ extractText other = extractText task).
Proof.
  intros H. rewrite extractData_rawText, extractText_rawText, H. cbn.
  split; [reflexivity|]. split; [reflexivity|].
  intros other Ho. now rewrite extractData_rawText, extractText_rawText, Ho.
Qed.

Lemma empty_text_like_missing_witness :
  extractData (task_with_text "") = JNull /\
  extractText (task_with_text "") = Normal NO_RESPONSE /\
  (forall other : A2ATask,
     rawText_of other = None ->
     extractData other = extractData (task_with_text "") /\
     extractText other = extractText (task_with_text "")).
Proof. apply (empty_text_like_missing (task_with_text "")). reflexivity. Defined.

Lemma extractData_js_value (task : A2ATask) : js_value (extractData task).
Proof.
  rewrite extractData_rawText.
  destruct (rawText_of task) as [text|]; [|reflexivity].
  destruct (text =? ""); [reflexivity|].
  destruct (JSON_parse text) as [parsed|] eqn:E; [|reflexivity].
  now apply JSON_parse_js_value in E.
Qed.

(** The text of the success payload decodes to the payload. *)
Lemma success_payload_decodes (task : A2ATask) :
  JSON_parse (JSON_stringify_pretty (success_payload task (extractData task)))
  = Some (success_payload task (extractData task)).
Proof.
  rewrite JSON_parse_stringify_pretty. f_equal.
  pose proof (extractData_js_value task) as H. unfold js_value in H.
  unfold success_payload.
  destruct (metadata task) as [[[w|]]|]; cbn [app normalize map fst snd];
    rewrite H; reflexivity.
Qed.

(* ================================================================== *)
(** ** The client calls *)

(** What [rpc] returns is what the transport gave: a response comes from a
    2xx exchange whose body decoded to it. *)
Lemma rpc_normal (c : A2AClient) (method : string) (params : json)
    (response : JsonRpcResponse) (c' : A2AClient) :
  rpc c method params = (Normal response, c') ->
  exists res,
    fetch c (baseUrl c ++ "/a2a") (rpc_body method params (rpcId c + 1)) = Normal res /\
    ok res = true /\ body_json res = Normal response.
Proof.
  unfold rpc. intros H. injection H as H _.
  destruct (fetch c _ _) as [res|e]; [|discriminate H].
  exists res. cbn [bind] in H. destruct (ok res); [|discriminate H]. auto.
Qed.

Lemma rpc_http_error (c : A2AClient) (method : string) (params : json) (res : Response) :
  fetch c (baseUrl c ++ "/a2a") (rpc_body method params (rpcId c + 1)) = Normal res ->
  ok res = false ->
  exists text,
    fst (rpc c method params)
    = Throw (Error ("HTTP " ++ number_to_string (http_status res) ++ ": " ++ text)).
Proof.
  intros Hf Hok. unfold rpc. cbn [fst]. rewrite Hf. cbn [bind]. rewrite Hok.
  eexists. reflexivity.
Qed.




(** The empty-result check of [sendText] and [send]. *)
Lemma send_empty_result (c c' : A2AClient) (response : JsonRpcResponse) :
  error response = None -> result response = None ->
  (forall text ctx,
     rpc c "message/send" (message_params text ctx) = (Normal response, c') ->
     sendText c text ctx = (Throw empty_result_error, c')) /\
  (forall operation params ctx,
     rpc c "message/send" (message_params (operation_envelope operation params) ctx)
     = (Normal response, c') ->
     send c operation (Some params) ctx = (Throw empty_result_error, c')).
Proof.
  intros He Hr. split; intros; unfold sendText, send;
    match goal with H : rpc _ _ _ = _ |- _ => rewrite H end;
    cbn [bind]; rewrite He, Hr; reflexivity.
Qed.

(** [getTask] and [cancelTask] have no such check: on a response with
    neither field they resolve, with no task. *)
Lemma getTask_unchecked (c c' : A2AClient) (response : JsonRpcResponse) (taskId : string) :
  error response = None ->
  (rpc c "tasks/get" (JObj [("id", JStr taskId)]) = (Normal response, c') ->
   getTask c taskId = (Normal (result response), c')) /\
  (rpc c "tasks/cancel" (JObj [("id", JStr taskId)]) = (Normal response, c') ->
   cancelTask c taskId = (Normal (result response), c')).
Proof.
  intros He. split; intros H; unfold getTask, cancelTask; rewrite H;
    cbn [bind]; rewrite He; reflexivity.
Qed.


(** C7, on the code.  On a 2xx response with neither a [result] nor an
    [error], [getTask] does not fail with the empty-result error: it
    resolves with no task, exactly as [cancelTask] does; on the same
    response [sendText] and [send] fail with that error. *)
Theorem getTask_empty_response :
  let c := new_A2AClient "http://localhost:3000" (fetch_always empty_response) in
  fst (getTask c "task-1") = Normal None /\
  fst (getTask c "task-1") <> Throw empty_result_error /\
  fst (cancelTask c "task-1") = Normal None /\
  fst (sendText c "hello" None) = Throw empty_result_error /\
  fst (send c "namespace_list" (Some (JObj [])) None) = Throw empty_result_error.
Proof.
  cbv zeta. split; [reflexivity|]. split; [discriminate|].
  split; [reflexivity|]. split; reflexivity.
Qed.

(** The failures of the transport reach the caller of [send] unchanged: a
    rejected request, and a response outside 2xx as an [HTTP] error. *)
Lemma send_transport_failures (c : A2AClient) (operation : string) (params : json)
    (contextId : option string) :
  let body :=
    rpc_body "message/send"
      (message_params (operation_envelope operation params) contextId) (rpcId c + 1) in
  (forall e,
     fetch c (baseUrl c ++ "/a2a") body = Throw e ->
     fst (send c operation (Some params) contextId) = Throw e) /\
  (forall res,
     fetch c (baseUrl c ++ "/a2a") body = Normal res -> ok res = false ->
     fst (send c operation (Some params) contextId)
     = Throw (Error ("HTTP " ++ number_to_string (http_status res) ++ ": "
                       ++ match body_text res with Normal t => t | Throw _ => "" end))).
Proof.
  cbv zeta. split.
  - intros e H. unfold send, rpc. cbn [fst]. rewrite H. reflexivity.
  - intros res H Hok. unfold send, rpc. cbn [fst]. rewrite H. cbn [bind].
    rewrite Hok. reflexivity.
Qed.

(* ================================================================== *)
(** ** The round trip of send and extractData *)


Lemma eqb_nonempty (s : string) : s <> "" -> (s =? "") = false.
Proof. intros H. now apply String.eqb_neq. Qed.






(* ================================================================== *)
(** ** executeCall and the loop *)

Lemma printCallBottom_null : printCallBottom (Some JNull) = Normal tt.
Proof. reflexivity. Qed.

(** An object renders unless its [data] is a list with a label that cannot
    be converted. *)
Lemma printCallBottom_object (o : list (string * json)) :
  match lookup "data" (filter (fun kv => negb (fst kv =? "message")) o) with
  | Some (JArr _) => False
  | _ => True
  end ->
  printCallBottom (Some (JObj o)) = Normal tt.
Proof.
  unfold printCallBottom, formatResponse, js_in. cbn [get_prop bind field].
  destruct (lookup "data" _) as [[| | | | |]|]; intros H; try contradiction; reflexivity.
Qed.

(** The rendering throws on a string, a number and a boolean: they are no
    right operand for [in]. *)
Lemma printCallBottom_primitive (data : json) :
  match data with JStr _ | JNum _ | JBool _ => True | _ => False end ->
  printCallBottom (Some data)
  = Throw (TypeError ("Cannot use 'in' operator to search for 'data' in "
                        ++ primitive_text (Some data))).
Proof. destruct data; intros H; try contradiction; reflexivity. Qed.


(** A dispatch that throws gives the error payload. *)
Lemma executeCall_failure (operation : string) (params : json) (c c' : A2AClient) (e : exn) :
  send c operation (Some params) None = (Throw e, c') ->
  executeCall operation params c
  = (Normal (JSON_stringify (error_payload (error_message_of e))), c').
Proof. intros H. unfold executeCall. rewrite H. reflexivity. Qed.

(** A dispatch that succeeds with data that renders gives the success
    payload. *)
Lemma executeCall_success (operation : string) (params : json) (c c' : A2AClient)
    (task : A2ATask) :
  send c operation (Some params) None = (Normal task, c') ->
  printCallBottom (Some (extractData task)) = Normal tt ->
  executeCall operation params c
  = (Normal (JSON_stringify_pretty (success_payload task (extractData task))), c').
Proof.
  intros H Hd. unfold executeCall. rewrite H. cbn [try_catch bind]. rewrite Hd. reflexivity.
Qed.

(** A dispatch that succeeds with data whose rendering throws gives an
    error payload: the exception is caught by the [catch] of the call. *)
Lemma executeCall_render_failure (operation : string) (params : json) (c c' : A2AClient)
    (task : A2ATask) (e : exn) :
  send c operation (Some params) None = (Normal task, c') ->
  printCallBottom (Some (extractData task)) = Throw e ->
  executeCall operation params c
  = (Normal (JSON_stringify (error_payload (error_message_of e))), c').
Proof.
  intros H Hd. unfold executeCall. rewrite H. cbn [try_catch bind]. rewrite Hd. reflexivity.
Qed.

(** [executeCall] never throws. *)
Lemma executeCall_returns (operation : string) (params : json) (c : A2AClient) :
  exists text c', executeCall operation params c = (Normal text, c').
Proof.
  destruct (send c operation (Some params) None) as [[task|e] c'] eqn:H.
  - destruct (printCallBottom (Some (extractData task))) as [[]|e] eqn:Hd.
    + do 2 eexists. apply (executeCall_success _ _ _ _ _ H Hd).
    + do 2 eexists. apply (executeCall_render_failure _ _ _ _ _ _ H Hd).
  - do 2 eexists. apply (executeCall_failure _ _ _ _ _ H).
Qed.


(** The dispatch loop never throws, and what it adds to [results] does not
    depend on what [results] held. *)
Lemma dispatch_results (blocks : list ContentBlock) (c : A2AClient) :
  exists added c',
    forall results, dispatch blocks results c = (Normal (results ++ added)%list, c').
Proof.
  revert c. induction blocks as [|b rest IH]; intros c.
  - exists [], c. intros results. cbn. now rewrite List.app_nil_r.
  - destruct b as [t|id [title steps|input|name input]|ty]; cbn [dispatch]; try apply IH.
    + destruct (IH c) as (added & c' & H).
      eexists (_ :: added), c'. intros results. rewrite H, <- List.app_assoc. reflexivity.
    + destruct (executeCall_returns (call_operation input) (params_or_empty input) c)
        as (text & c1 & He).
      rewrite He. destruct (IH c1) as (added & c' & H).
      eexists (_ :: added), c'. intros results. rewrite H, <- List.app_assoc. reflexivity.
Qed.

Lemma runTurn_eq (provider : Provider) (fuel : nat) (w : World) :
  runTurn provider (S fuel) w =
  let log := (inferences w ++ [messages w])%list in
  match provider (messages w) with
  | Throw e => (Threw e, {| a2aClient := a2aClient w; messages := messages w; inferences := log |})
  | Normal response =>
      let msgs := (messages w ++ [AssistantBlocks (message_content response)])%list in
      if stop_reason response =? "end_turn" then
        (Returned, {| a2aClient := a2aClient w; messages := msgs; inferences := log |})
      else if stop_reason response =? "tool_use" then
        match dispatch (message_content response) [] (a2aClient w) with
        | (Normal results, c') =>
            runTurn provider fuel
              {| a2aClient := c';
                 messages := (msgs ++ [UserToolResults results])%list;
                 inferences := log |}
        | (Throw e, c') =>
            (Threw e, {| a2aClient := c'; messages := msgs; inferences := log |})
        end
      else
        runTurn provider fuel {| a2aClient := a2aClient w; messages := msgs; inferences := log |}
  end.
Proof. reflexivity. Qed.

Lemma send_rpcId (c : A2AClient) (operation : string) (params : option json)
    (ctx : option string) :
  snd (send c operation params ctx)
  = {| baseUrl := baseUrl c; fetch := fetch c; rpcId := rpcId c + 1 |}.
Proof. reflexivity. Qed.

Lemma executeCall_client (operation : string) (params : json) (c : A2AClient) :
  snd (executeCall operation params c)
  = {| baseUrl := baseUrl c; fetch := fetch c; rpcId := rpcId c + 1 |}.
Proof. reflexivity. Qed.

(** One pass over the blocks adds one result for each call of a known
    tool, in the order of the blocks, and counts the requests. *)
Lemma dispatch_added (blocks : list ContentBlock) (c : A2AClient)
    (acc : list ToolResultBlockParam) :
  exists added,
    dispatch blocks acc c
    = (Normal (acc ++ added)%list,
       {| baseUrl := baseUrl c; fetch := fetch c; rpcId := rpcId c + count_calls blocks |}) /\
    map tool_use_id added = answered_ids blocks.
Proof.
  revert c acc. induction blocks as [|b rest IH]; intros c acc.
  - exists []. cbn. rewrite List.app_nil_r, Z.add_0_r. destruct c; auto.
  - destruct b as [t|id [title steps|input|name input]|ty];
      cbn [dispatch answered_ids count_calls]; try apply IH.
    + destruct (IH c (acc ++ [{| tool_use_id := id; content := PLAN_ACK |}])%list)
        as (added & H & Hids).
      eexists (_ :: added). rewrite H, <- List.app_assoc. cbn [app map tool_use_id].
      rewrite Hids. auto.
    + destruct (executeCall_returns (call_operation input) (params_or_empty input) c)
        as (text & c1 & He).
      pose proof (executeCall_client (call_operation input) (params_or_empty input) c) as Hc.
      rewrite He in Hc. cbn [snd] in Hc. subst c1. rewrite He.
      destruct (IH {| baseUrl := baseUrl c; fetch := fetch c; rpcId := rpcId c + 1 |}
                   (acc ++ [{| tool_use_id := id; content := text |}])%list)
        as (added & H & Hids).
      eexists (_ :: added). rewrite H, <- List.app_assoc. cbn [app map tool_use_id].
      rewrite Hids. cbn [baseUrl fetch rpcId]. rewrite Z.add_assoc. auto.
Qed.






(** The whole run of the scenario against the failing transport: the loop
    returns after two inference calls, with the error result in the
    conversation. *)
Example demo_run_http_500 :
  runTurn demo_provider 2 (demo_world fetch_500) =
  (Returned,
   {| a2aClient := after_one_call fetch_500;
      messages :=
        [UserText "create a namespace named demo with 2 cores";
         AssistantBlocks (message_content demo_tool_turn);
         UserToolResults
           [{| tool_use_id := "toolu_1"; content := PLAN_ACK |};
            {| tool_use_id := "toolu_2";
               content := "{" ++ q "error" ++ ":" ++ q "HTTP 500: Internal Server Error" ++ "}" |}];
         AssistantBlocks (message_content demo_final_turn)];
      inferences :=
        [[UserText "create a namespace named demo with 2 cores"];
         [UserText "create a namespace named demo with 2 cores";
          AssistantBlocks (message_content demo_tool_turn);
          UserToolResults
            [{| tool_use_id := "toolu_1"; content := PLAN_ACK |};
             {| tool_use_id := "toolu_2";
                content := "{" ++ q "error" ++ ":" ++ q "HTTP 500: Internal Server Error" ++ "}" |}]]] |}).
Proof. vm_compute. reflexivity. Qed.

(** The end-to-end scenario of the specification with structured data: the
    tool result holds the status and the decoded data. *)
Example demo_run_success :
  let text := "{" ++ q "data" ++ ":{" ++ q "id" ++ ":" ++ q "ns-1" ++ "," ++ q "shortId" ++ ":"
                  ++ q "ns1" ++ "," ++ q "name" ++ ":" ++ q "demo" ++ "}}" in
  let transport := fetch_always (response_with (task_with_text text)) in
  exists w,
    runTurn demo_provider 2 (demo_world transport) = (Returned, w) /\
    nth_error (messages w) 2 =
    Some (UserToolResults
            [{| tool_use_id := "toolu_1"; content := PLAN_ACK |};
             {| tool_use_id := "toolu_2";
                content :=
                  JSON_stringify_pretty
                    (JObj [("status", JStr "completed");
                           ("data",
                            JObj [("data",
                                   JObj [("id", JStr "ns-1"); ("shortId", JStr "ns1");
                                         ("name", JStr "demo")])])]) |}]).
Proof. eexists. split; vm_compute; reflexivity. Qed.

(** C8.  When the provider's response to the conversation is a final
    answer ([end_turn], with or without tool calls in it), the loop returns
    in that iteration: one inference call is logged, one assistant message
    is appended, and the client is untouched, so no protocol call was
    made. *)
Theorem final_answer_ends_run
    (provider : Provider) (fuel : nat) (w : World) (response : Message) :
  provider (messages w) = Normal response ->
  stop_reason response = "end_turn" ->
  runTurn provider (S fuel) w =
  (Returned,
   {| a2aClient := a2aClient w;
      messages := (messages w ++ [AssistantBlocks (message_content response)])%list;
      inferences := (inferences w ++ [messages w])%list |}).
Proof.
  intros Hp Hstop. rewrite runTurn_eq. cbv zeta. rewrite Hp, Hstop. reflexivity.
Qed.


Lemma final_answer_ends_run_witness :
  runTurn final_only_provider 1 (demo_world fetch_500) =
  (Returned,
   {| a2aClient := new_A2AClient "http://localhost:3000" fetch_500;
      messages :=
        [UserText "create a namespace named demo with 2 cores";
         AssistantBlocks [TextBlock "done"]];
      inferences := [[UserText "create a namespace named demo with 2 cores"]] |}).
Proof.
  apply (final_answer_ends_run final_only_provider 0 (demo_world fetch_500) demo_final_turn);
    reflexivity.
Defined.

(** Every protocol call moves the request counter, so an untouched client
    has made none. *)
Lemma client_calls_count (c : A2AClient) :
  (forall text ctx, rpcId (snd (sendText c text ctx)) = rpcId c + 1) /\
  (forall operation params ctx, rpcId (snd (send c operation params ctx)) = rpcId c + 1) /\
  (forall taskId, rpcId (snd (getTask c taskId)) = rpcId c + 1) /\
  (forall taskId, rpcId (snd (cancelTask c taskId)) = rpcId c + 1).
Proof. repeat split. Qed.

(** C4, on the code.  A call that succeeds with a task whose text is plain
    text (so that [extractData] is that string) does not produce the payload
    with [status] and [data]: rendering the string throws inside the [try]
    of [executeCall], and the tool result is an error payload. *)
Theorem executeCall_plain_text_reply :
  let task := task_with_text "Namespace demo created." in
  let c := new_A2AClient "http://localhost:3000" (fetch_always (response_with task)) in
  fst (send c "namespace_create" (Some (JObj [])) None) = Normal task /\
  extractData task = JStr "Namespace demo created." /\
  fst (executeCall "namespace_create" (JObj []) c)
  = Normal (JSON_stringify
              (error_payload
                 "Cannot use 'in' operator to search for 'data' in Namespace demo created.")) /\
  fst (executeCall "namespace_create" (JObj []) c)
  <> Normal (JSON_stringify_pretty (success_payload task (extractData task))).
Proof.
  cbv zeta. split; [reflexivity|]. split; [vm_compute; reflexivity|].
  split; [vm_compute; reflexivity|]. vm_compute. discriminate.
Qed.

Lemma star_run_to_end (p : ascii -> bool) (s : string) (caps : captures) :
  star_run p s (fun s' => match s' with "" => Some caps | _ => None end)
  = if all_chars p s then Some caps else None.
Proof.
  induction s as [|c s IH]; [reflexivity|].
  cbn [star_run all_chars]. destruct (p c); [|reflexivity].
  rewrite IH. cbn [andb]. destruct (all_chars p s); reflexivity.
Qed.

Lemma search_from_bol_fails (len : nat) (r : regex) (s : string) :
  (String.length s < len)%nat -> search_from len (Seq Bol r) s = None.
Proof.
  induction s as [|c s IH]; intros H; cbn [search_from rmatch].
  - destruct (Nat.eqb_spec (String.length "") len) as [E|_]; [rewrite E in H; lia | reflexivity].
  - destruct (Nat.eqb_spec (String.length (String c s)) len) as [E|_]; [rewrite E in H; lia|].
    apply IH. cbn [String.length] in H. lia.
Qed.

(** The regular expression of the name pattern accepts exactly the valid
    names. *)
Lemma regex_test_operation_name (s : string) :
  regex_test re_operation_name s = valid_operation_name s.
Proof.
  unfold regex_test, regex_match, re_operation_name. cbn [re_seq].
  destruct s as [|c s]; [reflexivity|].
  cbn [search_from rmatch valid_operation_name]. rewrite Nat.eqb_refl.
  destruct (is_lower c); cbn [andb].
  - change (fun s' : string => rmatch (String.length (String c s)) Eol s' [] (fun _ caps => Some caps))
      with (fun s' : string => match s' with "" => Some (@nil (nat * string)) | _ => None end).
    rewrite star_run_to_end.
    destruct (all_chars is_lower_or_underscore s); [reflexivity|].
    rewrite search_from_bol_fails; [reflexivity | cbn; lia].
  - rewrite search_from_bol_fails; [reflexivity | cbn; lia].
Qed.

Lemma display_table_line_valid (line : string) :
  Forall (fun op => valid_operation_name (operation op) = true) (display_table_line line).
Proof.
  unfold display_table_line.
  destruct (_ || _); [constructor|].
  destruct (negb _); [constructor|].
  destruct (filter _ _) as [|c0 [|c1 rest]]; try constructor.
  destruct (regex_test re_operation_name (remove_backticks c0)) eqn:E; constructor.
  - cbn [operation]. now rewrite <- regex_test_operation_name.
  - constructor.
Qed.

(** What [fetchOperationsWithDisplay] returns holds only valid names: the
    parser of [agent.ts] tests each name against the pattern. *)
Lemma fetchOperationsWithDisplay_valid (c c' : A2AClient) (ops : list OperationInfo) :
  fetchOperationsWithDisplay c = (Normal ops, c') ->
  Forall (fun op => valid_operation_name (operation op) = true) ops.
Proof.
  unfold fetchOperationsWithDisplay.
  destruct (sendText c OPERATIONS_QUERY None) as [[task|e] c1]; cbn [bind];
    [|intros H; discriminate H].
  destruct (display_reply task) as [[[| | |s| |]|]|e]; cbn [bind];
    intros H; try discriminate H.
  injection H as <- _. apply Forall_flat_map, Forall_forall.
  intros line _. apply display_table_line_valid.
Qed.

(** C6, on the code.  [fetchOperations] keeps names that do not match the
    pattern: whatever stands between backticks in the first format, and a
    name that starts with an underscore in the second. *)
Theorem fetchOperations_keeps_invalid_names :
  let reply := "| `deploy_v2` | name, image | Deploy a new version |" ++ LF
               ++ "| | _internal | token |" in
  let text := JSON_stringify (JObj [("data", JObj [("reply", JStr reply)])]) in
  let c := new_A2AClient "http://localhost:3000"
             (fetch_always (response_with (task_with_text text))) in
  fst (fetchOperations c)
  = [{| operation := "deploy_v2"; params := "name, image";
        description := "Deploy a new version" |};
     {| operation := "_internal"; params := "token"; description := "" |}] /\
  regex_test re_operation_name "deploy_v2" = false /\
  regex_test re_operation_name "_internal" = false /\
  fst (fetchOperationsWithDisplay c) = Normal [].
Proof. cbv zeta. repeat split; vm_compute; reflexivity. Qed.

(* ================================================================== *)
(** * Further properties of the code *)

(* ================================================================== *)
(** ** The requests of the client *)

Lemma js_value_message_params (text : string) (ctx : option string) :
  js_value (message_params text ctx).
Proof.
  unfold js_value, message_params, with_contextId.
  destruct ctx as [s|]; [destruct (negb (s =? ""))|]; reflexivity.
Qed.

Lemma js_value_request (method : string) (params : json) (id : Z) :
  js_value params ->
  js_value (JObj [("jsonrpc", JStr "2.0"); ("method", JStr method);
                  ("params", params); ("id", JNum id)]).
Proof.
  unfold js_value. intros H. cbn [normalize map fst snd]. rewrite H. reflexivity.
Qed.

Lemma rpc_body_decodes (method : string) (params : json) (id : Z) :
  js_value params ->
  JSON_parse (rpc_body method params id)
  = Some (JObj [("jsonrpc", JStr "2.0"); ("method", JStr method);
                ("params", params); ("id", JNum id)]).
Proof.
  intros H. unfold rpc_body. apply JSON_parse_stringify_value.
  now apply js_value_request.
Qed.

(** X1.  What each call posts.  On a client of base URL [base] that has
    counted [n] requests, [sendText], [send], [getTask] and [cancelTask]
    each call the transport once, on the URL [base/a2a] and a body that is
    JSON text for the JSON-RPC request of id [n + 1]: the method
    [message/send] with the user message holding the text (for [send],
    the encoding of [{ operation, params }]) and a [contextId] member only
    when the context id is a non-empty string, or the method [tasks/get] or
    [tasks/cancel] with the task id.  What the call gives is decided by
    the answer to that request alone. *)
Theorem requests_posted (base : string) (n : Z) :
  0 <= n < MAX_SAFE_INTEGER ->
  let url := base ++ "/a2a" in
  let client (f : Fetch) := {| baseUrl := base; fetch := f; rpcId := n |} in
  let request (method : string) (params : json) :=
    JObj [("jsonrpc", JStr "2.0"); ("method", JStr method); ("params", params);
          ("id", JNum (n + 1))] in
  let message (text : string) (ctx : option string) :=
    JObj (("message",
           JObj [("role", JStr "user");
                 ("parts", JArr [JObj [("kind", JStr "text"); ("text", JStr text)]])])
          :: match ctx with
             | Some s => if s =? "" then [] else [("contextId", JStr s)]
             | None => []
             end) in
  (forall text ctx, exists body handle,
     JSON_parse body = Some (request "message/send" (message text ctx)) /\
     forall f, fst (sendText (client f) text ctx) = (res <- f url body ;; handle res)) /\
  (forall operation params ctx,
     js_value params ->
     exact_json (JObj [("operation", JStr operation); ("params", params)]) = true ->
     exists body handle,
       JSON_parse body
       = Some (request "message/send"
                 (message (JSON_stringify (JObj [("operation", JStr operation);
                                                 ("params", params)])) ctx)) /\
       forall f,
         fst (send (client f) operation (Some params) ctx)
         = (res <- f url body ;; handle res)) /\
  (forall taskId, exists body handle,
     JSON_parse body = Some (request "tasks/get" (JObj [("id", JStr taskId)])) /\
     forall f, fst (getTask (client f) taskId) = (res <- f url body ;; handle res)) /\
  (forall taskId, exists body handle,
     JSON_parse body = Some (request "tasks/cancel" (JObj [("id", JStr taskId)])) /\
     forall f, fst (cancelTask (client f) taskId) = (res <- f url body ;; handle res)).
Proof.
  intros _. cbv zeta.
  assert (Hm : forall text ctx,
             message_params text ctx
             = JObj (("message",
                      JObj [("role", JStr "user");
                            ("parts",
                             JArr [JObj [("kind", JStr "text"); ("text", JStr text)]])])
                     :: match ctx with
                        | Some s => if s =? "" then [] else [("contextId", JStr s)]
                        | None => []
                        end)).
  { intros text ctx. unfold message_params, with_contextId.
    destruct ctx as [s|]; [destruct (s =? "")|]; reflexivity. }
  split; [|split; [|split]].
  - intros text ctx. eexists (rpc_body "message/send" (message_params text ctx) (n + 1)), _.
    split.
    + rewrite rpc_body_decodes by apply js_value_message_params. now rewrite Hm.
    + intros f. unfold sendText, rpc. cbn [fst baseUrl fetch rpcId].
      destruct (f _ _) as [res|e]; cbn [bind]; [|reflexivity].
      instantiate (1 := fun res =>
        response <- (if negb (ok res)
                     then Throw (Error ("HTTP " ++ number_to_string (http_status res) ++ ": "
                                          ++ match body_text res with
                                             | Normal t => t
                                             | Throw _ => ""
                                             end))
                     else body_json res) ;;
        match error response with
        | Some e => Throw (protocol_error e)
        | None => match result response with
                  | None => Throw empty_result_error
                  | Some task => Normal task
                  end
        end).
      reflexivity.
  - intros operation params ctx _ _.
    eexists (rpc_body "message/send"
               (message_params (operation_envelope operation params) ctx) (n + 1)), _.
    split.
    + rewrite rpc_body_decodes by apply js_value_message_params. now rewrite Hm.
    + intros f. unfold send, rpc. cbn [fst baseUrl fetch rpcId].
      destruct (f _ _) as [res|e]; cbn [bind]; [|reflexivity].
      instantiate (1 := fun res =>
        response <- (if negb (ok res)
                     then Throw (Error ("HTTP " ++ number_to_string (http_status res) ++ ": "
                                          ++ match body_text res with
                                             | Normal t => t
                                             | Throw _ => ""
                                             end))
                     else body_json res) ;;
        match error response with
        | Some e => Throw (protocol_error e)
        | None => match result response with
                  | None => Throw empty_result_error
                  | Some task => Normal task
                  end
        end).
      reflexivity.
  - intros taskId. eexists (rpc_body "tasks/get" (JObj [("id", JStr taskId)]) (n + 1)), _.
    split; [now apply rpc_body_decodes|].
    intros f. unfold getTask, rpc. cbn [fst baseUrl fetch rpcId].
    destruct (f _ _) as [res|e]; cbn [bind]; [|reflexivity].
    instantiate (1 := fun res =>
      response <- (if negb (ok res)
                   then Throw (Error ("HTTP " ++ number_to_string (http_status res) ++ ": "
                                        ++ match body_text res with
                                           | Normal t => t
                                           | Throw _ => ""
                                           end))
                   else body_json res) ;;
      match error response with
      | Some e => Throw (protocol_error e)
      | None => Normal (result response)
      end).
    reflexivity.
  - intros taskId. eexists (rpc_body "tasks/cancel" (JObj [("id", JStr taskId)]) (n + 1)), _.
    split; [now apply rpc_body_decodes|].
    intros f. unfold cancelTask, rpc. cbn [fst baseUrl fetch rpcId].
    destruct (f _ _) as [res|e]; cbn [bind]; [|reflexivity].
    instantiate (1 := fun res =>
      response <- (if negb (ok res)
                   then Throw (Error ("HTTP " ++ number_to_string (http_status res) ++ ": "
                                        ++ match body_text res with
                                           | Normal t => t
                                           | Throw _ => ""
                                           end))
                   else body_json res) ;;
      match error response with
      | Some e => Throw (protocol_error e)
      | None => Normal (result response)
      end).
    reflexivity.
Qed.

Lemma requests_posted_witness :
  exists body handle,
    JSON_parse body
    = Some (JObj [("jsonrpc", JStr "2.0"); ("method", JStr "tasks/get");
                  ("params", JObj [("id", JStr "task-1")]); ("id", JNum 1)]) /\
    forall f,
      fst (getTask {| baseUrl := "http://localhost:3000"; fetch := f; rpcId := 0 |} "task-1")
      = (res <- f "http://localhost:3000/a2a" body ;; handle res).
Proof.
  assert (H : 0 <= 0 < MAX_SAFE_INTEGER) by (unfold MAX_SAFE_INTEGER; lia).
  destruct (requests_posted "http://localhost:3000" 0 H) as (_ & _ & Hget & _).
  exact (Hget "task-1").
Defined.

(** X2.  [send] resolves with a task exactly when the transport answered
    the request (posted to the [/a2a] path of the base URL, with the next
    request id) with a 2xx response whose body decoded to a response with
    no [error] and that task as [result]; the client has then counted one
    request more. *)
Theorem send_resolves_iff (c c' : A2AClient) (operation : string) (params : json)
    (ctx : option string) (task : A2ATask) :
  send c operation (Some params) ctx = (Normal task, c') <->
  (exists res response,
     fetch c (baseUrl c ++ "/a2a")
       (rpc_body "message/send"
          (message_params (operation_envelope operation params) ctx) (rpcId c + 1))
     = Normal res /\
     ok res = true /\ body_json res = Normal response /\
     error response = None /\ result response = Some task) /\
  c' = {| baseUrl := baseUrl c; fetch := fetch c; rpcId := rpcId c + 1 |}.
Proof.
  unfold send, rpc. split.
  - intros H. injection H as H <-. split; [|reflexivity].
    destruct (fetch c _ _) as [res|e]; [|discriminate H]. cbn [bind] in H.
    destruct (ok res) eqn:Hok; [|discriminate H]. cbn [negb] in H.
    destruct (body_json res) as [response|e] eqn:Hj; [|discriminate H]. cbn [bind] in H.
    destruct (error response) eqn:He; [discriminate H|].
    destruct (result response) as [t|] eqn:Hr; [|discriminate H].
    injection H as ->. exists res, response. auto.
  - intros [(res & response & Hf & Hok & Hj & He & Hr) ->].
    rewrite Hf. cbn [bind]. rewrite Hok. cbn [negb]. rewrite Hj. cbn [bind].
    rewrite He, Hr. reflexivity.
Qed.

Lemma send_resolves_iff_witness :
  let task := task_with_text "{}" in
  let c := new_A2AClient "http://localhost:3000" (fetch_always (response_with task)) in
  send c "namespace_list" (Some (JObj [])) None
  = (Normal task, {| baseUrl := baseUrl c; fetch := fetch c; rpcId := rpcId c + 1 |}).
Proof.
  intros task c.
  apply (send_resolves_iff c _ "namespace_list" (JObj []) None task).
  split; [|reflexivity].
  exists {| ok := true; http_status := 200; body_text := Normal "";
            body_json := Normal (response_with task) |}, (response_with task).
  repeat split.
Defined.



Lemma strip_trailing_slash_app (s : string) : strip_trailing_slash (s ++ "/") = s.
Proof.
  induction s as [|c s IH]; [reflexivity|].
  cbn [append strip_trailing_slash]. rewrite IH.
  destruct s; reflexivity.
Qed.

Lemma strip_trailing_slash_cases (s : string) :
  strip_trailing_slash s = s \/ s = strip_trailing_slash s ++ "/".
Proof.
  induction s as [|c s IH]; [now left|].
  cbn [strip_trailing_slash]. destruct s as [|d s].
  - destruct (code c =? 47)%N eqn:E; [right | now left].
    apply N.eqb_eq in E. unfold code in E.
    rewrite <- (ascii_N_embedding c), E. reflexivity.
  - destruct IH as [IH|IH]; [left | right]; cbn [append]; congruence.
Qed.

(** X4.  The constructor removes exactly one trailing slash of the base
    URL: a base URL written with a slash at its end gives the client of the
    same URL without it, and any other base URL is kept as it is. *)
Theorem base_url_trailing_slash (s : string) (f : Fetch) :
  baseUrl (new_A2AClient (s ++ "/") f) = s /\
  (baseUrl (new_A2AClient s f) = s \/ s = baseUrl (new_A2AClient s f) ++ "/").
Proof.
  split; [apply strip_trailing_slash_app | apply strip_trailing_slash_cases].
Qed.

(* ================================================================== *)
(** ** What the extractors read *)

Lemma extractText_try_string (text s : string) :
  JSON_parse text = Some (JStr s) -> extractText_try text = Normal s.
Proof. intros H. unfold extractText_try, JSON_parse_c. rewrite H. reflexivity. Qed.

(** X5.  Whenever [extractData] gives a string (the text did not parse as
    JSON, or parsed to a JSON string), [extractText] gives the same
    string. *)
Theorem extractText_agrees_on_strings (task : A2ATask) (s : string) :
  extractData task = JStr s -> extractText task = Normal s.
Proof.
  rewrite extractData_rawText, extractText_rawText.
  destruct (rawText_of task) as [text|]; [|discriminate].
  destruct (text =? ""); [discriminate|].
  destruct (JSON_parse text) as [parsed|] eqn:E.
  - intros ->. now rewrite (extractText_try_string _ _ E).
  - intros H. injection H as <-.
    destruct (extractText_try_syntax_error _ E) as (e & ->). reflexivity.
Qed.

Lemma extractText_agrees_on_strings_witness :
  extractText (task_with_text "Namespace demo created.") = Normal "Namespace demo created.".
Proof.
  apply (extractText_agrees_on_strings (task_with_text "Namespace demo created.")).
  vm_compute. reflexivity.
Defined.

(** X6.  When the text is JSON for an exact value that is neither [null]
    nor a string and has neither a [message] nor a [data] member (an
    array, a number, a boolean, an object without these keys),
    [extractText] gives the value printed with an indent of two, and that
    text decodes again to what [extractData] gives. *)
Theorem extractText_fallback_decodes (task : A2ATask) (text : string) (parsed : json) :
  rawText_of task = Some text ->
  JSON_parse text = Some parsed ->
  exact_json parsed = true ->
  match parsed with JNull | JStr _ => False | _ => True end ->
  field parsed "message" = None ->
  field parsed "data" = None ->
  extractText task = Normal (JSON_stringify_pretty parsed) /\
  JSON_parse (JSON_stringify_pretty parsed) = Some (extractData task).
Proof.
  intros Hraw Hp _ Hk Hm Hd.
  assert (Ht : (text =? "") = false).
  { destruct text; [discriminate Hp | reflexivity]. }
  rewrite extractText_rawText, extractData_rawText, Hraw, Ht, Hp. split.
  - unfold extractText_try, JSON_parse_c. rewrite Hp. cbn [bind].
    destruct parsed as [|b|n|s|items|members]; try contradiction; try reflexivity.
    cbn [field] in Hm, Hd. cbn [get_prop bind]. rewrite Hm, Hd. reflexivity.
  - rewrite JSON_parse_stringify_pretty. f_equal. now apply (JSON_parse_js_value text).
Qed.

Lemma extractText_fallback_decodes_witness :
  let task := task_with_text "[1,2]" in
  extractText task = Normal (JSON_stringify_pretty (JArr [JNum 1; JNum 2])) /\
  JSON_parse (JSON_stringify_pretty (JArr [JNum 1; JNum 2])) = Some (extractData task).
Proof.
  apply (extractText_fallback_decodes (task_with_text "[1,2]") "[1,2]" (JArr [JNum 1; JNum 2]));
    try reflexivity; exact I.
Defined.

Lemma find_text_part_app (before after : list Part) (p : Part) :
  forallb (fun x => negb (kind x =? "text")) before = true ->
  kind p = "text" ->
  find_text_part (before ++ p :: after)%list = Some p.
Proof.
  intros Hb Hp. unfold find_text_part. induction before as [|x before IH].
  - cbn. now rewrite Hp.
  - cbn [forallb] in Hb. apply andb_prop in Hb as [Hx Hb]. cbn [app find].
    apply negb_true_iff in Hx. rewrite Hx. now apply IH.
Qed.

(** X7.  [extractText] and [extractData] read a task only through the text
    of the first text-kind part of its first artifact: the parts of other
    kinds before it, the parts after it, the other artifacts, the status,
    the history and the metadata never change what they give. *)
Theorem extract_reads_first_text_part
    (task : A2ATask) (first : Artifact) (rest : list Artifact)
    (before after : list Part) (p : Part) :
  artifacts task = Some (first :: rest) ->
  parts first = (before ++ p :: after)%list ->
  forallb (fun x => negb (kind x =? "text")) before = true ->
  kind p = "text" ->
  extractText task = extractText (task_with_text (text p)) /\
  extractData task = extractData (task_with_text (text p)).
Proof.
  intros Ha Hparts Hb Hp.
  assert (Hraw : rawText_of task = rawText_of (task_with_text (text p))).
  { unfold rawText_of. rewrite Ha, Hparts, (find_text_part_app _ _ _ Hb Hp). reflexivity. }
  now rewrite !extractText_rawText, !extractData_rawText, Hraw.
Qed.

Lemma extract_reads_first_text_part_witness :
  extractText two_artifact_task = extractText (task_with_text "first") /\
  extractData two_artifact_task = extractData (task_with_text "first").
Proof.
  apply (extract_reads_first_text_part two_artifact_task
           {| artifactId := "artifact-1"; name := "result";
              parts := [{| kind := "data"; text := "ignored" |};
                        {| kind := "text"; text := "first" |};
                        {| kind := "text"; text := "second" |}] |}
           [{| artifactId := "artifact-2"; name := "more";
               parts := [{| kind := "text"; text := "third" |}] |}]
           [{| kind := "data"; text := "ignored" |}]
           [{| kind := "text"; text := "second" |}]
           {| kind := "text"; text := "first" |}); reflexivity.
Defined.

(* ================================================================== *)
(** ** The two readers of the operation table *)

(** *** White space *)

(** Every character of the class \s is white space of the embedding. *)
Lemma white_space_characters :
  forallb (fun cp => all_space (utf8 cp))
    [9; 10; 11; 12; 13; 32; 160; 5760; 8192; 8193; 8194; 8195; 8196; 8197; 8198; 8199;
     8200; 8201; 8202; 8232; 8233; 8239; 8287; 12288; 65279]%N = true.
Proof. vm_compute. reflexivity. Qed.

Lemma space_fold_eq {A} (step : string -> A -> A) (stop : string -> A) (s : string) :
  space_fold step stop s
  = match space_prefix s with
    | Some r => step s (space_fold step stop r)
    | None => stop s
    end.
Proof.
  destruct s as [|a [|b [|c r]]]; cbn [space_fold space_prefix]; try reflexivity.
  - destruct (is_space a); reflexivity.
  - destruct (is_space a); [reflexivity|]. destruct (is_space2 a b); reflexivity.
  - destruct (is_space a); [reflexivity|]. destruct (is_space2 a b); [reflexivity|].
    destruct (is_space3 a b c); reflexivity.
Qed.

Lemma trim_left_eq (s : string) :
  trim_left s = match space_prefix s with Some r => trim_left r | None => s end.
Proof. exact (space_fold_eq (fun _ rest => rest) (fun s' => s') s). Qed.

Lemma all_space_eq (s : string) :
  all_space s
  = match space_prefix s with
    | Some r => all_space r
    | None => match s with "" => true | _ => false end
    end.
Proof.
  exact (space_fold_eq (fun _ rest => rest)
           (fun s' => match s' with "" => true | _ => false end) s).
Qed.

Lemma space_run_eq {A} (s : string) (k : string -> option A) :
  space_run s k
  = match space_prefix s with
    | Some r => match space_run r k with Some x => Some x | None => k s end
    | None => k s
    end.
Proof.
  exact (space_fold_eq
           (fun s' longer => match longer with Some r => Some r | None => k s' end) k s).
Qed.

Lemma is_space_ascii (c : ascii) : is_space c = true -> (code c < 128)%N.
Proof.
  unfold is_space. intros H. apply orb_prop in H as [H|H].
  - apply andb_prop in H as [_ H]. apply N.leb_le in H. lia.
  - apply N.eqb_eq in H. lia.
Qed.

Lemma is_space2_bytes (a b : ascii) :
  is_space2 a b = true -> (128 <= code a /\ 128 <= code b)%N.
Proof.
  unfold is_space2. intros H. apply andb_prop in H as [Ha Hb].
  apply N.eqb_eq in Ha, Hb. lia.
Qed.

Ltac bool_hyps :=
  repeat match goal with
         | H : (_ || _) = true |- _ => apply orb_prop in H as [H|H]
         | H : (_ && _) = true |- _ =>
             let H1 := fresh H in apply andb_prop in H as [H H1]
         | H : (_ =? _)%N = true |- _ => apply N.eqb_eq in H
         | H : (_ <=? _)%N = true |- _ => apply N.leb_le in H
         end.

Lemma is_space3_bytes (a b c : ascii) :
  is_space3 a b c = true -> (128 <= code a /\ 128 <= code b /\ 128 <= code c)%N.
Proof. unfold is_space3. intros H. bool_hyps; lia. Qed.

Lemma not_true_false (b : bool) : (b = true -> False) -> b = false.
Proof. destruct b; [intros H; now destruct H | reflexivity]. Qed.

Lemma space_prefix_length (s r : string) :
  space_prefix s = Some r -> (String.length r < String.length s)%nat.
Proof.
  destruct s as [|a [|b [|c t]]]; cbn [space_prefix]; try discriminate.
  - destruct (is_space a); [|discriminate]. intros H. injection H as <-. cbn. lia.
  - destruct (is_space a); [intros H; injection H as <-; cbn; lia|].
    destruct (is_space2 a b); [|discriminate]. intros H. injection H as <-. cbn. lia.
  - destruct (is_space a); [intros H; injection H as <-; cbn; lia|].
    destruct (is_space2 a b); [intros H; injection H as <-; cbn; lia|].
    destruct (is_space3 a b c); [|discriminate]. intros H. injection H as <-. cbn. lia.
Qed.

Lemma space_prefix_space (c : ascii) (s : string) :
  is_space c = true -> space_prefix (String c s) = Some s.
Proof. intros H. cbn [space_prefix]. now rewrite H. Qed.

Lemma space_prefix_plain (a : ascii) (r : string) :
  (code a < 128)%N -> is_space a = false -> space_prefix (String a r) = None.
Proof.
  intros Ha Hs. cbn [space_prefix]. rewrite Hs.
  destruct r as [|b [|c t]]; [reflexivity| |].
  - rewrite (not_true_false (is_space2 a b)); [reflexivity|].
    intros H. apply is_space2_bytes in H. lia.
  - rewrite (not_true_false (is_space2 a b)) by (intros H; apply is_space2_bytes in H; lia).
    rewrite (not_true_false (is_space3 a b c)); [reflexivity|].
    intros H. apply is_space3_bytes in H. lia.
Qed.

Lemma space_prefix_app_some (s r t : string) :
  space_prefix s = Some r -> space_prefix (s ++ t) = Some (r ++ t).
Proof.
  destruct s as [|a [|b [|c u]]]; cbn [space_prefix append]; try discriminate.
  - destruct (is_space a); [|discriminate]. intros H. now injection H as <-.
  - destruct (is_space a); [intros H; now injection H as <-|].
    destruct (is_space2 a b); [|discriminate]. intros H. now injection H as <-.
  - destruct (is_space a); [intros H; now injection H as <-|].
    destruct (is_space2 a b); [intros H; now injection H as <-|].
    destruct (is_space3 a b c); [|discriminate]. intros H. now injection H as <-.
Qed.

Lemma space_prefix_app_none (s t : string) :
  space_prefix s = None -> plain_head t -> space_prefix (s ++ t) = None \/ s = "".
Proof.
  intros Hs Ht. destruct s as [|a [|b [|c u]]]; [now right | left; revert Hs ..].
  - cbn [space_prefix append]. destruct (is_space a); [discriminate|]. intros _.
    destruct t as [|x [|y t]]; [reflexivity| |]; cbn in Ht.
    + rewrite (not_true_false (is_space2 a x)); [reflexivity|].
      intros H. apply is_space2_bytes in H. lia.
    + rewrite (not_true_false (is_space2 a x)) by (intros H; apply is_space2_bytes in H; lia).
      rewrite (not_true_false (is_space3 a x y)); [reflexivity|].
      intros H. apply is_space3_bytes in H. lia.
  - cbn [space_prefix append]. destruct (is_space a); [discriminate|].
    destruct (is_space2 a b); [discriminate|]. intros _.
    destruct t as [|x t]; [reflexivity|]. cbn in Ht.
    rewrite (not_true_false (is_space3 a b x)); [reflexivity|].
    intros H. apply is_space3_bytes in H. lia.
  - cbn [space_prefix append]. destruct (is_space a); [discriminate|].
    destruct (is_space2 a b); [discriminate|].
    destruct (is_space3 a b c); [discriminate | reflexivity].
Qed.

Lemma space_prefix_app (s t : string) :
  s <> "" -> space_prefix s = None -> plain_head t -> space_prefix (s ++ t) = None.
Proof. intros Hne Hs Ht. destruct (space_prefix_app_none s t Hs Ht); congruence. Qed.

Lemma plain_head_spaces (w t : string) :
  all_chars is_space w = true -> plain_head t -> plain_head (w ++ t).
Proof.
  destruct w as [|c w]; [auto|]. cbn [all_chars append plain_head]. intros H _.
  apply andb_prop in H as [H _]. now apply is_space_ascii.
Qed.

Lemma plain_spaces (w : string) : all_chars is_space w = true -> plain_head w.
Proof.
  destruct w as [|c w]; [easy|]. cbn [all_chars plain_head]. intros H.
  apply andb_prop in H as [H _]. now apply is_space_ascii.
Qed.

(** Induction on the length of a text. *)
Lemma length_ind (P : string -> Prop) :
  (forall s, (forall r, (String.length r < String.length s)%nat -> P r) -> P s) ->
  forall s, P s.
Proof.
  intros H s. remember (String.length s) as n eqn:E. revert s E.
  induction n as [n IH] using lt_wf_ind. intros s ->. apply H. intros r Hr.
  now apply (IH (String.length r)).
Qed.

Lemma trim_left_length (s : string) : (String.length (trim_left s) <= String.length s)%nat.
Proof.
  induction s as [s IH] using length_ind. rewrite trim_left_eq.
  destruct (space_prefix s) as [r|] eqn:E; [|lia].
  apply space_prefix_length in E. specialize (IH r E). lia.
Qed.

Lemma trim_left_fixed (s : string) : space_prefix s = None -> trim_left s = s.
Proof. intros H. now rewrite trim_left_eq, H. Qed.

Lemma trim_left_spaces_app (w s : string) :
  all_chars is_space w = true -> trim_left (w ++ s) = trim_left s.
Proof.
  induction w as [|c w IH]; [reflexivity|]. cbn [all_chars append]. intros H.
  apply andb_prop in H as [Hc Hw]. now rewrite trim_left_eq, space_prefix_space, IH.
Qed.

Lemma all_space_spaces (w : string) : all_chars is_space w = true -> all_space w = true.
Proof.
  induction w as [|c w IH]; [reflexivity|]. cbn [all_chars]. intros H.
  apply andb_prop in H as [Hc Hw]. now rewrite all_space_eq, space_prefix_space, IH.
Qed.

Lemma all_space_app_spaces (s w : string) :
  all_chars is_space w = true -> all_space (s ++ w) = all_space s.
Proof.
  intros Hw. induction s as [s IH] using length_ind.
  destruct s as [|a s']; [cbn [append]; now apply all_space_spaces|].
  remember (String a s') as s eqn:Es.
  rewrite (all_space_eq s). destruct (space_prefix s) as [r|] eqn:E.
  - rewrite all_space_eq, (space_prefix_app_some _ _ w E).
    apply IH. now apply space_prefix_length in E.
  - rewrite all_space_eq, space_prefix_app; [subst s; reflexivity | subst s; discriminate
                                            | exact E | now apply plain_spaces].
Qed.

Lemma all_space_plain (s : string) (c : ascii) (t : string) :
  (code c < 128)%N -> is_space c = false -> all_space (s ++ String c t) = false.
Proof.
  intros Hc Hs. induction s as [s IH] using length_ind.
  destruct s as [|a s']; [cbn [append]; now rewrite all_space_eq, space_prefix_plain|].
  remember (String a s') as s eqn:Es.
  destruct (space_prefix s) as [r|] eqn:E.
  - rewrite all_space_eq, (space_prefix_app_some _ _ _ E).
    apply IH. now apply space_prefix_length in E.
  - rewrite all_space_eq, space_prefix_app; [subst s; reflexivity | subst s; discriminate
                                            | exact E | exact Hc].
Qed.

Lemma trim_right_spaces (w : string) : all_space w = true -> trim_right w = "".
Proof. destruct w as [|c w]; [reflexivity|]. cbn [trim_right]. now intros ->. Qed.

Lemma trim_right_app_spaces (s w : string) :
  all_chars is_space w = true -> trim_right (s ++ w) = trim_right s.
Proof.
  intros Hw. induction s as [|c s IH].
  - cbn [append]. now apply trim_right_spaces, all_space_spaces.
  - cbn [append trim_right]. change (String c (s ++ w)) with (String c s ++ w).
    now rewrite all_space_app_spaces, IH.
Qed.

Lemma trim_right_length (s : string) : (String.length (trim_right s) <= String.length s)%nat.
Proof.
  induction s as [|c s IH]; [reflexivity|]. cbn [trim_right].
  destruct (all_space _); cbn [String.length]; lia.
Qed.

Lemma trim_right_last (s : string) (c : ascii) :
  (code c < 128)%N -> is_space c = false ->
  trim_right (s ++ String c "") = s ++ String c "".
Proof.
  intros Hc Hs. induction s as [|a s IH].
  - cbn [append trim_right]. change (String c "") with ("" ++ String c "") at 1.
    now rewrite all_space_plain.
  - cbn [append trim_right]. change (String a (s ++ String c "")) with (String a s ++ String c "") at 1.
    now rewrite all_space_plain, IH.
Qed.

(** A text [trim] leaves as it is has no white space at its head and none
    at its end. *)
Lemma trim_fixed (s : string) :
  trim s = s -> s <> "" -> space_prefix s = None /\ trim_right s = s.
Proof.
  unfold trim. intros Ht Hne.
  pose proof (trim_right_length (trim_left s)) as L1.
  pose proof (trim_left_length s) as L2. rewrite Ht in L1.
  assert (Hp : space_prefix s = None).
  { destruct (space_prefix s) as [r|] eqn:E; [|reflexivity]. exfalso.
    rewrite trim_left_eq, E in L1. pose proof (trim_left_length r) as L3.
    apply space_prefix_length in E. lia. }
  split; [exact Hp|]. now rewrite (trim_left_fixed s Hp) in Ht.
Qed.

Lemma trim_padded (w1 s w2 : string) :
  all_chars is_space w1 = true -> all_chars is_space w2 = true ->
  s <> "" -> space_prefix s = None -> trim_right s = s ->
  trim (w1 ++ s ++ w2) = s.
Proof.
  intros H1 H2 Hne Hs Ht. unfold trim. rewrite trim_left_spaces_app by assumption.
  rewrite trim_left_fixed.
  - now rewrite trim_right_app_spaces.
  - apply space_prefix_app; auto. now apply plain_spaces.
Qed.

Lemma trim_spaces (w : string) : all_chars is_space w = true -> trim w = "".
Proof.
  intros H. unfold trim. rewrite <- (append_nil_r w), trim_left_spaces_app by exact H.
  reflexivity.
Qed.

(** The white-space pattern takes all the white space there is. *)
Lemma space_run_greedy {A} (w r : string) (k : string -> option A) (x : A) :
  all_chars is_space w = true -> space_prefix r = None -> k r = Some x ->
  space_run (w ++ r) k = Some x.
Proof.
  intros Hw Hr Hk. induction w as [|c w IH].
  - cbn [append]. now rewrite space_run_eq, Hr.
  - cbn [all_chars] in Hw. apply andb_prop in Hw as [Hc Hw].
    cbn [append]. rewrite space_run_eq, space_prefix_space by exact Hc.
    now rewrite (IH Hw).
Qed.

Lemma rmatch_spaces (len : nat) (w r : string) (caps : captures)
    (k : string -> captures -> option captures) (x : captures) :
  all_chars is_space w = true -> space_prefix r = None -> k r caps = Some x ->
  rmatch len Spaces (w ++ r) caps k = Some x.
Proof. intros Hw Hr Hk. cbn [rmatch]. now apply space_run_greedy. Qed.

(** [trim] takes the no-break space and the em space as it takes the
    space. *)
Lemma trim_no_break_space :
  trim (utf8 160 ++ "List namespaces" ++ utf8 160 ++ utf8 8195) = "List namespaces".
Proof. vm_compute. reflexivity. Qed.

(** *** Greedy matches of the patterns *)

Lemma star_run_greedy {A} (p : ascii -> bool) (w r : string) (k : string -> option A) (x : A) :
  all_chars p w = true -> stops p r -> k r = Some x -> star_run p (w ++ r) k = Some x.
Proof.
  intros Hw Hr Hk. induction w as [|c w IH].
  - cbn [append]. destruct r as [|c r]; cbn [star_run]; [exact Hk|].
    cbn in Hr. now rewrite Hr.
  - cbn [all_chars] in Hw. apply andb_prop in Hw as [Hc Hw].
    cbn [append star_run]. rewrite Hc, (IH Hw). reflexivity.
Qed.

Lemma rmatch_star (len : nat) (p : ascii -> bool) (w r : string) (caps : captures)
    (k : string -> captures -> option captures) (x : captures) :
  all_chars p w = true -> stops p r -> k r caps = Some x ->
  rmatch len (Star p) (w ++ r) caps k = Some x.
Proof. intros Hw Hr Hk. cbn [rmatch]. now apply star_run_greedy. Qed.

Lemma take_app (w r : string) : take (String.length (w ++ r) - String.length r) (w ++ r) = w.
Proof.
  rewrite length_append. replace (_ + _ - _)%nat with (String.length w) by lia.
  induction w as [|c w IH]; cbn [append String.length take].
  - destruct r; reflexivity.
  - now rewrite IH.
Qed.

Lemma rmatch_group_plus (len n : nat) (p : ascii -> bool) (w r : string) (caps : captures)
    (k : string -> captures -> option captures) (x : captures) :
  w <> "" -> all_chars p w = true -> stops p r -> k r ((n, w) :: caps) = Some x ->
  rmatch len (Group n (Plus p)) (w ++ r) caps k = Some x.
Proof.
  intros Hne Hw Hr Hk. destruct w as [|c w]; [congruence|].
  cbn [all_chars] in Hw. apply andb_prop in Hw as [Hc Hw].
  cbn [rmatch]. change (String c w ++ r) with (String c (w ++ r)). cbv iota beta.
  rewrite Hc. apply star_run_greedy; auto.
  change (String c (w ++ r)) with (String c w ++ r). now rewrite take_app.
Qed.

Lemma rmatch_chr (len : nat) (n : N) (c : ascii) (s : string) (caps : captures)
    (k : string -> captures -> option captures) :
  code c = n -> rmatch len (Chr n) (String c s) caps k = k s caps.
Proof. intros <-. cbn [rmatch]. now rewrite N.eqb_refl. Qed.

Lemma rmatch_seq (len : nat) (r1 r2 : regex) (s : string) (caps : captures)
    (k : string -> captures -> option captures) :
  rmatch len (Seq r1 r2) s caps k
  = rmatch len r1 s caps (fun s' caps' => rmatch len r2 s' caps' k).
Proof. reflexivity. Qed.

Lemma stops_head (p : ascii -> bool) (s r : string) : s <> "" -> stops p s -> stops p (s ++ r).
Proof. destruct s; [congruence | auto]. Qed.

Lemma regex_match_first (r : regex) (s : string) (caps : captures) :
  rmatch (String.length s) r s [] (fun _ caps => Some caps) = Some caps ->
  regex_match r s = Some caps.
Proof.
  intros H. unfold regex_match. destruct s; cbn [search_from]; now rewrite H.
Qed.

(** The first format on a row with any white space around its cells. *)
Lemma re_format1_row (w1 o w2 w3 pc w4 dc rest : string) :
  all_chars is_space w1 = true -> all_chars is_space w2 = true ->
  all_chars is_space w3 = true -> all_chars is_space w4 = true ->
  o <> "" -> all_chars (is_not BACKTICK) o = true ->
  pc <> "" -> all_chars (is_not PIPE) pc = true ->
  (forall t, plain_head t -> space_prefix (pc ++ t) = None) ->
  dc <> "" -> all_chars (is_not PIPE) dc = true ->
  (forall t, plain_head t -> space_prefix (dc ++ t) = None) ->
  regex_match re_format1
    ("|" ++ w1 ++ "`" ++ o ++ "`" ++ w2 ++ "|" ++ w3 ++ pc ++ "|" ++ w4 ++ dc ++ "|" ++ rest)
  = Some [(3%nat, dc); (2%nat, pc); (1%nat, o)].
Proof.
  intros H1 H2 H3 H4 Ho Ho' Hp Hp' Hp'' Hd Hd' Hd''.
  assert (Hplain : forall c r, (code c < 128)%N -> is_space c = false ->
                     space_prefix (String c r) = None)
    by (intros c r; apply space_prefix_plain).
  apply regex_match_first. cbn [append]. generalize (String.length
    (String "|" (w1 ++ String "`" (o ++ String "`" (w2 ++ String "|" (w3 ++ pc ++
       String "|" (w4 ++ dc ++ String "|" rest))))))) as len. intros len.
  unfold re_format1. cbn [re_seq].
  rewrite rmatch_seq, rmatch_chr by reflexivity.
  rewrite rmatch_seq. apply rmatch_spaces; [assumption | now apply Hplain | cbv beta].
  rewrite rmatch_seq, rmatch_chr by reflexivity.
  rewrite rmatch_seq. apply rmatch_group_plus; [assumption | assumption | reflexivity | cbv beta].
  rewrite rmatch_seq, rmatch_chr by reflexivity.
  rewrite rmatch_seq. apply rmatch_spaces; [assumption | now apply Hplain | cbv beta].
  rewrite rmatch_seq, rmatch_chr by reflexivity.
  rewrite rmatch_seq. apply rmatch_spaces; [assumption | now apply Hp'' | cbv beta].
  rewrite rmatch_seq. apply rmatch_group_plus; [assumption | assumption | reflexivity | cbv beta].
  rewrite rmatch_seq. apply (rmatch_spaces len ""); [reflexivity | now apply Hplain | cbv beta].
  rewrite rmatch_seq, rmatch_chr by reflexivity.
  rewrite rmatch_seq. apply rmatch_spaces; [assumption | now apply Hd'' | cbv beta].
  rewrite rmatch_seq. apply rmatch_group_plus; [assumption | assumption | reflexivity | cbv beta].
  rewrite rmatch_seq. apply (rmatch_spaces len ""); [reflexivity | now apply Hplain | cbv beta].
  rewrite rmatch_chr by reflexivity. reflexivity.
Qed.

Lemma is_cell_inv (s : string) :
  is_cell s = true ->
  s <> "" /\ space_prefix s = None /\ trim_right s = s /\ all_chars (is_not PIPE) s = true.
Proof.
  unfold is_cell. intros H. apply andb_prop in H as [H Hp]. apply andb_prop in H as [Hne Ht].
  apply negb_true_iff, String.eqb_neq in Hne. apply String.eqb_eq in Ht.
  destruct (trim_fixed s Ht Hne) as [H1 H2]. auto.
Qed.

(** A cell and the white space after it start with no white space,
    whatever ASCII text follows. *)
Lemma cell_head (s w t : string) :
  s <> "" -> space_prefix s = None -> all_chars is_space w = true -> plain_head t ->
  space_prefix ((s ++ w) ++ t) = None.
Proof.
  intros Hne Hs Hw Ht. rewrite append_assoc.
  apply space_prefix_app; auto. now apply plain_head_spaces.
Qed.

(** [fetchOperations] on a row of the first format, with any white space
    around the cells. *)
Lemma parse_table_line_format1 (w1 o w2 w3 p w4 w5 d w6 rest : string) :
  let line :=
    "|" ++ w1 ++ "`" ++ o ++ "`" ++ w2 ++ "|" ++ w3 ++ p ++ w4 ++ "|" ++ w5 ++ d ++ w6
        ++ "|" ++ rest in
  all_chars is_space w1 = true -> all_chars is_space w2 = true ->
  all_chars is_space w3 = true -> all_chars is_space w4 = true ->
  all_chars is_space w5 = true -> all_chars is_space w6 = true ->
  o <> "" -> all_chars (is_not BACKTICK) o = true ->
  is_cell p = true -> is_cell d = true ->
  includes "---" line = false ->
  includes "**Operation**" line = false ->
  includes "**Category**" line = false ->
  parse_table_line line = [{| operation := trim o; params := p; description := d |}].
Proof.
  intros line H1 H2 H3 H4 H5 H6 Ho Ho' Hp Hd S1 S2 S3.
  apply is_cell_inv in Hp as (Hp1 & Hp2 & Hp3 & Hp4).
  apply is_cell_inv in Hd as (Hd1 & Hd2 & Hd3 & Hd4).
  unfold parse_table_line. rewrite S1, S2, S3. cbn [orb].
  assert (Hsp : forall w, all_chars is_space w = true -> all_chars (is_not PIPE) w = true).
  { clear. induction w as [|c w IH]; [reflexivity|]. cbn [all_chars]. intros H.
    apply andb_prop in H as [Hc Hw]. rewrite (IH Hw), andb_true_r.
    unfold is_space in Hc. unfold is_not, PIPE.
    destruct (code c =? 124)%N eqn:E; [|reflexivity]. apply N.eqb_eq in E.
    rewrite E in Hc. discriminate Hc. }
  assert (Happ : forall a b, all_chars (is_not PIPE) a = true -> all_chars (is_not PIPE) b = true
                             -> all_chars (is_not PIPE) (a ++ b) = true).
  { clear. induction a as [|c a IH]; intros b Ha Hb; [exact Hb|]. cbn [all_chars append] in *.
    apply andb_prop in Ha as [Hc Ha]. now rewrite Hc, IH. }
  subst line.
  replace ("|" ++ w1 ++ "`" ++ o ++ "`" ++ w2 ++ "|" ++ w3 ++ p ++ w4 ++ "|" ++ w5 ++ d ++ w6
              ++ "|" ++ rest)
    with ("|" ++ w1 ++ "`" ++ o ++ "`" ++ w2 ++ "|" ++ w3 ++ (p ++ w4) ++ "|" ++ w5
              ++ (d ++ w6) ++ "|" ++ rest)
    by (now rewrite !append_assoc).
  rewrite re_format1_row; auto.
  - unfold capture. cbn [find fst snd Nat.eqb].
    rewrite <- (append_nil_r (p ++ w4)), <- (append_nil_r (d ++ w6)).
    change (p ++ w4) with ("" ++ p ++ w4). change (d ++ w6) with ("" ++ d ++ w6).
    rewrite !append_assoc, !append_nil_r. cbn [append].
    rewrite <- (trim_padded "" p w4) at 2 by auto.
    rewrite <- (trim_padded "" d w6) at 2 by auto. reflexivity.
  - destruct p; [congruence | discriminate].
  - intros t Ht. now apply cell_head.
  - destruct d; [congruence | discriminate].
  - intros t Ht. now apply cell_head.
Qed.

Lemma split_on_nonempty (sep : ascii) (s : string) : split_on sep s <> [].
Proof.
  destruct s as [|c s]; cbn [split_on]; [discriminate|].
  destruct (Ascii.eqb c sep); [discriminate|]. destruct (split_on sep s); discriminate.
Qed.

Lemma split_on_app (sep : ascii) (a b : string) :
  all_chars (fun c => negb (Ascii.eqb c sep)) a = true ->
  split_on sep (a ++ String sep b) = a :: split_on sep b.
Proof.
  induction a as [|c a IH]; intros H; cbn [append split_on].
  - now rewrite Ascii.eqb_refl.
  - cbn [all_chars] in H. apply andb_prop in H as [Hc Ha].
    apply negb_true_iff in Hc. rewrite Hc, (IH Ha). reflexivity.
Qed.

Lemma all_chars_impl (p q : ascii -> bool) (s : string) :
  (forall c, p c = true -> q c = true) -> all_chars p s = true -> all_chars q s = true.
Proof.
  intros Hpq. induction s as [|c s IH]; [reflexivity|]. cbn [all_chars]. intros H.
  apply andb_prop in H as [Hc Hs]. now rewrite (Hpq c Hc), IH.
Qed.

Lemma all_chars_app (p : ascii -> bool) (a b : string) :
  all_chars p (a ++ b) = all_chars p a && all_chars p b.
Proof.
  induction a as [|c a IH]; [reflexivity|]. cbn [append all_chars]. now rewrite IH, andb_assoc.
Qed.

Lemma is_not_pipe_sep (c : ascii) :
  is_not PIPE c = true -> negb (Ascii.eqb c (ascii_of_N 124)) = true.
Proof.
  intros H. destruct (Ascii.eqb_spec c (ascii_of_N 124)) as [->|]; [discriminate H | reflexivity].
Qed.

Lemma space_is_not_pipe (c : ascii) : is_space c = true -> is_not PIPE c = true.
Proof.
  unfold is_space, is_not, PIPE. intros H.
  destruct (code c =? 124)%N eqn:E; [|reflexivity]. apply N.eqb_eq in E.
  rewrite E in H. discriminate H.
Qed.

Lemma split_on_pipe (a b : string) :
  all_chars (is_not PIPE) a = true ->
  split_on (ascii_of_N 124) (a ++ "|" ++ b) = a :: split_on (ascii_of_N 124) b.
Proof.
  intros H. apply (split_on_app (ascii_of_N 124) a b).
  revert H. apply all_chars_impl, is_not_pipe_sep.
Qed.

Lemma includes_head (needle s : string) :
  starts_with needle s <> None -> includes needle s = true.
Proof. destruct s; cbn [includes]; destruct (starts_with needle _); congruence. Qed.

Lemma remove_backticks_app (a b : string) :
  remove_backticks (a ++ b) = remove_backticks a ++ remove_backticks b.
Proof.
  induction a as [|c a IH]; [reflexivity|]. cbn [append remove_backticks].
  destruct (code c =? 96)%N; [exact IH | cbn [append]; now rewrite IH].
Qed.

Lemma remove_backticks_none (s : string) :
  all_chars (is_not BACKTICK) s = true -> remove_backticks s = s.
Proof.
  induction s as [|c s IH]; [reflexivity|]. cbn [all_chars remove_backticks]. intros H.
  apply andb_prop in H as [Hc Hs]. unfold is_not, BACKTICK in Hc.
  apply negb_true_iff in Hc. now rewrite Hc, IH.
Qed.

(** [fetchOperationsWithDisplay] on the same row. *)
Lemma display_table_line_format1 (w1 o w2 w3 p w4 w5 d w6 rest : string) :
  let line :=
    "|" ++ w1 ++ "`" ++ o ++ "`" ++ w2 ++ "|" ++ w3 ++ p ++ w4 ++ "|" ++ w5 ++ d ++ w6
        ++ "|" ++ rest in
  all_chars is_space w1 = true -> all_chars is_space w2 = true ->
  all_chars is_space w3 = true -> all_chars is_space w4 = true ->
  all_chars is_space w5 = true -> all_chars is_space w6 = true ->
  all_chars (is_not PIPE) o = true ->
  is_cell p = true -> is_cell d = true ->
  includes "---" line = false ->
  includes "Operation" line = false ->
  includes "**" line = false ->
  display_table_line line =
  if valid_operation_name (remove_backticks o)
  then [{| operation := remove_backticks o;
           params := if (remove_backticks p =? "{}") || (remove_backticks p =? "-")
                     then "" else remove_backticks p;
           description := d |}]
  else [].
Proof.
  intros line H1 H2 H3 H4 H5 H6 Ho Hp Hd S1 S2 S3.
  apply is_cell_inv in Hp as (Hp1 & Hp2 & Hp3 & Hp4).
  apply is_cell_inv in Hd as (Hd1 & Hd2 & Hd3 & Hd4).
  pose proof (fun w H => all_chars_impl is_space (is_not PIPE) w space_is_not_pipe H) as Hsp.
  unfold display_table_line. rewrite S1, S2, S3. cbn [orb].
  assert (Hpipe : includes "|" line = true) by (apply includes_head; discriminate).
  rewrite Hpipe. cbn [negb].
  assert (Hsplit : split_on (ascii_of_N 124) line
                   = "" :: (w1 ++ "`" ++ o ++ "`" ++ w2) :: (w3 ++ p ++ w4) :: (w5 ++ d ++ w6)
                        :: split_on (ascii_of_N 124) rest).
  { subst line. etransitivity; [apply (split_on_pipe ""); reflexivity|]. f_equal.
    replace (w1 ++ "`" ++ o ++ "`" ++ w2 ++ "|" ++ w3 ++ p ++ w4 ++ "|" ++ w5 ++ d ++ w6
                ++ "|" ++ rest)
      with ((w1 ++ "`" ++ o ++ "`" ++ w2) ++ "|" ++ (w3 ++ p ++ w4) ++ "|" ++ (w5 ++ d ++ w6)
                ++ "|" ++ rest)
      by (now rewrite !append_assoc).
    rewrite split_on_pipe, split_on_pipe, split_on_pipe; [reflexivity| | |];
      rewrite !all_chars_app; cbn [all_chars];
      rewrite ?(Hsp w1 H1), ?(Hsp w2 H2), ?(Hsp w3 H3), ?(Hsp w4 H4), ?(Hsp w5 H5),
        ?(Hsp w6 H6), ?Ho, ?Hp4, ?Hd4; reflexivity. }
  rewrite Hsplit. cbn [map].
  rewrite (trim_padded w3 p w4), (trim_padded w5 d w6) by assumption.
  assert (Ht : trim (w1 ++ "`" ++ o ++ "`" ++ w2) = "`" ++ o ++ "`").
  { replace (w1 ++ "`" ++ o ++ "`" ++ w2) with (w1 ++ ("`" ++ o ++ "`") ++ w2)
      by (now rewrite !append_assoc).
    apply trim_padded; auto; try discriminate.
    - now apply space_prefix_plain.
    - now apply (trim_right_last (String (ascii_of_N 96) o) (ascii_of_N 96)). }
  rewrite Ht.
  assert (Hlen : forall x, x <> "" -> negb (String.length x =? 0)%nat = true)
    by (intros [|c x] Hx; [congruence | reflexivity]).
  change (trim "") with "". cbn [filter String.length Nat.eqb negb].
  rewrite (Hlen ("`" ++ o ++ "`")), (Hlen p Hp1), (Hlen d Hd1) by discriminate.
  cbv iota beta. rewrite !remove_backticks_app. change (remove_backticks "`") with "".
  cbn [append]. rewrite append_nil_r, regex_test_operation_name. reflexivity.
Qed.

Lemma starts_with_app (a b s : string) :
  starts_with (a ++ b) s <> None -> starts_with a s <> None.
Proof.
  revert s. induction a as [|c a IH]; intros s; cbn [append starts_with]; [discriminate|].
  destruct s as [|d s]; [auto|]. destruct (Ascii.eqb c d); [apply IH | auto].
Qed.

Lemma includes_prefix (a b s : string) : includes a s = false -> includes (a ++ b) s = false.
Proof.
  induction s as [|c s IH]; cbn [includes].
  - destruct (starts_with a "") eqn:E; [discriminate|]. intros _.
    destruct (starts_with (a ++ b) "") eqn:E'; [|reflexivity].
    exfalso. apply (starts_with_app a b ""); congruence.
  - destruct (starts_with a (String c s)) eqn:E; [discriminate|]. intros H.
    destruct (starts_with (a ++ b) (String c s)) eqn:E'; [|auto].
    exfalso. apply (starts_with_app a b (String c s)); congruence.
Qed.

Lemma valid_operation_name_chars (o : string) :
  valid_operation_name o = true ->
  o <> "" /\ all_chars is_lower_or_underscore o = true.
Proof.
  destruct o as [|c o]; [discriminate|]. cbn [valid_operation_name all_chars]. intros H.
  apply andb_prop in H as [Hc Ho]. split; [discriminate|].
  unfold is_lower_or_underscore at 1. now rewrite Hc, Ho.
Qed.

Lemma name_char_plain (c : ascii) :
  is_lower_or_underscore c = true ->
  is_not BACKTICK c = true /\ is_not PIPE c = true /\ is_space c = false /\ (code c < 128)%N.
Proof.
  unfold is_lower_or_underscore, is_lower, is_not, is_space, BACKTICK, PIPE.
  intros H.
  destruct (code c =? 96)%N eqn:E1; [apply N.eqb_eq in E1; rewrite E1 in H; discriminate H|].
  destruct (code c =? 124)%N eqn:E2; [apply N.eqb_eq in E2; rewrite E2 in H; discriminate H|].
  repeat split.
  - apply orb_true_iff in H as [H|H].
    + apply andb_prop in H as [Ha Hb]. apply N.leb_le in Ha, Hb.
      apply orb_false_iff; split.
      * apply andb_false_iff. right. apply N.leb_gt. lia.
      * apply N.eqb_neq. lia.
    + apply N.eqb_eq in H. rewrite H. reflexivity.
  - apply orb_true_iff in H as [H|H].
    + apply andb_prop in H as [Ha Hb]. apply N.leb_le in Hb. lia.
    + apply N.eqb_eq in H. lia.
Qed.

(** A text of ASCII characters that are no white space is left by [trim]
    as it is. *)
Lemma trim_plain (s : string) :
  all_chars (fun c => (code c <? 128)%N && negb (is_space c)) s = true -> trim s = s.
Proof.
  intros H. unfold trim.
  assert (Hl : trim_left s = s).
  { destruct s as [|c s]; [reflexivity|]. cbn [all_chars] in H.
    apply andb_prop in H as [Hc _]. apply andb_prop in Hc as [Ha Hc].
    apply negb_true_iff in Hc. apply N.ltb_lt in Ha.
    now apply trim_left_fixed, space_prefix_plain. }
  rewrite Hl. clear Hl. induction s as [|c s IH]; [reflexivity|].
  cbn [all_chars] in H. apply andb_prop in H as [Hc Hs]. apply andb_prop in Hc as [Ha Hc].
  apply negb_true_iff in Hc. apply N.ltb_lt in Ha.
  cbn [trim_right]. rewrite (IH Hs). change (String c s) with ("" ++ String c s) at 1.
  now rewrite all_space_plain.
Qed.

Lemma name_chars_plain (o : string) :
  all_chars is_lower_or_underscore o = true ->
  all_chars (fun c => (code c <? 128)%N && negb (is_space c)) o = true.
Proof.
  apply all_chars_impl. intros c Hc.
  apply name_char_plain in Hc as (_ & _ & Hs & Ha).
  apply N.ltb_lt in Ha. now rewrite Ha, Hs.
Qed.

Lemma valid_operation_name_plain (o : string) :
  valid_operation_name o = true ->
  o <> "" /\ all_chars (is_not BACKTICK) o = true /\ all_chars (is_not PIPE) o = true /\
  trim o = o.
Proof.
  intros H. apply valid_operation_name_chars in H as [Hne H].
  repeat split; auto.
  - revert H. apply all_chars_impl. intros c Hc. now apply name_char_plain.
  - revert H. apply all_chars_impl. intros c Hc. now apply name_char_plain.
  - now apply trim_plain, name_chars_plain.
Qed.

(** A row padded with no-break spaces is read as one padded with spaces:
    the white-space class of the patterns and [trim] take them. *)
Example parse_table_line_no_break_space :
  let nbsp := utf8 160 in
  let line := "| `namespace_list` |" ++ nbsp ++ "none" ++ nbsp ++ "|" ++ nbsp
                  ++ "List namespaces" ++ nbsp ++ " |" in
  let row := {| operation := "namespace_list"; params := "none";
                description := "List namespaces" |} in
  parse_table_line line = [row] /\ display_table_line line = [row].
Proof. split; vm_compute; reflexivity. Qed.

(** X8.  On a row of the first format, [| `name` | params | description |]
    with any run of ASCII white space (tab, line feed, vertical tab, form
    feed, carriage return, space) around the cells and a valid operation
    name, the parser of [fetchOperations] and the parser of
    [fetchOperationsWithDisplay] give the same single descriptor, provided
    the row holds none of the texts either of them skips a line for and
    the parameter cell is not one the display parser rewrites ([{}], [-],
    or one with a backtick).  A cell is a non-empty text without a pipe
    that [trim] leaves as it is: it neither starts nor ends with a
    white-space character, ASCII or not (U+00A0, U+FEFF, U+2028 and the
    others of the class \s). *)
Theorem parsers_agree_on_format1_row (w1 o w2 w3 p w4 w5 d w6 rest : string) :
  let line :=
    "|" ++ w1 ++ "`" ++ o ++ "`" ++ w2 ++ "|" ++ w3 ++ p ++ w4 ++ "|" ++ w5 ++ d ++ w6
        ++ "|" ++ rest in
  let row := {| operation := o; params := p; description := d |} in
  all_chars is_space w1 = true -> all_chars is_space w2 = true ->
  all_chars is_space w3 = true -> all_chars is_space w4 = true ->
  all_chars is_space w5 = true -> all_chars is_space w6 = true ->
  valid_operation_name o = true ->
  is_cell p = true -> is_cell d = true ->
  all_chars (is_not BACKTICK) p = true -> p <> "{}" -> p <> "-" ->
  includes "---" line = false ->
  includes "Operation" line = false ->
  includes "**" line = false ->
  parse_table_line line = [row] /\ display_table_line line = [row].
Proof.
  intros line row H1 H2 H3 H4 H5 H6 Ho Hp Hd Hpb Hp1 Hp2 S1 S2 S3.
  destruct (valid_operation_name_plain o Ho) as (Hne & Hob & Hop & Hot). split.
  - subst line row. rewrite parse_table_line_format1; auto.
    + now rewrite Hot.
    + apply (includes_prefix "**" "Operation**"). exact S3.
    + apply (includes_prefix "**" "Category**"). exact S3.
  - subst line row. rewrite display_table_line_format1; auto.
    rewrite !remove_backticks_none by assumption. rewrite Ho.
    apply String.eqb_neq in Hp1, Hp2. now rewrite Hp1, Hp2.
Qed.

Lemma split_on_plain (sep : ascii) (s : string) :
  all_chars (fun c => negb (Ascii.eqb c sep)) s = true -> split_on sep s = [s].
Proof.
  induction s as [|c s IH]; [reflexivity|]. cbn [all_chars split_on]. intros H.
  apply andb_prop in H as [Hc Hs]. apply negb_true_iff in Hc. now rewrite Hc, (IH Hs).
Qed.

Lemma is_not_lf_sep (c : ascii) :
  is_not 10 c = true -> negb (Ascii.eqb c (ascii_of_N 10)) = true.
Proof.
  intros H. destruct (Ascii.eqb_spec c (ascii_of_N 10)) as [->|]; [discriminate H | reflexivity].
Qed.

Lemma split_on_join_lines (line : string) (lines : list string) :
  forallb (all_chars (is_not 10)) (line :: lines) = true ->
  split_on (ascii_of_N 10) (join LF (line :: lines)) = line :: lines.
Proof.
  revert line. induction lines as [|l lines IH]; intros line H.
  - cbn [forallb] in H. apply andb_prop in H as [H _]. cbn [join].
    apply split_on_plain. revert H. apply all_chars_impl, is_not_lf_sep.
  - cbn [forallb] in H. apply andb_prop in H as [Hl H].
    change (join LF (line :: l :: lines)) with (line ++ LF ++ join LF (l :: lines)).
    unfold LF at 1. cbn [append].
    rewrite split_on_app by (revert Hl; apply all_chars_impl, is_not_lf_sep).
    f_equal. now apply IH.
Qed.

Lemma format1_ok_row (op : OperationInfo) :
  format1_ok op = true -> parse_table_line (format1_row op) = [op].
Proof.
  unfold format1_ok. cbv zeta. intros H.
  repeat match type of H with (_ && _) = true => apply andb_prop in H as [H ?] end.
  repeat match goal with H : negb _ = true |- _ => apply negb_true_iff in H end.
  match goal with H : (_ =? "") = false |- _ => apply String.eqb_neq in H end.
  match goal with H : (_ =? _) = true |- _ => apply String.eqb_eq in H end.
  destruct op as [o p d]. cbn [operation params description] in *.
  unfold format1_row in *. cbn [operation params description] in *.
  pose proof (parse_table_line_format1 " " o " " " " p " " " " d " " "") as L.
  cbv zeta in L.
  replace ("| `" ++ o ++ "` | " ++ p ++ " | " ++ d ++ " |")
    with ("|" ++ " " ++ "`" ++ o ++ "`" ++ " " ++ "|" ++ " " ++ p ++ " " ++ "|" ++ " " ++ d
              ++ " " ++ "|" ++ "") in *
    by (cbn [append]; reflexivity).
  rewrite L by (auto; reflexivity). congruence.
Qed.

Lemma format1_ok_lines (ops : list OperationInfo) :
  forallb format1_ok ops = true ->
  forallb (all_chars (is_not 10)) (map format1_row ops) = true /\
  flat_map parse_table_line (map format1_row ops) = ops.
Proof.
  induction ops as [|op ops IH]; [auto|]. cbn [forallb map flat_map]. intros H.
  apply andb_prop in H as [Hop Hops]. destruct (IH Hops) as [IH1 IH2].
  rewrite IH1, IH2, (format1_ok_row op Hop). split; [|reflexivity].
  rewrite andb_true_r. unfold format1_ok in Hop. cbv zeta in Hop.
  repeat match type of Hop with (_ && _) = true => apply andb_prop in Hop as [Hop ?] end.
  assumption.
Qed.

Lemma parse_operations_format1_table (ops : list OperationInfo) :
  forallb format1_ok ops = true -> parse_operations (format1_table ops) = ops.
Proof.
  intros H. destruct (format1_ok_lines ops H) as [H1 H2].
  unfold parse_operations, format1_table.
  rewrite split_on_join_lines by (cbn [forallb]; now rewrite H1).
  cbn [flat_map]. rewrite H2. reflexivity.
Qed.

Lemma discovery_reply (reply : string) (base : string) :
  reply <> "" ->
  let text := JSON_stringify (JObj [("data", JObj [("reply", JStr reply)])]) in
  let c := new_A2AClient base (fetch_always (response_with (task_with_text text))) in
  fst (fetchOperations c) = parse_operations reply /\
  fst (fetchOperationsWithDisplay c)
  = Normal (flat_map display_table_line (split_on (ascii_of_N 10) reply)).
Proof.
  intros Hne text c.
  assert (Hraw : rawText_of (task_with_text text) = Some text) by reflexivity.
  assert (Ht : (text =? "") = false) by (apply eqb_nonempty, serialize_nonempty).
  assert (Hp : JSON_parse text = Some (JObj [("data", JObj [("reply", JStr reply)])]))
    by (apply JSON_parse_stringify_value; reflexivity).
  assert (Hr : (reply =? "") = false) by now apply eqb_nonempty.
  unfold fetchOperations, fetchOperationsWithDisplay.
  change (sendText c OPERATIONS_QUERY None)
    with (Normal (task_with_text text),
          {| baseUrl := baseUrl c; fetch := fetch c; rpcId := rpcId c + 1 |}).
  cbn [fst bind]. split.
  - rewrite extractData_rawText, Hraw, Ht, Hp. cbn. now rewrite Hr.
  - unfold display_reply. rewrite Hraw, Ht. unfold JSON_parse_c. rewrite Hp.
    cbn [bind try_catch get_prop_opt get_prop lookup String.eqb Ascii.eqb Bool.eqb].
    unfold js_or. rewrite !truthy_string, Hr. cbn [negb bind]. rewrite truthy_string, Hr.
    reflexivity.
Qed.

(** X9.  Reading a table back: when the agent answers the discovery
    message with [{"data": {"reply": table}}], the table being a header, a
    rule and one row [| `name` | params | description |] per descriptor,
    [fetchOperations] gives exactly those descriptors in their order, for
    all descriptors whose name has no backtick and whose cells are
    non-empty, on one line, without a pipe and left as they are by [trim]
    (no white-space character, ASCII or not, at either end). *)
Theorem fetchOperations_reads_format1_table (ops : list OperationInfo) (base : string) :
  forallb format1_ok ops = true ->
  let text := JSON_stringify (JObj [("data", JObj [("reply", JStr (format1_table ops))])]) in
  let c := new_A2AClient base (fetch_always (response_with (task_with_text text))) in
  fst (fetchOperations c) = ops.
Proof.
  intros H text c.
  destruct (discovery_reply (format1_table ops) base) as [H1 _]; [discriminate|].
  cbv zeta in H1. subst text c. rewrite H1. now apply parse_operations_format1_table.
Qed.

Lemma star_run_none {A} (p q : ascii -> bool) (s : string) (k : string -> option A) :
  all_chars q s = true ->
  (forall t, all_chars q t = true -> k t = None) ->
  star_run p s k = None.
Proof.
  intros Hs Hk. induction s as [|c s IH]; cbn [star_run]; [now apply Hk|].
  pose proof (Hk _ Hs) as Hks. cbn [all_chars] in Hs. apply andb_prop in Hs as [_ Hs].
  destruct (p c); [|exact Hks]. now rewrite (IH Hs).
Qed.

Lemma space_prefix_suffix (s r : string) :
  space_prefix s = Some r -> exists p, s = p ++ r.
Proof.
  destruct s as [|a [|b [|c t]]]; cbn [space_prefix]; try discriminate.
  - destruct (is_space a); [|discriminate]. intros H. injection H as <-.
    now exists (String a "").
  - destruct (is_space a); [intros H; injection H as <-; now exists (String a "")|].
    destruct (is_space2 a b); [|discriminate]. intros H. injection H as <-.
    now exists (String a (String b "")).
  - destruct (is_space a); [intros H; injection H as <-; now exists (String a "")|].
    destruct (is_space2 a b);
      [intros H; injection H as <-; now exists (String a (String b ""))|].
    destruct (is_space3 a b c); [|discriminate]. intros H. injection H as <-.
    now exists (String a (String b (String c ""))).
Qed.

Lemma space_run_none {A} (q : ascii -> bool) (s : string) (k : string -> option A) :
  all_chars q s = true ->
  (forall t, all_chars q t = true -> k t = None) ->
  space_run s k = None.
Proof.
  intros Hs Hk. induction s as [s IH] using length_ind.
  rewrite space_run_eq. destruct (space_prefix s) as [r|] eqn:E; [|now apply Hk].
  rewrite IH.
  - now apply Hk.
  - now apply space_prefix_length in E.
  - apply space_prefix_suffix in E as [p ->]. rewrite all_chars_app in Hs.
    now apply andb_prop in Hs as [_ Hs].
Qed.

Lemma re_format1_needs_backtick (s : string) :
  all_chars (is_not BACKTICK) s = true -> regex_match re_format1 s = None.
Proof.
  unfold regex_match. generalize (String.length s) as len. intros len H.
  assert (Hat : forall t, all_chars (is_not BACKTICK) t = true ->
                  rmatch len re_format1 t [] (fun _ caps => Some caps) = None).
  { intros t Ht. unfold re_format1. cbn [re_seq]. rewrite rmatch_seq.
    destruct t as [|c t]; [reflexivity|]. cbn [rmatch].
    destruct (code c =? PIPE)%N; [|reflexivity].
    cbn [all_chars] in Ht. apply andb_prop in Ht as [_ Ht].
    apply (space_run_none (is_not BACKTICK)); [exact Ht|].
    intros u Hu. destruct u as [|d u]; [reflexivity|].
    cbn [all_chars] in Hu. apply andb_prop in Hu as [Hd _].
    unfold is_not in Hd. apply negb_true_iff in Hd. now rewrite Hd. }
  induction s as [|c s IH]; cbn [search_from].
  - now rewrite Hat.
  - rewrite (Hat _ H). cbn [all_chars] in H. apply andb_prop in H as [_ H]. now apply IH.
Qed.

Lemma rmatch_plus (len : nat) (p : ascii -> bool) (w r : string) (caps : captures)
    (k : string -> captures -> option captures) (x : captures) :
  w <> "" -> all_chars p w = true -> stops p r -> k r caps = Some x ->
  rmatch len (Plus p) (w ++ r) caps k = Some x.
Proof.
  intros Hne Hw Hr Hk. destruct w as [|c w]; [congruence|].
  cbn [all_chars] in Hw. apply andb_prop in Hw as [Hc Hw].
  cbn [rmatch append]. rewrite Hc. now apply star_run_greedy.
Qed.

Lemma rmatch_alt_left (len : nat) (r1 r2 : regex) (s : string) (caps : captures)
    (k : string -> captures -> option captures) (x : captures) :
  rmatch len r1 s caps k = Some x -> rmatch len (Alt r1 r2) s caps k = Some x.
Proof. intros H. cbn [rmatch]. now rewrite H. Qed.

Lemma stops_after_name (w r : string) :
  all_chars is_space w = true -> stops is_lower_or_underscore (w ++ "|" ++ r).
Proof.
  destruct w as [|c w]; [reflexivity|]. cbn [all_chars append stops]. intros H.
  apply andb_prop in H as [Hc _].
  destruct (is_lower_or_underscore c) eqn:E; [|reflexivity].
  apply name_char_plain in E as (_ & _ & E & _). congruence.
Qed.

Lemma name_stops_space (o r : string) :
  o <> "" -> all_chars is_lower_or_underscore o = true -> space_prefix (o ++ r) = None.
Proof.
  destruct o as [|c o]; [congruence|]. cbn [all_chars append]. intros _ H.
  apply andb_prop in H as [Hc _]. apply name_char_plain in Hc as (_ & _ & Hs & Ha).
  now apply space_prefix_plain.
Qed.

(** The second format on a row with a bold category. *)
Lemma re_format2_category (w1 cat w2 w3 o w4 w5 pc rest : string) :
  all_chars is_space w1 = true -> all_chars is_space w2 = true ->
  all_chars is_space w3 = true -> all_chars is_space w4 = true ->
  all_chars is_space w5 = true ->
  cat <> "" -> all_chars (is_not ASTERISK) cat = true ->
  o <> "" -> all_chars is_lower_or_underscore o = true ->
  pc <> "" -> all_chars (is_not PIPE) pc = true ->
  (forall t, plain_head t -> space_prefix (pc ++ t) = None) ->
  regex_match re_format2
    ("|" ++ w1 ++ "**" ++ cat ++ "**" ++ w2 ++ "|" ++ w3 ++ o ++ w4 ++ "|" ++ w5 ++ pc
         ++ "|" ++ rest)
  = Some [(2%nat, pc); (1%nat, o)].
Proof.
  intros H1 H2 H3 H4 H5 Hc Hc' Ho Ho' Hp Hp' Hp''.
  apply regex_match_first. cbn [append]. generalize (String.length
    (String "|" (w1 ++ String "*" (String "*" (cat ++ String "*" (String "*" (w2 ++
       String "|" (w3 ++ o ++ w4 ++ String "|" (w5 ++ pc ++ String "|" rest))))))))) as len.
  intros len. unfold re_format2. cbn [re_seq].
  rewrite rmatch_seq, rmatch_chr by reflexivity.
  rewrite rmatch_seq. apply rmatch_spaces; [assumption | now apply space_prefix_plain | cbv beta].
  rewrite rmatch_seq. apply rmatch_alt_left.
  rewrite rmatch_seq, rmatch_chr by reflexivity.
  rewrite rmatch_seq, rmatch_chr by reflexivity.
  rewrite rmatch_seq. apply rmatch_plus; [assumption | assumption | reflexivity | cbv beta].
  rewrite rmatch_seq, rmatch_chr by reflexivity.
  rewrite rmatch_chr by reflexivity.
  rewrite rmatch_seq. apply rmatch_spaces; [assumption | now apply space_prefix_plain | cbv beta].
  rewrite rmatch_seq, rmatch_chr by reflexivity.
  rewrite rmatch_seq. apply rmatch_spaces; [assumption | now apply name_stops_space | cbv beta].
  rewrite rmatch_seq. apply rmatch_group_plus;
    [assumption | assumption | now apply (stops_after_name w4) | cbv beta].
  rewrite rmatch_seq. apply rmatch_spaces; [assumption | now apply space_prefix_plain | cbv beta].
  rewrite rmatch_seq, rmatch_chr by reflexivity.
  rewrite rmatch_seq. apply rmatch_spaces; [assumption | now apply Hp'' | cbv beta].
  rewrite rmatch_seq. apply rmatch_group_plus; [assumption | assumption | reflexivity | cbv beta].
  rewrite rmatch_seq. apply (rmatch_spaces len ""); [reflexivity | now apply space_prefix_plain | cbv beta].
  rewrite rmatch_chr by reflexivity. reflexivity.
Qed.

Lemma rmatch_alt_right (len : nat) (r1 r2 : regex) (s : string) (caps : captures)
    (k : string -> captures -> option captures) :
  rmatch len r1 s caps k = None -> rmatch len (Alt r1 r2) s caps k = rmatch len r2 s caps k.
Proof. intros H. cbn [rmatch]. now rewrite H. Qed.

Lemma rmatch_eps (len : nat) (s : string) (caps : captures)
    (k : string -> captures -> option captures) :
  rmatch len Eps s caps k = k s caps.
Proof. reflexivity. Qed.

(** The second format on a row with an empty first cell. *)
Lemma re_format2_plain (w1 w3 o w4 w5 pc rest : string) :
  all_chars is_space w1 = true ->
  all_chars is_space w3 = true -> all_chars is_space w4 = true ->
  all_chars is_space w5 = true ->
  o <> "" -> all_chars is_lower_or_underscore o = true ->
  pc <> "" -> all_chars (is_not PIPE) pc = true ->
  (forall t, plain_head t -> space_prefix (pc ++ t) = None) ->
  regex_match re_format2
    ("|" ++ w1 ++ "|" ++ w3 ++ o ++ w4 ++ "|" ++ w5 ++ pc ++ "|" ++ rest)
  = Some [(2%nat, pc); (1%nat, o)].
Proof.
  intros H1 H3 H4 H5 Ho Ho' Hp Hp' Hp''.
  apply regex_match_first. cbn [append]. generalize (String.length
    (String "|" (w1 ++ String "|" (w3 ++ o ++ w4 ++ String "|" (w5 ++ pc ++ String "|" rest)))))
    as len.
  intros len. unfold re_format2. cbn [re_seq].
  rewrite rmatch_seq, rmatch_chr by reflexivity.
  rewrite rmatch_seq. apply rmatch_spaces; [assumption | now apply space_prefix_plain | cbv beta].
  rewrite rmatch_seq, rmatch_alt_right by reflexivity. rewrite rmatch_eps. cbv beta.
  rewrite rmatch_seq. apply (rmatch_spaces len ""); [reflexivity | now apply space_prefix_plain | cbv beta].
  rewrite rmatch_seq, rmatch_chr by reflexivity.
  rewrite rmatch_seq. apply rmatch_spaces; [assumption | now apply name_stops_space | cbv beta].
  rewrite rmatch_seq. apply rmatch_group_plus;
    [assumption | assumption | now apply (stops_after_name w4) | cbv beta].
  rewrite rmatch_seq. apply rmatch_spaces; [assumption | now apply space_prefix_plain | cbv beta].
  rewrite rmatch_seq, rmatch_chr by reflexivity.
  rewrite rmatch_seq. apply rmatch_spaces; [assumption | now apply Hp'' | cbv beta].
  rewrite rmatch_seq. apply rmatch_group_plus; [assumption | assumption | reflexivity | cbv beta].
  rewrite rmatch_seq. apply (rmatch_spaces len ""); [reflexivity | now apply space_prefix_plain | cbv beta].
  rewrite rmatch_chr by reflexivity. reflexivity.
Qed.

Lemma includes_app_r (needle a s : string) :
  includes needle s = true -> includes needle (a ++ s) = true.
Proof.
  intros H. induction a as [|c a IH]; [exact H|]. cbn [append includes].
  destruct (starts_with needle _); [reflexivity | exact IH].
Qed.

Lemma name_trim (o : string) : all_chars is_lower_or_underscore o = true -> trim o = o.
Proof.
  intros H. now apply trim_plain, name_chars_plain.
Qed.

(** X10.  A row without backticks whose second cell is a name of lower-case
    letters and underscores is read by [fetchOperations] through its
    second format, as that name with the third cell as parameters and an
    empty description, whether the first cell is a bold category or empty;
    [fetchOperationsWithDisplay] skips the row with the bold category.
    The cells stand between runs of ASCII white space, and the parameter
    cell is a non-empty text without a pipe that [trim] leaves as it is
    (no white-space character, ASCII or not, at either end). *)
Theorem fetchOperations_second_format (w1 w2 w3 o w4 w5 p w6 rest : string) :
  let row := {| operation := o; params := p; description := "" |} in
  all_chars is_space w1 = true -> all_chars is_space w2 = true ->
  all_chars is_space w3 = true -> all_chars is_space w4 = true ->
  all_chars is_space w5 = true -> all_chars is_space w6 = true ->
  o <> "" -> all_chars is_lower_or_underscore o = true ->
  is_cell p = true ->
  (forall cat,
     let line := "|" ++ w1 ++ "**" ++ cat ++ "**" ++ w2 ++ "|" ++ w3 ++ o ++ w4 ++ "|" ++ w5
                     ++ p ++ w6 ++ "|" ++ rest in
     cat <> "" -> all_chars (is_not ASTERISK) cat = true ->
     all_chars (is_not BACKTICK) line = true ->
     includes "---" line = false ->
     includes "**Operation**" line = false ->
     includes "**Category**" line = false ->
     parse_table_line line = [row] /\ display_table_line line = []) /\
  (let line := "|" ++ w1 ++ "|" ++ w3 ++ o ++ w4 ++ "|" ++ w5 ++ p ++ w6 ++ "|" ++ rest in
   all_chars (is_not BACKTICK) line = true ->
   includes "---" line = false ->
   includes "**Operation**" line = false ->
   includes "**Category**" line = false ->
   parse_table_line line = [row]).
Proof.
  intros row H1 H2 H3 H4 H5 H6 Ho Ho' Hp.
  apply is_cell_inv in Hp as (Hp1 & Hp2 & Hp3 & Hp4).
  pose proof (fun w H => all_chars_impl is_space (is_not PIPE) w space_is_not_pipe H) as Hsp.
  assert (Hpc : p ++ w6 <> "") by (destruct p; [congruence | discriminate]).
  assert (Hpc' : all_chars (is_not PIPE) (p ++ w6) = true)
    by (now rewrite all_chars_app, Hp4, (Hsp w6 H6)).
  assert (Hpc'' : forall t, plain_head t -> space_prefix ((p ++ w6) ++ t) = None)
    by (intros t Ht; now apply cell_head).
  assert (Hcap : trim (p ++ w6) = p) by now apply (trim_padded "" p w6).
  split.
  - intros cat line Hc Hc' Hb S1 S2 S3. split.
    + unfold parse_table_line. rewrite S1, S2, S3. cbn [orb].
      rewrite re_format1_needs_backtick by exact Hb. subst line.
      replace ("|" ++ w1 ++ "**" ++ cat ++ "**" ++ w2 ++ "|" ++ w3 ++ o ++ w4 ++ "|" ++ w5
                   ++ p ++ w6 ++ "|" ++ rest)
        with ("|" ++ w1 ++ "**" ++ cat ++ "**" ++ w2 ++ "|" ++ w3 ++ o ++ w4 ++ "|" ++ w5
                   ++ (p ++ w6) ++ "|" ++ rest)
        by (now rewrite !append_assoc).
      rewrite re_format2_category by assumption.
      unfold capture. cbn [find fst snd Nat.eqb].
      rewrite (eqb_nonempty o Ho), Hcap, (name_trim o Ho'). reflexivity.
    + unfold display_table_line.
      assert (Hi : includes "**" line = true).
      { subst line. apply (includes_app_r "**" "|"), includes_app_r, includes_head.
        discriminate. }
      rewrite Hi, !orb_true_r. reflexivity.
  - intros line Hb S1 S2 S3.
    unfold parse_table_line. rewrite S1, S2, S3. cbn [orb].
    rewrite re_format1_needs_backtick by exact Hb. subst line.
    replace ("|" ++ w1 ++ "|" ++ w3 ++ o ++ w4 ++ "|" ++ w5 ++ p ++ w6 ++ "|" ++ rest)
      with ("|" ++ w1 ++ "|" ++ w3 ++ o ++ w4 ++ "|" ++ w5 ++ (p ++ w6) ++ "|" ++ rest)
      by (now rewrite !append_assoc).
    rewrite re_format2_plain by assumption.
    unfold capture. cbn [find fst snd Nat.eqb].
    rewrite (eqb_nonempty o Ho), Hcap, (name_trim o Ho'). reflexivity.
Qed.

Lemma parsers_agree_on_format1_row_witness :
  let line := "| `namespace_create` | name, allocatedCores |  Create a namespace |" in
  let row := {| operation := "namespace_create"; params := "name, allocatedCores";
                description := "Create a namespace" |} in
  parse_table_line line = [row] /\ display_table_line line = [row].
Proof.
  apply (parsers_agree_on_format1_row " " "namespace_create" " " " " "name, allocatedCores" " "
           "  " "Create a namespace" " " ""); try reflexivity; discriminate.
Defined.

Lemma fetchOperations_reads_format1_table_witness :
  let text :=
    JSON_stringify (JObj [("data", JObj [("reply", JStr (format1_table demo_operations))])]) in
  let c := new_A2AClient "http://localhost:3000"
             (fetch_always (response_with (task_with_text text))) in
  fst (fetchOperations c) = demo_operations.
Proof.
  apply (fetchOperations_reads_format1_table demo_operations "http://localhost:3000").
  vm_compute. reflexivity.
Defined.

Lemma fetchOperations_second_format_witness :
  let row := {| operation := "_internal"; params := "token"; description := "" |} in
  (parse_table_line "| **Admin** | _internal | token |" = [row] /\
   display_table_line "| **Admin** | _internal | token |" = []) /\
  parse_table_line "| | _internal | token |" = [row].
Proof.
  destruct (fetchOperations_second_format " " " " " " "_internal" " " " " "token" " " "")
    as [H1 H2]; try reflexivity; try discriminate.
  split; [apply (H1 "Admin"); try reflexivity; discriminate | apply H2; reflexivity].
Defined.

(** X11.  The two readers differ on a failed discovery.  When the request
    fails, [fetchOperations] resolves with no operations and
    [fetchOperationsWithDisplay] rejects with what was thrown.  When the
    reply field of the answer is a truthy value that is not a string,
    [fetchOperations] resolves with no operations and
    [fetchOperationsWithDisplay] rejects with the TypeError of calling
    [split] on it. *)
Theorem discovery_failures (c c' : A2AClient) :
  (forall e,
     sendText c OPERATIONS_QUERY None = (Throw e, c') ->
     fetchOperations c = ([], c') /\ fetchOperationsWithDisplay c = (Throw e, c')) /\
  (forall task text parsed v,
     sendText c OPERATIONS_QUERY None = (Normal task, c') ->
     rawText_of task = Some text ->
     JSON_parse text = Some parsed ->
     subfield parsed "data" "reply" = Some v ->
     truthy (Some v) = true ->
     match v with JStr _ => False | _ => True end ->
     fetchOperations c = ([], c') /\
     fetchOperationsWithDisplay c = (Throw (TypeError "reply.split is not a function"), c')).
Proof.
  split.
  - intros e H. unfold fetchOperations, fetchOperationsWithDisplay. rewrite H. auto.
  - intros task text parsed v Hs Hraw Hp Hv Ht Hk.
    assert (Hne : (text =? "") = false) by (destruct text; [discriminate Hp | reflexivity]).
    unfold subfield in Hv. destruct (field parsed "data") as [d|] eqn:Hd; [|discriminate Hv].
    unfold fetchOperations, fetchOperationsWithDisplay. rewrite Hs. cbn [bind]. split.
    + rewrite extractData_rawText, Hraw, Hne, Hp. unfold reply_of_data.
      rewrite get_prop_opt_field. cbn [bind]. rewrite Hd.
      rewrite get_prop_opt_field. cbn [bind]. rewrite Hv.
      destruct v; try contradiction; try discriminate Ht; reflexivity.
    + unfold display_reply. rewrite Hraw, Hne. unfold JSON_parse_c. rewrite Hp.
      cbn [bind try_catch]. rewrite get_prop_opt_field. cbn [bind]. rewrite Hd.
      rewrite get_prop_opt_field. cbn [bind]. rewrite Hv.
      rewrite get_prop_opt_field. cbn [bind try_catch]. unfold js_or. rewrite Ht. cbn [bind].
      rewrite Ht. destruct v; try contradiction; reflexivity.
Qed.

Lemma discovery_failures_witness :
  let c := new_A2AClient "http://localhost:3000" fetch_500 in
  let c' := {| baseUrl := baseUrl c; fetch := fetch c; rpcId := 1 |} in
  fetchOperations c = ([], c') /\
  fetchOperationsWithDisplay c = (Throw (Error "HTTP 500: Internal Server Error"), c').
Proof.
  intros c c'. destruct (discovery_failures c c') as [H _]. apply H. reflexivity.
Defined.

(* ================================================================== *)
(** ** The tool results and the loop of [runTurn] *)

(** X12.  What [executeCall] gives, on a task whose text the embedding
    treats exactly.  It never rejects and the client has counted one
    request.  When [send] throws, the result is [{"error": message}] for
    the message of what was thrown.  When [send] resolves with a task, the
    result is a text that decodes to the object of [status] (the state of
    the task), [data] (what [extractData] gives) and, when the task
    carries a low-balance warning, [warning] (its message), provided the
    rendering of the data does not throw; when it throws, the result is
    [{"error": message}] for what it threw.  The rendering does not throw
    on [null] and on an object whose [data] (the [message] member set
    aside) is no list. *)
Theorem executeCall_result_decodes (operation : string) (params : json) (c : A2AClient) :
  let c' := {| baseUrl := baseUrl c; fetch := fetch c; rpcId := rpcId c + 1 |} in
  let success task :=
    JObj ([("status", JStr (state (status task))); ("data", extractData task)]
          ++ match metadata task with
             | Some {| lowBalanceWarning := Some w |} => [("warning", JStr (warning_message w))]
             | _ => []
             end)%list in
  let failure e := JSON_stringify (JObj [("error", JStr (error_message_of e))]) in
  (forall e,
     fst (send c operation (Some params) None) = Throw e ->
     executeCall operation params c = (Normal (failure e), c')) /\
  (forall task,
     fst (send c operation (Some params) None) = Normal task ->
     exact_text (rawText_of task) = true ->
     match printCallBottom (Some (extractData task)) with
     | Normal _ =>
         exists text,
           executeCall operation params c = (Normal text, c') /\
           JSON_parse text = Some (success task)
     | Throw e => executeCall operation params c = (Normal (failure e), c')
     end) /\
  (forall task,
     fst (send c operation (Some params) None) = Normal task ->
     exact_text (rawText_of task) = true ->
     match extractData task with
     | JNull => True
     | JObj o =>
         match lookup "data" (filter (fun kv => negb (fst kv =? "message")) o) with
         | Some (JArr _) => False
         | _ => True
         end
     | _ => False
     end ->
     exists text,
       executeCall operation params c = (Normal text, c') /\
       JSON_parse text = Some (success task)).
Proof.
  cbv zeta.
  assert (Hc : forall r, fst (send c operation (Some params) None) = r ->
                 send c operation (Some params) None
                 = (r, {| baseUrl := baseUrl c; fetch := fetch c; rpcId := rpcId c + 1 |})).
  { intros r <-. rewrite <- (send_rpcId c operation (Some params) None).
    now destruct (send c operation (Some params) None). }
  assert (Hok : forall task,
             fst (send c operation (Some params) None) = Normal task ->
             printCallBottom (Some (extractData task)) = Normal tt ->
             exists text,
               executeCall operation params c
               = (Normal text,
                  {| baseUrl := baseUrl c; fetch := fetch c; rpcId := rpcId c + 1 |}) /\
               JSON_parse text = Some (success_payload task (extractData task))).
  { intros task Hs Hd. eexists. split; [apply (executeCall_success _ _ _ _ _ (Hc _ Hs) Hd)|].
    apply success_payload_decodes. }
  split; [|split].
  - intros e Hs. apply (executeCall_failure _ _ _ _ _ (Hc _ Hs)).
  - intros task Hs _.
    destruct (printCallBottom (Some (extractData task))) as [[]|e] eqn:Hd.
    + now apply Hok.
    + apply (executeCall_render_failure _ _ _ _ _ _ (Hc _ Hs) Hd).
  - intros task Hs _ Hdata. apply Hok; [exact Hs|].
    destruct (extractData task) as [| | | | |o]; try contradiction.
    + apply printCallBottom_null.
    + now apply printCallBottom_object.
Qed.

Lemma executeCall_result_decodes_witness :
  let task := task_with_text ("{" ++ q "data" ++ ":{" ++ q "name" ++ ":" ++ q "demo" ++ "}}") in
  let c := new_A2AClient "http://localhost:3000" (fetch_always (response_with task)) in
  exists text,
    executeCall "namespace_create" (JObj []) c
    = (Normal text, {| baseUrl := baseUrl c; fetch := fetch c; rpcId := rpcId c + 1 |}) /\
    JSON_parse text
    = Some (JObj [("status", JStr "completed");
                  ("data", JObj [("data", JObj [("name", JStr "demo")])])]).
Proof.
  intros task c.
  destruct (executeCall_result_decodes "namespace_create" (JObj []) c) as (_ & _ & H).
  apply (H task); [reflexivity | reflexivity | exact I].
Defined.

(** X13.  One pass over the content blocks of a response never throws and
    gives one tool result for each [declare_plan] and each [a2a_call]
    block, with that block's id and in the order of the blocks; text
    blocks, blocks of other kinds and calls of any other tool get no
    result.  The client has counted one request for each [a2a_call]. *)
Theorem dispatch_answers_known_tools (blocks : list ContentBlock) (c : A2AClient) :
  exists results,
    dispatch blocks [] c
    = (Normal results,
       {| baseUrl := baseUrl c; fetch := fetch c; rpcId := rpcId c + count_calls blocks |}) /\
    map tool_use_id results = answered_ids blocks.
Proof.
  destruct (dispatch_added blocks c []) as (added & H & Hids).
  exists added. split; [exact H | exact Hids].
Qed.

Lemma count_calls_nonneg (blocks : list ContentBlock) : 0 <= count_calls blocks.
Proof.
  induction blocks as [|b rest IH]; [reflexivity|].
  destruct b as [t|id [title steps|input|name input]|ty]; cbn [count_calls]; lia.
Qed.

(** X14.  [runTurn] only appends: the conversation it leaves is the one it
    was given followed by assistant and tool-result messages (never a user
    text), the model was asked at most once per iteration, the base URL of
    the client is unchanged and its request counter never decreases. *)
Theorem runTurn_appends (provider : Provider) (fuel : nat) (w : World) :
  exists added calls,
    messages (snd (runTurn provider fuel w)) = (messages w ++ added)%list /\
    forallb (fun m => negb (is_user_text m)) added = true /\
    inferences (snd (runTurn provider fuel w)) = (inferences w ++ calls)%list /\
    (length calls <= fuel)%nat /\
    baseUrl (a2aClient (snd (runTurn provider fuel w))) = baseUrl (a2aClient w) /\
    rpcId (a2aClient w) <= rpcId (a2aClient (snd (runTurn provider fuel w))).
Proof.
  revert w. induction fuel as [|fuel IH]; intros w.
  - exists [], []. cbn. rewrite !List.app_nil_r. repeat split; lia.
  - rewrite runTurn_eq. cbv zeta.
    destruct (provider (messages w)) as [response|e].
    + destruct (stop_reason response =? "end_turn").
      * exists [AssistantBlocks (message_content response)], [messages w].
        cbn. repeat split; lia.
      * destruct (stop_reason response =? "tool_use").
        -- destruct (dispatch_added (message_content response) (a2aClient w) [])
             as (results & Hd & _).
           cbn [app] in Hd. rewrite Hd.
           pose proof (count_calls_nonneg (message_content response)) as Hc.
           match goal with |- context [runTurn provider fuel ?w1] =>
             specialize (IH w1); remember w1 as w2 eqn:Ew end.
           destruct IH as (added & calls & Hm & Hu & Hi & Hl & Hb & Hr).
           exists (AssistantBlocks (message_content response)
                     :: UserToolResults results :: added), (messages w :: calls).
           rewrite Hm, Hi, Hb. rewrite Ew in Hr |- *.
           cbn [messages inferences a2aClient baseUrl rpcId] in Hr |- *.
           cbn [forallb is_user_text negb andb length].
           repeat split; auto; try lia;
             rewrite <- !List.app_assoc; reflexivity.
        -- match goal with |- context [runTurn provider fuel ?w1] =>
             specialize (IH w1); remember w1 as w2 eqn:Ew end.
           destruct IH as (added & calls & Hm & Hu & Hi & Hl & Hb & Hr).
           exists (AssistantBlocks (message_content response) :: added), (messages w :: calls).
           rewrite Hm, Hi, Hb. rewrite Ew in Hr |- *.
           cbn [messages inferences a2aClient baseUrl rpcId] in Hr |- *.
           cbn [forallb is_user_text negb andb length].
           repeat split; auto; try lia;
             rewrite <- !List.app_assoc; reflexivity.
    + exists [], [messages w]. cbn. rewrite List.app_nil_r. repeat split; lia.
Qed.

(** X15.  How [runTurn] ends.  When it returns, the last inference asked
    the model about a conversation it answered with the stop reason
    [end_turn], and the conversation left is that one followed by the
    answer.  When it throws, the model threw that value on the conversation
    left, which was the last inference.  When the iterations run out, the
    model was asked once per iteration. *)
Theorem runTurn_exit (provider : Provider) (fuel : nat) (w w' : World) (outcome : Outcome) :
  runTurn provider fuel w = (outcome, w') ->
  match outcome with
  | Returned =>
      exists conversation response,
        provider conversation = Normal response /\
        stop_reason response = "end_turn" /\
        messages w' = (conversation ++ [AssistantBlocks (message_content response)])%list /\
        exists log, inferences w' = (log ++ [conversation])%list
  | Threw e =>
      provider (messages w') = Throw e /\
      exists log, inferences w' = (log ++ [messages w'])%list
  | OutOfFuel => length (inferences w') = (length (inferences w) + fuel)%nat
  end.
Proof.
  revert w. induction fuel as [|fuel IH]; intros w.
  - cbn [runTurn]. intros H. injection H as <- <-. lia.
  - rewrite runTurn_eq. cbv zeta.
    destruct (provider (messages w)) as [response|e] eqn:Hp.
    + destruct (stop_reason response =? "end_turn") eqn:Hs.
      * intros H. injection H as <- <-. apply String.eqb_eq in Hs.
        exists (messages w), response. cbn [messages inferences]. eauto.
      * assert (Hnext : forall w1,
                  length (inferences w1) = S (length (inferences w)) ->
                  runTurn provider fuel w1 = (outcome, w') ->
                  match outcome with
                  | Returned =>
                      exists conversation response,
                        provider conversation = Normal response /\
                        stop_reason response = "end_turn" /\
                        messages w'
                        = (conversation ++ [AssistantBlocks (message_content response)])%list /\
                        exists log, inferences w' = (log ++ [conversation])%list
                  | Threw e =>
                      provider (messages w') = Throw e /\
                      exists log, inferences w' = (log ++ [messages w'])%list
                  | OutOfFuel => length (inferences w') = (length (inferences w) + S fuel)%nat
                  end).
        { intros w1 Hlen H. specialize (IH w1 H).
          destruct outcome; auto. rewrite IH, Hlen. lia. }
        destruct (stop_reason response =? "tool_use").
        -- destruct (dispatch_results (message_content response) (a2aClient w))
             as (results & c' & Hd).
           rewrite (Hd []). apply Hnext. cbn [inferences].
           rewrite List.length_app. cbn. lia.
        -- apply Hnext. cbn [inferences]. rewrite List.length_app. cbn. lia.
    + intros H. injection H as <- <-. cbn [messages inferences]. eauto.
Qed.

Lemma runTurn_exit_witness :
  exists conversation response,
    demo_provider conversation = Normal response /\
    stop_reason response = "end_turn" /\
    messages (snd (runTurn demo_provider 2 (demo_world fetch_500)))
    = (conversation ++ [AssistantBlocks (message_content response)])%list /\
    exists log,
      inferences (snd (runTurn demo_provider 2 (demo_world fetch_500)))
      = (log ++ [conversation])%list.
Proof.
  apply (runTurn_exit demo_provider 2 (demo_world fetch_500)
           (snd (runTurn demo_provider 2 (demo_world fetch_500))) Returned).
  vm_compute. reflexivity.
Defined.

(** X16.  The loop has no exit for the other stop reasons: against a model
    that never answers [end_turn] or [tool_use] (say [max_tokens] every
    time), no number of iterations ends [runTurn]; every iteration asks the
    model again and appends its answer, and the A2A client is never
    used. *)
Theorem runTurn_spins_on_other_stop_reasons (provider : Provider) :
  (forall conversation, exists response,
      provider conversation = Normal response /\
      stop_reason response <> "end_turn" /\ stop_reason response <> "tool_use") ->
  forall fuel w,
    fst (runTurn provider fuel w) = OutOfFuel /\
    a2aClient (snd (runTurn provider fuel w)) = a2aClient w /\
    length (messages (snd (runTurn provider fuel w))) = (length (messages w) + fuel)%nat /\
    length (inferences (snd (runTurn provider fuel w))) = (length (inferences w) + fuel)%nat.
Proof.
  intros Hp. induction fuel as [|fuel IH]; intros w.
  - cbn. repeat split; lia.
  - rewrite runTurn_eq. cbv zeta.
    destruct (Hp (messages w)) as (response & -> & H1 & H2).
    apply String.eqb_neq in H1, H2. rewrite H1, H2.
    match goal with |- context [runTurn provider fuel ?w1] =>
      destruct (IH w1) as (Ho & Hc & Hm & Hi) end.
    rewrite Ho, Hc, Hm, Hi. cbn [a2aClient messages inferences].
    rewrite !List.length_app. cbn. repeat split; lia.
Qed.

Lemma runTurn_spins_on_other_stop_reasons_witness :
  fst (runTurn truncating_provider 3 (demo_world fetch_500)) = OutOfFuel /\
  a2aClient (snd (runTurn truncating_provider 3 (demo_world fetch_500)))
  = a2aClient (demo_world fetch_500) /\
  length (messages (snd (runTurn truncating_provider 3 (demo_world fetch_500)))) = 4%nat /\
  length (inferences (snd (runTurn truncating_provider 3 (demo_world fetch_500)))) = 3%nat.
Proof.
  apply (runTurn_spins_on_other_stop_reasons truncating_provider).
  intros conversation. exists truncated_turn. repeat split; discriminate.
Defined.

Lemma runTurn_user_turns (provider : Provider) (fuel : nat) (w : World) :
  filter is_user_text (messages (snd (runTurn provider fuel w)))
  = filter is_user_text (messages w) /\
  exists added, messages (snd (runTurn provider fuel w)) = (messages w ++ added)%list.
Proof.
  revert w. induction fuel as [|fuel IH]; intros w.
  - cbn. split; [reflexivity|]. exists []. now rewrite List.app_nil_r.
  - rewrite runTurn_eq. cbv zeta.
    destruct (provider (messages w)) as [response|e].
    + destruct (stop_reason response =? "end_turn").
      * cbn [snd messages]. rewrite filter_app. cbn. rewrite List.app_nil_r. eauto.
      * destruct (stop_reason response =? "tool_use").
        -- destruct (dispatch_results (message_content response) (a2aClient w))
             as (results & c' & Hd).
           rewrite (Hd []).
           match goal with |- context [runTurn provider fuel ?w1] =>
             destruct (IH w1) as (H1 & added & H2) end.
           rewrite H1, H2. cbn [messages]. rewrite !filter_app. cbn.
           rewrite !List.app_nil_r, <- !List.app_assoc. eauto.
        -- match goal with |- context [runTurn provider fuel ?w1] =>
             destruct (IH w1) as (H1 & added & H2) end.
           rewrite H1, H2. cbn [messages]. rewrite !filter_app. cbn.
           rewrite !List.app_nil_r, <- !List.app_assoc. eauto.
    + cbn. split; [reflexivity|]. exists []. now rewrite List.app_nil_r.
Qed.

(** X17.  When [runScenarios] runs every scenario to its end, the user
    texts of the conversation are those it had before followed by the
    prompts of the scenarios, one each and in their order: every scenario
    continues the conversation of the ones before it, and nothing that was
    in the conversation is dropped. *)
Theorem runScenarios_user_turns (provider : Provider) (fuel : nat)
    (scenarios : list Scenario) (w w' : World) :
  runScenarios provider fuel scenarios w = (Returned, w') ->
  filter is_user_text (messages w')
  = (filter is_user_text (messages w) ++ map (fun s => UserText (prompt s)) scenarios)%list /\
  exists added, messages w' = (messages w ++ added)%list.
Proof.
  revert w. induction scenarios as [|s rest IH]; intros w.
  - cbn. intros H. injection H as <-. rewrite !List.app_nil_r. split; [reflexivity|].
    exists []. now rewrite List.app_nil_r.
  - cbn [runScenarios]. cbv zeta.
    match goal with |- context [runTurn provider fuel ?w1] =>
      destruct (runTurn_user_turns provider fuel w1) as (H1 & added & H2);
      destruct (runTurn provider fuel w1) as [[| |] w2] end; try discriminate.
    intros H. destruct (IH w2 H) as (H3 & added' & H4). cbn [snd messages] in H1, H2.
    rewrite H3, H1, filter_app. cbn [filter is_user_text map].
    rewrite <- !List.app_assoc. split; [reflexivity|].
    exists ([UserText (prompt s)] ++ added ++ added')%list.
    rewrite H4, H2, <- !List.app_assoc. reflexivity.
Qed.

Lemma runScenarios_user_turns_witness :
  let w := {| a2aClient := new_A2AClient "http://localhost:3000" fetch_500;
              messages := []; inferences := [] |} in
  filter is_user_text (messages (snd (runScenarios final_only_provider 1 SCENARIOS w)))
  = ([] ++ map (fun s => UserText (prompt s)) SCENARIOS)%list /\
  exists added,
    messages (snd (runScenarios final_only_provider 1 SCENARIOS w)) = ([] ++ added)%list.
Proof.
  intros w.
  apply (runScenarios_user_turns final_only_provider 1 SCENARIOS w
           (snd (runScenarios final_only_provider 1 SCENARIOS w))).
  vm_compute. reflexivity.
Defined.

(* ================================================================== *)
(** ** [wrapText] of [src/agent.ts] *)

Lemma split_on_sep_app (sep : ascii) (a b : string) :
  split_on sep (a ++ String sep b) = (split_on sep a ++ split_on sep b)%list.
Proof.
  induction a as [|c a IH]; cbn [append split_on].
  - now rewrite Ascii.eqb_refl.
  - rewrite IH. destruct (Ascii.eqb c sep); [reflexivity|].
    destruct (split_on sep a) as [|x xs] eqn:E; [|reflexivity].
    destruct a as [|d a]; cbn [split_on] in E; [discriminate E|].
    destruct (Ascii.eqb d sep); [discriminate E|]. destruct (split_on sep a); discriminate E.
Qed.

Lemma split_on_words (sep : ascii) (s : string) :
  Forall (fun w => all_chars (fun c => negb (Ascii.eqb c sep)) w = true) (split_on sep s).
Proof.
  induction s as [|c s IH]; cbn [split_on]; [repeat constructor|].
  destruct (Ascii.eqb c sep) eqn:E; [constructor; [reflexivity | exact IH]|].
  destruct (split_on sep s) as [|x xs]; [repeat constructor; cbn; now rewrite E|].
  inversion IH as [|? ? Hx Hxs]; subst. constructor; [|exact Hxs].
  cbn [all_chars]. now rewrite E, Hx.
Qed.

Lemma nonempty_words_app (a b : string) :
  nonempty_words (a ++ " " ++ b) = (nonempty_words a ++ nonempty_words b)%list.
Proof.
  unfold nonempty_words. cbn [append]. now rewrite split_on_sep_app, filter_app.
Qed.

Lemma wrap_words_keeps (maxVW : Z) (words lines : list string) (buf : string) (bufVW : Z) :
  Forall (fun w => all_chars (fun c => negb (Ascii.eqb c (ascii_of_N 32))) w = true) words ->
  Forall (fun l => l <> "") lines ->
  let (lines', buf') := wrap_words maxVW words lines buf bufVW in
  (flat_map nonempty_words lines' ++ nonempty_words buf')%list
  = (flat_map nonempty_words lines ++ nonempty_words buf
       ++ filter (fun w => negb (w =? "")) words)%list /\
  Forall (fun l => l <> "") lines'.
Proof.
  revert lines buf bufVW. induction words as [|word rest IH]; intros lines buf bufVW Hw Hl.
  - cbn [wrap_words filter]. now rewrite List.app_nil_r.
  - inversion Hw as [|? ? Hword Hrest]; subst. cbn [wrap_words]. cbv zeta.
    assert (Hnw : filter (fun w => negb (w =? "")) (word :: rest)
                  = (nonempty_words word ++ filter (fun w => negb (w =? "")) rest)%list).
    { unfold nonempty_words. rewrite split_on_plain by exact Hword.
      change (word :: rest) with ([word] ++ rest)%list. apply filter_app. }
    rewrite Hnw. clear Hnw.
    destruct (negb (buf =? "") && (maxVW <? bufVW + 1 + vw word)%Z) eqn:E.
    + apply andb_prop in E as [E _]. apply negb_true_iff, String.eqb_neq in E.
      specialize (IH (lines ++ [buf])%list word (vw word) Hrest).
      destruct (wrap_words maxVW rest (lines ++ [buf]) word (vw word)) as [lines' buf'].
      destruct IH as [IH1 IH2]; [apply Forall_app; split; [exact Hl | now constructor]|].
      split; [|exact IH2]. rewrite IH1, flat_map_app. cbn [flat_map].
      rewrite List.app_nil_r, <- !List.app_assoc. reflexivity.
    + destruct (buf =? "") eqn:Eb; cbn [negb].
      * apply String.eqb_eq in Eb. subst buf. cbn [append].
        specialize (IH lines word (bufVW + vw word) Hrest Hl).
        destruct (wrap_words maxVW rest lines word (bufVW + vw word)) as [lines' buf'].
        destruct IH as [IH1 IH2]. split; [|exact IH2]. rewrite IH1. reflexivity.
      * specialize (IH lines ((buf ++ " ") ++ word) (bufVW + 1 + vw word) Hrest Hl).
        destruct (wrap_words maxVW rest lines ((buf ++ " ") ++ word) (bufVW + 1 + vw word))
          as [lines' buf'].
        destruct IH as [IH1 IH2]. split; [|exact IH2]. rewrite IH1.
        rewrite append_assoc, nonempty_words_app, <- !List.app_assoc. reflexivity.
Qed.

(** X18.  [wrapText] keeps the words: the non-empty words of the lines it
    gives, read in order, are the non-empty words of the text, whatever
    the width; it gives at least one line, and no empty line except for
    the single empty line of a text without words. *)
Theorem wrapText_keeps_words (text : string) (maxVW : Z) :
  flat_map nonempty_words (wrapText text maxVW) = nonempty_words text /\
  wrapText text maxVW <> [] /\
  (wrapText text maxVW = [""] \/ Forall (fun l => l <> "") (wrapText text maxVW)).
Proof.
  unfold wrapText.
  pose proof (wrap_words_keeps maxVW (split_on (ascii_of_N 32) text) [] "" 0
                (split_on_words _ text) (Forall_nil _)) as H.
  destruct (wrap_words maxVW (split_on (ascii_of_N 32) text) [] "" 0) as [lines buf].
  destruct H as [H1 H2]. cbn [flat_map app] in H1. fold (nonempty_words text) in H1.
  destruct (buf =? "") eqn:Eb; cbn [negb].
  - apply String.eqb_eq in Eb. subst buf. cbn in H1. rewrite List.app_nil_r in H1.
    destruct lines as [|l lines]; [|split; [exact H1 | split; [discriminate | now right]]].
    rewrite <- H1. split; [reflexivity|]. split; [discriminate | now left].
  - apply String.eqb_neq in Eb.
    assert (H3 : Forall (fun l => l <> "") (lines ++ [buf])%list)
      by (apply Forall_app; split; [exact H2 | now constructor]).
    assert (H4 : flat_map nonempty_words (lines ++ [buf])%list = nonempty_words text)
      by (rewrite flat_map_app; cbn [flat_map]; now rewrite List.app_nil_r).
    destruct (lines ++ [buf])%list as [|l ls] eqn:E; [now destruct lines|].
    split; [exact H4 | split; [discriminate | now right]].
Qed.

Lemma strip_ansi_from_space (st : ansi_state) (a b : string) :
  strip_ansi_from st (a ++ " " ++ b) = strip_ansi_from st a ++ " " ++ strip_ansi b.
Proof.
  revert st. induction a as [|c a IH]; intros st.
  - cbn [append]. destruct st; cbn; rewrite ?append_assoc; reflexivity.
  - cbn [append strip_ansi_from]. cbv zeta.
    destruct st as [| |held].
    + destruct (code c =? 27)%N; [apply IH | cbn [append]; now rewrite IH].
    + destruct (code c =? 91)%N; [apply IH|].
      destruct (code c =? 27)%N; rewrite IH, ?append_assoc; reflexivity.
    + destruct (is_digit c || (code c =? 59)%N); [apply IH|].
      destruct (code c =? 109)%N; [apply IH|].
      destruct (code c =? 27)%N; rewrite IH, ?append_assoc; reflexivity.
Qed.

Lemma chars_from_space (held : string) (need : nat) (x y : string) :
  chars_from held need (x ++ " " ++ y) = (chars_from held need x ++ " " :: chars y)%list.
Proof.
  revert held need. induction x as [|c x IH]; intros held need.
  - cbn [append]. destruct need; reflexivity.
  - cbn [append chars_from]. destruct need as [|need].
    + destruct (sequence_length c); [cbn [app]; now rewrite IH | apply IH].
    + destruct (is_continuation c).
      * destruct need; [cbn [app]; now rewrite IH | apply IH].
      * cbn [app]. f_equal. destruct (sequence_length c); [cbn [app]; now rewrite IH | apply IH].
Qed.

Lemma fold_width (l : list string) (w : Z) :
  fold_left width_step l w = w + fold_left width_step l 0.
Proof.
  revert w. induction l as [|ch l IH]; intros w; cbn [fold_left]; [lia|].
  rewrite IH, (IH (width_step 0 ch)). unfold width_step. destruct (vw_wide _); lia.
Qed.

Lemma vw_space (a b : string) : vw (a ++ " " ++ b) = vw a + 1 + vw b.
Proof.
  unfold vw, strip_ansi. rewrite strip_ansi_from_space.
  unfold chars. rewrite chars_from_space, fold_left_app. cbn [fold_left].
  rewrite fold_width. change (width_step ?w " ") with (w + 1). reflexivity.
Qed.

Lemma vw_nonneg (s : string) : 0 <= vw s.
Proof.
  unfold vw. generalize (chars (strip_ansi s)) as l.
  assert (H : forall l w, 0 <= w -> 0 <= fold_left width_step l w).
  { induction l as [|ch l IH]; intros w Hw; cbn [fold_left]; [exact Hw|].
    apply IH. unfold width_step. destruct (vw_wide _); lia. }
  intros l. now apply H.
Qed.

Lemma wrap_words_fits (maxVW : Z) (words lines : list string) (buf : string) (bufVW : Z) :
  Forall (fun w => no_space w = true) words ->
  bufVW = vw buf ->
  vw buf <= maxVW \/ no_space buf = true ->
  Forall (fun l => vw l <= maxVW \/ no_space l = true) lines ->
  let (lines', buf') := wrap_words maxVW words lines buf bufVW in
  Forall (fun l => vw l <= maxVW \/ no_space l = true) lines' /\
  (vw buf' <= maxVW \/ no_space buf' = true).
Proof.
  revert lines buf bufVW. induction words as [|word rest IH]; intros lines buf bufVW Hw Hv Hb Hl.
  - cbn [wrap_words]. auto.
  - inversion Hw as [|? ? Hword Hrest]; subst. cbn [wrap_words]. cbv zeta.
    destruct (negb (buf =? "") && (maxVW <? vw buf + 1 + vw word)%Z) eqn:E.
    + apply IH; auto. apply Forall_app. split; [exact Hl | now constructor].
    + destruct (buf =? "") eqn:Eb; cbn [negb andb] in E |- *.
      * apply String.eqb_eq in Eb. subst buf. cbn [append]. apply IH; auto.
      * apply Z.ltb_ge in E. apply IH; auto.
        -- now rewrite append_assoc, vw_space.
        -- left. rewrite append_assoc, vw_space. lia.
Qed.

(** X19.  Every line [wrapText] gives is at most [maxVW] columns wide as
    [vw] measures it (colour sequences not counted, Hangul and CJK counted
    twice), or is one single word: only a word wider than the limit makes
    a line exceed it. *)
Theorem wrapText_fits (text : string) (maxVW : Z) :
  Forall (fun line => vw line <= maxVW \/ no_space line = true) (wrapText text maxVW).
Proof.
  unfold wrapText.
  pose proof (wrap_words_fits maxVW (split_on (ascii_of_N 32) text) [] "" 0
                (split_on_words _ text) eq_refl (or_intror eq_refl) (Forall_nil _)) as H.
  destruct (wrap_words maxVW (split_on (ascii_of_N 32) text) [] "" 0) as [lines buf].
  destruct H as [H1 H2].
  assert (H3 : Forall (fun line => vw line <= maxVW \/ no_space line = true)
                 (if negb (buf =? "") then (lines ++ [buf])%list else lines)).
  { destruct (negb (buf =? "")); [|exact H1]. apply Forall_app. split; [exact H1 | now constructor]. }
  destruct (if negb (buf =? "") then (lines ++ [buf])%list else lines); [|exact H3].
  constructor; [now right | constructor].
Qed.

(* ================================================================== *)
(** ** [fetchAgentCard] and [src/cli.ts] *)

(** X20.  [fetchAgentCard] sends one GET, for [/.well-known/agent.json]
    under the base URL (one trailing slash removed), and never rejects.
    It resolves with the card of the answer when the answer is 2xx and its
    body decodes, and with the card named [unknown] that has no skills in
    every other case: the request failed or timed out, the status is
    outside 2xx, the body does not decode. *)
Theorem fetchAgentCard_never_rejects (fetch : CardFetch) (baseUrl : string) :
  let outcome := fetch (strip_trailing_slash baseUrl ++ "/.well-known/agent.json") in
  (forall res card,
     outcome = Normal res -> card_ok res = true -> card_json res = Normal card ->
     fetchAgentCard fetch baseUrl = Normal card) /\
  (forall res e,
     outcome = Normal res -> card_ok res = true -> card_json res = Throw e ->
     fetchAgentCard fetch baseUrl = Normal UNKNOWN_CARD) /\
  (forall res,
     outcome = Normal res -> card_ok res = false ->
     fetchAgentCard fetch baseUrl = Normal UNKNOWN_CARD) /\
  (forall e,
     outcome = Throw e -> fetchAgentCard fetch baseUrl = Normal UNKNOWN_CARD).
Proof.
  cbv zeta. unfold fetchAgentCard. split; [|split; [|split]].
  - intros res card -> Hok Hj. cbn [bind]. rewrite Hok, Hj. reflexivity.
  - intros res e -> Hok Hj. cbn [bind]. rewrite Hok, Hj. reflexivity.
  - intros res -> Hok. cbn [bind]. rewrite Hok. reflexivity.
  - intros e ->. reflexivity.
Qed.

Lemma fetchAgentCard_never_rejects_witness :
  let card := {| card_name := "Willform Deploy Agent";
                 skills := [{| skill_id := "deploy"; skill_name := "Deploy";
                               skill_description := None |}] |} in
  let served url :=
    if url =? "http://localhost:3000/.well-known/agent.json"
    then Normal {| card_ok := true; card_status := 200; card_json := Normal card |}
    else Normal {| card_ok := false; card_status := 404;
                   card_json := Throw (SyntaxError "Unexpected token in JSON") |} in
  fetchAgentCard served "http://localhost:3000/" = Normal card /\
  fetchAgentCard served "http://localhost:3000/api" = Normal UNKNOWN_CARD.
Proof.
  intros card served.
  destruct (fetchAgentCard_never_rejects served "http://localhost:3000/") as (H1 & _).
  destruct (fetchAgentCard_never_rejects served "http://localhost:3000/api") as (_ & _ & H3 & _).
  split.
  - apply (H1 {| card_ok := true; card_status := 200; card_json := Normal card |});
      reflexivity.
  - apply (H3 {| card_ok := false; card_status := 404;
                 card_json := Throw (SyntaxError "Unexpected token in JSON") |});
      reflexivity.
Defined.

Lemma js_value_status_data (task : A2ATask) :
  js_value (JObj [("status", JStr (state (status task))); ("data", extractData task)]).
Proof.
  pose proof (extractData_js_value task) as H. unfold js_value in *.
  cbn [normalize map fst snd]. rewrite H. reflexivity.
Qed.

(** X21.  A run of [cli.ts] on an operation and a parameter text.  A text
    that is no JSON text ends the run with the uncaught error of
    [JSON.parse], before any request: nothing is printed and the client is
    untouched.  Otherwise the value of the text (the empty object for an
    empty text) is sent once; a task prints one text on the standard
    output that decodes to [{"status": state, "data": extractData(task)}]
    and the run ends normally; a failure prints [Error: message] on the
    standard error and exits with code 1.  The texts are those the
    embedding treats exactly. *)
Theorem cli_reports_the_call (operation text : string) (client : A2AClient) :
  operation <> "" -> operation <> "--help" ->
  (text <> "" -> is_json_text text = false ->
   exists e, cli [operation; text] client
             = ({| stdout := []; stderr := []; cli_end := Uncaught e |}, client)) /\
  (forall params,
     (text = "" /\ params = JObj []) \/
     (text <> "" /\ JSON_parse text = Some params /\ exact_json params = true) ->
     match send client operation (Some params) None with
     | (Normal task, client') =>
         exact_text (rawText_of task) = true ->
         exists out,
           stdout (fst (cli [operation; text] client)) = [out] /\
           JSON_parse out
           = Some (JObj [("status", JStr (state (status task))); ("data", extractData task)]) /\
           cli_end (fst (cli [operation; text] client)) = Done /\
           snd (cli [operation; text] client) = client'
     | (Throw err, client') =>
         cli [operation; text] client
         = ({| stdout := []; stderr := ["Error: " ++ error_message_of err];
               cli_end := Exit 1 |}, client')
     end).
Proof.
  intros H1 H2. apply String.eqb_neq in H1, H2.
  unfold cli. cbn [nth_error]. rewrite H1, H2. cbn [orb]. split.
  - intros Ht Hp. apply String.eqb_neq in Ht. rewrite Ht. unfold JSON_parse_c.
    destruct (JSON_parse text) as [v|] eqn:E.
    + apply JSON_parse_json_text in E. congruence.
    + eexists. reflexivity.
  - intros params [[-> ->]|(Ht & Hp & _)].
    + cbn [String.eqb].
      destruct (send client operation (Some (JObj [])) None) as [[task|err] client'];
        [|reflexivity].
      intros _. cbn [fst snd stdout cli_end]. eexists. split; [reflexivity|].
      split; [|auto]. rewrite JSON_parse_stringify_pretty. f_equal. apply js_value_status_data.
    + apply String.eqb_neq in Ht. rewrite Ht. unfold JSON_parse_c. rewrite Hp.
      destruct (send client operation (Some params) None) as [[task|err] client'];
        [|reflexivity].
      intros _. cbn [fst snd stdout cli_end]. eexists. split; [reflexivity|].
      split; [|auto]. rewrite JSON_parse_stringify_pretty. f_equal. apply js_value_status_data.
Qed.

Lemma cli_reports_the_call_witness :
  let task := task_with_text "Namespace demo created." in
  let client := new_A2AClient "http://localhost:3000" (fetch_always (response_with task)) in
  (exists e, cli ["namespace_create"; "{name:demo}"] client
             = ({| stdout := []; stderr := []; cli_end := Uncaught e |}, client)) /\
  exists out,
    stdout (fst (cli ["namespace_create"; "{}"] client)) = [out] /\
    JSON_parse out
    = Some (JObj [("status", JStr "completed"); ("data", JStr "Namespace demo created.")]) /\
    cli_end (fst (cli ["namespace_create"; "{}"] client)) = Done /\
    snd (cli ["namespace_create"; "{}"] client)
    = {| baseUrl := baseUrl client; fetch := fetch client; rpcId := 1 |}.
Proof.
  intros task client. split.
  - destruct (cli_reports_the_call "namespace_create" "{name:demo}" client) as [H _];
      try discriminate.
    apply H; [discriminate | reflexivity].
  - destruct (cli_reports_the_call "namespace_create" "{}" client) as [_ H];
      try discriminate.
    apply (H (JObj [])); [|reflexivity].
    right. split; [discriminate|]. split; reflexivity.
Defined.

(* ================================================================== *)
(** ** [resolvePath] of [src/lib/util.ts] *)

Lemma split_on_cons (sep : ascii) (s : string) : exists k ks, split_on sep s = k :: ks.
Proof.
  destruct s as [|c s]; cbn [split_on]; [eauto|].
  destruct (Ascii.eqb c sep); [eauto|]. destruct (split_on sep s); eauto.
Qed.

Section ResolvePathFacts.

Variable value : Type.
Variable undefined : value.
Variable is_object : value -> bool.
Variable get : value -> string -> value.
Hypothesis undefined_is_no_object : is_object undefined = false.

Lemma resolve_keys_app (obj : value) (ks1 ks2 : list string) :
  ks2 <> [] ->
  resolve_keys value undefined is_object get obj (ks1 ++ ks2)
  = resolve_keys value undefined is_object get
      (resolve_keys value undefined is_object get obj ks1) ks2.
Proof.
  intros Hne. revert obj. induction ks1 as [|k ks1 IH]; intros obj; [reflexivity|].
  cbn [app resolve_keys]. destruct (is_object obj); cbn [negb]; [apply IH|].
  destruct ks2 as [|k2 ks2]; [congruence|]. cbn [resolve_keys].
  now rewrite undefined_is_no_object.
Qed.

(** X22.  [resolvePath] composes along the dots: resolving
    [path.rest] is resolving [rest] in what [path] resolves to.  On a value
    that is not an object ([null], [undefined], a string, a number) every
    path gives [undefined], and the empty path reads the property named by
    the empty string. *)
Theorem resolvePath_composes (obj : value) (path rest : string) :
  resolvePath value undefined is_object get obj (path ++ "." ++ rest)
  = resolvePath value undefined is_object get
      (resolvePath value undefined is_object get obj path) rest /\
  (is_object obj = false -> resolvePath value undefined is_object get obj path = undefined) /\
  resolvePath value undefined is_object get obj ""
  = (if is_object obj then get obj "" else undefined).
Proof.
  unfold resolvePath. split; [|split].
  - cbn [append]. rewrite split_on_sep_app. apply resolve_keys_app.
    destruct (split_on_cons (ascii_of_N 46) rest) as (k & ks & ->). discriminate.
  - intros H. destruct (split_on_cons (ascii_of_N 46) path) as (k & ks & ->).
    cbn [resolve_keys]. now rewrite H.
  - cbn [split_on resolve_keys]. now destruct (is_object obj).
Qed.

End ResolvePathFacts.

Lemma resolvePath_composes_witness :
  let obj := Some (JObj [("data", JObj [("reply", JStr "ok")])]) in
  resolvePath (option json) None json_is_object json_member obj "data.reply" = Some (JStr "ok") /\
  resolvePath (option json) None json_is_object json_member (Some (JStr "text")) "length" = None.
Proof.
  destruct (resolvePath_composes (option json) None json_is_object json_member eq_refl
              (Some (JObj [("data", JObj [("reply", JStr "ok")])])) "data" "reply")
    as (H1 & _ & _).
  destruct (resolvePath_composes (option json) None json_is_object json_member eq_refl
              (Some (JStr "text")) "length" "") as (_ & H2 & _).
  split; [etransitivity; [apply H1 | reflexivity] | apply H2; reflexivity].
Defined.

(* ================================================================== *)
(** ** The text layout of [src/lib/animation.ts] *)

Module AnimationFacts.
Import Animation.

Local Open Scope Z_scope.
Local Open Scope list_scope.

Lemma fold_strWidth (s : text) (w : Z) :
  fold_left (fun w c => w + charWidth c) s w = w + strWidth s.
Proof.
  unfold strWidth. revert w. induction s as [|c s IH]; intros w; cbn [fold_left]; [lia|].
  rewrite IH, (IH (0 + charWidth c)). lia.
Qed.

Lemma strWidth_app (a b : text) : strWidth (a ++ b) = strWidth a + strWidth b.
Proof. unfold strWidth at 1. rewrite fold_left_app, fold_strWidth. fold (strWidth a). lia. Qed.

Lemma strWidth_spaces (n : nat) : strWidth (repeat SPACE n) = Z.of_nat n.
Proof.
  induction n as [|n IH]; [reflexivity|].
  change (repeat SPACE (S n)) with ([SPACE] ++ repeat SPACE n).
  rewrite strWidth_app, IH. change (strWidth [SPACE]) with 1. lia.
Qed.

Lemma charWidth_pos (c : N) : 1 <= charWidth c <= 2.
Proof. unfold charWidth. destruct (_ || _); lia. Qed.

Lemma strWidth_nonneg (s : text) : 0 <= strWidth s.
Proof.
  induction s as [|c s IH]; [reflexivity|].
  change (c :: s) with ([c] ++ s). rewrite strWidth_app.
  change (strWidth [c]) with (0 + charWidth c). pose proof (charWidth_pos c). lia.
Qed.

Lemma truncate_spec (width : Z) (s result : text) (w : Z) :
  w = strWidth result -> w <= width - 1 ->
  exists kept,
    truncate width s result w = (result ++ kept, strWidth (result ++ kept)) /\
    strWidth (result ++ kept) <= width - 1 /\
    exists rest, s = kept ++ rest.
Proof.
  revert result w. induction s as [|c s IH]; intros result w Hw Hb.
  - exists []. cbn [truncate]. rewrite List.app_nil_r. subst w.
    split; [reflexivity|]. split; [exact Hb|]. now exists [].
  - cbn [truncate]. cbv zeta. destruct (width - 1 <? w + charWidth c) eqn:E.
    + exists []. rewrite List.app_nil_r. subst w.
      split; [reflexivity|]. split; [exact Hb|]. now exists (c :: s).
    + apply Z.ltb_ge in E.
      destruct (IH (result ++ [c]) (w + charWidth c)) as (kept & H1 & H2 & rest & H3).
      * rewrite strWidth_app. subst w. change (strWidth [c]) with (0 + charWidth c). lia.
      * exact E.
      * exists (c :: kept). rewrite <- List.app_assoc in H1, H2. cbn [app] in H1, H2.
        split; [exact H1|]. split; [exact H2|]. exists rest. cbn [app]. now rewrite H3.
Qed.

Lemma padW_strWidth (s : text) (width : Z) :
  strWidth s <= width \/ 1 <= width -> strWidth (padW s width) = width.
Proof.
  intros H. unfold padW. cbv zeta. destruct (strWidth s <=? width) eqn:E.
  - apply Z.leb_le in E. rewrite strWidth_app, strWidth_spaces. lia.
  - apply Z.leb_gt in E. destruct H as [H|H]; [lia|].
    destruct (truncate_spec width s [] 0 eq_refl) as (kept & H1 & H2 & _); [lia|].
    cbn [app] in H1, H2. rewrite H1.
    rewrite !strWidth_app, strWidth_spaces. change (strWidth [ELLIPSIS]) with 1.
    pose proof (strWidth_nonneg kept). lia.
Qed.

(** X23.  [padW(s, width)] is exactly [width] columns wide, for every text
    that fits and for every text at all when the width is at least 1: a
    text that fits is followed by spaces only, a text that does not is cut
    to a prefix followed by the ellipsis and spaces.  (For a width below 1
    a text that does not fit gives the ellipsis alone, one column wide.) *)
Theorem padW_width (s : text) (width : Z) :
  strWidth s <= width \/ 1 <= width ->
  strWidth (padW s width) = width /\
  exists kept rest pad,
    s = kept ++ rest /\
    padW s width = kept ++ (if strWidth s <=? width then [] else [ELLIPSIS]) ++ repeat SPACE pad /\
    (strWidth s <= width -> rest = []).
Proof.
  intros H. split; [now apply padW_strWidth|].
  unfold padW. cbv zeta. destruct (strWidth s <=? width) eqn:E.
  - apply Z.leb_le in E.
    exists s, [], (Z.to_nat (width - strWidth s)). rewrite List.app_nil_r. auto.
  - apply Z.leb_gt in E. destruct H as [H|H]; [lia|].
    destruct (truncate_spec width s [] 0 eq_refl) as (kept & H1 & H2 & rest & H3); [lia|].
    cbn [app] in H1, H2. rewrite H1.
    exists kept, rest, (Z.to_nat (Z.max (width - strWidth kept - 1) 0)).
    split; [exact H3|]. split; [reflexivity | lia].
Qed.

(** X24.  Every row [deployBox] prints between its borders is exactly
    [LAYOUT.contentWidth] (48) columns wide, whatever the lines are: the
    right border of the box stays aligned for wide characters and for
    lines and words longer than the box. *)
Theorem deployBox_rows_width (lines : list text) :
  Forall (fun row => strWidth row = CW) (deployBox_rows lines).
Proof.
  unfold deployBox_rows. induction lines as [|line lines IH]; [constructor|].
  cbn [flat_map]. apply Forall_app. split; [|exact IH].
  apply Forall_forall. intros row Hrow. apply in_map_iff in Hrow as (wl & <- & _).
  apply padW_strWidth. right. unfold CW. lia.
Qed.

Lemma tokens_concat (s current : text) (in_space : bool) :
  concat (tokens s current in_space) = current ++ s.
Proof.
  revert current in_space. induction s as [|c s IH]; intros current in_space.
  - cbn [tokens]. destruct in_space; cbn; now rewrite ?List.app_nil_r.
  - cbn [tokens]. destruct (Bool.eqb _ _).
    + rewrite IH, <- List.app_assoc. reflexivity.
    + cbn [concat]. rewrite IH. reflexivity.
Qed.

Lemma is_run_of (t : text) (b : bool) :
  forallb (fun c => Bool.eqb (is_white_space c) b) t = true -> is_run t = true.
Proof.
  intros H. unfold is_run. destruct b.
  - assert (G : forallb is_white_space t = true); [|now rewrite G].
    induction t as [|c t IH]; [reflexivity|]. cbn [forallb] in *.
    apply andb_prop in H as [Hc Ht]. rewrite (IH Ht).
    destruct (is_white_space c); [reflexivity | discriminate Hc].
  - assert (G : forallb (fun c => negb (is_white_space c)) t = true);
      [|rewrite G; apply orb_true_r].
    induction t as [|c t IH]; [reflexivity|]. cbn [forallb] in *.
    apply andb_prop in H as [Hc Ht]. rewrite (IH Ht).
    destruct (is_white_space c); [discriminate Hc | reflexivity].
Qed.

Lemma tokens_runs (s current : text) (in_space : bool) :
  forallb (fun c => Bool.eqb (is_white_space c) in_space) current = true ->
  Forall (fun t => is_run t = true) (tokens s current in_space).
Proof.
  pose proof is_run_of as Hrun.
  revert current in_space. induction s as [|c s IH]; intros current in_space H.
  - cbn [tokens]. destruct in_space; repeat constructor; eauto.
  - cbn [tokens]. destruct (Bool.eqb (is_white_space c) in_space) eqn:E.
    + apply IH. rewrite forallb_app, H. cbn. now rewrite E.
    + constructor; [eauto|]. apply IH. cbn.
      destruct (is_white_space c), in_space; try discriminate E; reflexivity.
Qed.

Lemma wrap_tokens_spec (maxWidth : Z) (words lines : list text) (current : text)
    (currentWidth : Z) :
  Forall (fun t => is_run t = true) words ->
  currentWidth = strWidth current ->
  strWidth current <= maxWidth \/ is_run current = true ->
  Forall (fun l => strWidth l <= maxWidth \/ is_run l = true) lines ->
  Forall (fun l => l <> []) lines ->
  let (lines', current') := wrap_tokens maxWidth words lines current currentWidth in
  concat lines' ++ current' = concat lines ++ current ++ concat words /\
  Forall (fun l => strWidth l <= maxWidth \/ is_run l = true) lines' /\
  (strWidth current' <= maxWidth \/ is_run current' = true) /\
  Forall (fun l => l <> []) lines'.
Proof.
  revert lines current currentWidth.
  induction words as [|word rest IH]; intros lines current currentWidth Hw Hc Hb Hl Hn.
  - cbn [wrap_tokens concat]. rewrite List.app_nil_r. auto.
  - inversion Hw as [|? ? Hword Hrest]; subst. cbn [wrap_tokens]. cbv zeta.
    destruct ((maxWidth <? strWidth current + strWidth word) && nonempty current) eqn:E.
    + apply andb_prop in E as [_ E].
      specialize (IH (lines ++ [current]) word (strWidth word) Hrest eq_refl (or_intror Hword)).
      destruct (wrap_tokens maxWidth rest (lines ++ [current]) word (strWidth word))
        as [lines' current'].
      destruct IH as (H1 & H2 & H3 & H4).
      * apply Forall_app. split; [exact Hl | now constructor].
      * apply Forall_app. split; [exact Hn|]. constructor; [|constructor].
        now destruct current.
      * rewrite H1, concat_app. cbn [concat]. rewrite List.app_nil_r, <- !List.app_assoc. auto.
    + specialize (IH lines (current ++ word) (strWidth current + strWidth word) Hrest).
      destruct (wrap_tokens maxWidth rest lines (current ++ word)
                  (strWidth current + strWidth word)) as [lines' current'].
      destruct IH as (H1 & H2 & H3 & H4); auto.
      * now rewrite strWidth_app.
      * apply andb_false_iff in E as [E|E].
        -- left. apply Z.ltb_ge in E. now rewrite strWidth_app.
        -- right. destruct current; [exact Hword | discriminate E].
      * rewrite H1, <- !List.app_assoc. auto.
Qed.

Lemma split_lines_concat (s : text) :
  concat (split_lines s) = filter (fun c => negb (c =? 10)%N) s.
Proof.
  induction s as [|c s IH]; [reflexivity|]. cbn [split_lines filter].
  destruct (c =? 10)%N; cbn [negb concat app]; [exact IH|].
  destruct (split_lines s) as [|line lines]; cbn [concat app] in *; now rewrite <- IH.
Qed.

(** X25.  [wrapText] of [animation.ts] loses no character: the lines it
    gives, joined with nothing between them, are the text without its line
    feeds (white space at a break stays, at the end of one line or the
    start of the next).  Every line fits the width, or is a single run of
    white space or of other characters that is wider than it. *)
Theorem wrapText_keeps_text (s : text) (maxWidth : Z) :
  concat (wrapText s maxWidth) = filter (fun c => negb (c =? 10)%N) s /\
  Forall (fun line => strWidth line <= maxWidth \/ is_run line = true) (wrapText s maxWidth).
Proof.
  assert (Hline : forall raw,
            concat (wrap_line maxWidth raw) = raw /\
            Forall (fun line => strWidth line <= maxWidth \/ is_run line = true)
                   (wrap_line maxWidth raw)).
  { intros raw. unfold wrap_line. destruct (strWidth raw <=? maxWidth) eqn:E.
    - apply Z.leb_le in E. cbn [concat]. rewrite List.app_nil_r. split; [reflexivity|].
      constructor; [now left | constructor].
    - pose proof (wrap_tokens_spec maxWidth (tokens raw [] false) [] [] 0
                    (tokens_runs raw [] false eq_refl) eq_refl (or_intror eq_refl)
                    (Forall_nil _) (Forall_nil _)) as H.
      destruct (wrap_tokens maxWidth (tokens raw [] false) [] [] 0) as [lines current].
      destruct H as (H1 & H2 & H3 & _). rewrite tokens_concat in H1. cbn [concat app] in H1.
      destruct current as [|c current]; cbn [nonempty].
      + rewrite List.app_nil_r in H1. auto.
      + rewrite concat_app. cbn [concat]. rewrite List.app_nil_r. split; [exact H1|].
        apply Forall_app. split; [exact H2 | now constructor]. }
  unfold wrapText. rewrite <- split_lines_concat.
  induction (split_lines s) as [|raw raws IH]; [split; [reflexivity | constructor]|].
  cbn [flat_map concat]. destruct IH as [IH1 IH2]. destruct (Hline raw) as [H1 H2].
  rewrite concat_app, H1, IH1. split; [reflexivity|]. apply Forall_app. auto.
Qed.

(** X26.  [unwrapArray] always gives an array and is idempotent: the
    [data] member of [d] when that member is an array, whatever else [d]
    holds; [d] itself when [d] is an array; the empty array otherwise.
    [unwrap] never gives [null] (nor [undefined]): it gives the [data]
    member of [d] when that member is an object or an array, whatever else
    [d] holds; the empty object when [d] is [null] or [undefined]; and [d]
    itself otherwise. *)
Theorem unwrap_results (d : option json) :
  (exists items, unwrapArray d = JArr items) /\
  unwrapArray (Some (unwrapArray d)) = unwrapArray d /\
  unwrap d <> JNull /\
  (forall o items,
     lookup "data" o = Some (JArr items) ->
     unwrapArray (Some (JObj o)) = JArr items /\ unwrap (Some (JObj o)) = JArr items) /\
  (forall o members,
     lookup "data" o = Some (JObj members) ->
     unwrap (Some (JObj o)) = JObj members /\ unwrapArray (Some (JObj o)) = JArr []) /\
  (forall o,
     match lookup "data" o with
     | Some (JObj _) | Some (JArr _) => False
     | _ => True
     end ->
     unwrap (Some (JObj o)) = JObj o /\ unwrapArray (Some (JObj o)) = JArr []) /\
  (forall items,
     unwrapArray (Some (JArr items)) = JArr items /\ unwrap (Some (JArr items)) = JArr items) /\
  (match d with
   | None | Some JNull => unwrap d = JObj [] /\ unwrapArray d = JArr []
   | Some (JBool _ as v) | Some (JNum _ as v) | Some (JStr _ as v) =>
       unwrap d = v /\ unwrapArray d = JArr []
   | _ => True
   end).
Proof.
  split; [|split; [|split; [|split; [|split; [|split; [|split]]]]]].
  - unfold unwrapArray. destruct d as [[| | | |items|o]|]; try (now eexists).
    destruct (lookup "data" o) as [[| | | |items|o']|]; now eexists.
  - unfold unwrapArray. destruct d as [[| | | |items|o]|]; try reflexivity.
    destruct (lookup "data" o) as [[| | | |items|o']|]; reflexivity.
  - unfold unwrap. destruct d as [[| | | |items|o]|]; try discriminate.
    destruct (lookup "data" o) as [[| | | |items|o']|]; discriminate.
  - intros o items H. unfold unwrapArray, unwrap. rewrite H. split; reflexivity.
  - intros o members H. unfold unwrapArray, unwrap. rewrite H. split; reflexivity.
  - intros o H. unfold unwrapArray, unwrap.
    destruct (lookup "data" o) as [[| | | |items|o']|]; try contradiction; split; reflexivity.
  - intros items. split; reflexivity.
  - destruct d as [[| | | |items|o]|]; try exact I; split; reflexivity.
Qed.

End AnimationFacts.

Lemma padW_width_witness :
  Animation.strWidth
    (Animation.padW [54620%N; 44544%N; 32%N; 116%N; 101%N; 115%N; 116%N] 6) = 6%Z.
Proof.
  apply (AnimationFacts.padW_width [54620%N; 44544%N; 32%N; 116%N; 101%N; 115%N; 116%N] 6).
  right. lia.
Defined.

Lemma unwrap_results_witness :
  let listed :=
    JObj [("success", JBool true);
          ("data", JArr [JObj [("name", JStr "demo")]]);
          ("count", JNum 1)] in
  let created :=
    JObj [("message", JStr "Namespace created"); ("data", JObj [("name", JStr "demo")])] in
  (Animation.unwrapArray (Some listed) = JArr [JObj [("name", JStr "demo")]] /\
   Animation.unwrap (Some listed) = JArr [JObj [("name", JStr "demo")]]) /\
  (Animation.unwrap (Some created) = JObj [("name", JStr "demo")] /\
   Animation.unwrapArray (Some created) = JArr []).
Proof.
  intros listed created.
  destruct (AnimationFacts.unwrap_results None) as (_ & _ & _ & H1 & H2 & _).
  split.
  - apply (H1 _ [JObj [("name", JStr "demo")]]). reflexivity.
  - apply (H2 _ [("name", JStr "demo")]). reflexivity.
Defined.
